(** * History recalculation and period archiving (service.js)

    A shallow embedding of the recalculation and archiving engine of
    [src/service.js]: [_deduplicateChecks], [recalcImpactedHistory],
    [updatePeriodSettings], [calculatePeriodStart], [checkPeriodRollover]
    and [archiveAndReset], with the Dexie tables and the localStorage keys
    they touch as an explicit state; and, around the engine, the readers
    [getAppDataSnapshot], [getLogsWithPagination], [getRecentExercises] and
    [getFrequentExercises] and the writers [ensureTodayCheckRecord],
    [saveDailyCheck], [saveBeerLog], [saveExerciseLog], [deleteLog] and
    [bulkDeleteLogs]; the save and delete paths end in a recalculation.

    Conventions.
    - Instants and durations are integer milliseconds (epoch based), as in
      the source.
    - The other JS numbers (kcal, METs, multipliers, abv, carbs) are exact
      fixed-point integers counted in thousandths: 0.1 is 100, 1.0 is 1000,
      3.0 is 3000.  An absent or NaN number is [None].  Their sums and
      differences are exact here, where the source adds IEEE doubles: no
      general statement below rests on regrouping or cancelling such a
      sum, and the worked examples add whole numbers.
    - A 'YYYY-MM-DD' day key is represented by the number of the local
      calendar day it names (days since 1970-01-01); the rendering is
      injective, so maps keyed by the string and by the number agree.
    - The local time zone is a fixed offset from UTC ([tzOffset], ms);
      a daylight saving change is not modelled.
    - A dayjs value is the instant it denotes. *)

From Stdlib Require Import ZArith String Ascii List Lia Bool DecimalString.
From stdpp Require Import base option list gmap.

Import ListNotations.
Local Open Scope Z_scope.

(** ** Data model *)

Inductive LogType := beer | exercise.

Inductive Mode := weekly | monthly | custom | permanent.

Definition LogType_eqb (a b : LogType) : bool :=
  match a, b with
  | beer, beer | exercise, exercise => true
  | _, _ => false
  end.

Definition Mode_eqb (a b : Mode) : bool :=
  match a, b with
  | weekly, weekly | monthly, monthly | custom, custom
  | permanent, permanent => true
  | _, _ => false
  end.

(** A row of [db.logs].  [size], [abv], [style] and [count] are the BEER
    inputs the snapshot builder reads when [kcal] is missing; [name] stands
    for the remaining pass-through fields. *)
Module LogEntry.

Record t := mk {
  id : Z;
  timestamp : Z;
  type : LogType;
  kcal : option Z;
  name : string;
  exerciseKey : string;
  minutes : Z;
  memo : option string;
  size : option Z;
  abv : option Z;
  style : string;
  count : option Z
}.

(** [db.logs.update(id, {kcal, memo})] applied to one row. *)
Definition setCredit (l : t) (k : Z) (m : string) : t :=
  mk (id l) (timestamp l) (type l) (Some k) (name l) (exerciseKey l)
     (minutes l) (Some m) (size l) (abv l) (style l) (count l).

(** [({id, ...rest}) => rest] followed by [bulkAdd]: the row stored under a
    freshly generated key. *)
Definition withId (l : t) (i : Z) : t :=
  mk i (timestamp l) (type l) (kcal l) (name l) (exerciseKey l)
     (minutes l) (memo l) (size l) (abv l) (style l) (count l).

End LogEntry.

(** A row of [db.checks]. *)
Module CheckEntry.

Record t := mk {
  id : Z;
  timestamp : Z;
  isDryDay : bool;
  isSaved : bool;
  weight : option Z
}.

End CheckEntry.

(** A row of [db.period_archives]. *)
Module PeriodArchive.

Record t := mk {
  id : Z;
  startDate : Z;
  endDate : Z;
  mode : Mode;
  totalBalance : Z;
  logs : list LogEntry.t;
  createdAt : Z;
  updatedAt : option Z
}.

(** [db.period_archives.update(id, {totalBalance, logs, updatedAt})]
    applied to one row. *)
Definition refresh (a : t) (total : Z) (ls : list LogEntry.t) (now : Z) : t :=
  mk (id a) (startDate a) (endDate a) (mode a) total ls (createdAt a)
     (Some now).

End PeriodArchive.

(** The per-day aggregate kept in [logMap]. *)
Record DayAgg := mkDayAgg {
  hasBeer : bool;
  hasExercise : bool;
  balance : Z
}.

(** The result of [Calc.calculateExerciseCredit]. *)
Record Credit := mkCredit {
  creditKcal : Z;
  bonusMultiplier : Z
}.

Record Profile := mkProfile {
  weight : Z;
  height : Z;
  age : Z;
  gender : string
}.

(** ** Collaborators

    [logic.js], [constants.js] and [store.js] are outside the engine; the
    functions and tables service.js imports from them are collected here
    and stay abstract. *)
Record Env := mkEnv {
  tzOffset : Z;
  EXERCISE : string -> option Z;
  STYLE_SPECS : string -> option Z;
  getProfile : Profile;
  calculateExerciseBurn : Z -> Z -> Profile -> Z;
  calculateBeerDebit : Z -> Z -> Z -> Z -> Z;
  getStreakFromMap : gmap Z DayAgg -> gmap Z bool -> Z -> Z -> Z;
  calculateExerciseCredit : Z -> Z -> Credit;
  defaultPeriodMode : Mode
}.

(** ** Time *)

Definition msPerHour : Z := 3600000.
Definition msPerDay : Z := 86400000.

(** [dayjs(ts).format('YYYY-MM-DD')]. *)
Definition formatDay (E : Env) (ts : Z) : Z := (ts + tzOffset E) / msPerDay.

(** [dayjs(ts).startOf('day')]. *)
Definition startOfDay (E : Env) (ts : Z) : Z :=
  ts - (ts + tzOffset E) mod msPerDay.

(** [dayjs(ts).endOf('day')]. *)
Definition endOfDay (E : Env) (ts : Z) : Z := startOfDay E ts + msPerDay - 1.

(** [dayjs('YYYY-MM-DD')]: local midnight of the named day. *)
Definition parseDay (E : Env) (d : Z) : Z := d * msPerDay - tzOffset E.

(** [a.isSame(b, 'day')]. *)
Definition isSameDay (E : Env) (a b : Z) : bool := formatDay E a =? formatDay E b.

(** Hour of the local day at which the accounting day starts. *)
Definition dayBoundaryHour : Z := 4.

(** Modelled from the spec: [getVirtualDate] is imported from [logic.js],
    which is not part of the sources at hand.  Section 4.1 and the comments
    of service.js (lines 183 and 617) fix its contract: the accounting day
    starts at 4 AM, so an instant between midnight and 4 AM belongs to the
    previous calendar day. *)
Definition getVirtualDate (E : Env) (ts : Z) : Z :=
  formatDay E (ts - dayBoundaryHour * msPerHour).

(** [x || d] on a number: [undefined], [NaN] and [0] give [d]. *)
Definition orDefault (x : option Z) (d : Z) : Z :=
  match x with
  | Some 0 => d
  | Some v => v
  | None => d
  end.

(** ** Duplicate resolution: [_deduplicateChecks]

    The accumulator is a JS object keyed by the date string; [Object.values]
    lists it in insertion order, and overwriting a key keeps its place. *)

Fixpoint accLookup (acc : list (Z * CheckEntry.t)) (k : Z) : option CheckEntry.t :=
  match acc with
  | [] => None
  | (k', v) :: rest => if k' =? k then Some v else accLookup rest k
  end.

Fixpoint accStore (acc : list (Z * CheckEntry.t)) (k : Z) (v : CheckEntry.t)
  : list (Z * CheckEntry.t) :=
  match acc with
  | [] => [(k, v)]
  | (k', v') :: rest =>
      if k' =? k then (k', v) :: rest else (k', v') :: accStore rest k v
  end.

Definition dedupStep (E : Env) (acc : list (Z * CheckEntry.t)) (cur : CheckEntry.t)
  : list (Z * CheckEntry.t) :=
  let dateStr := formatDay E (CheckEntry.timestamp cur) in
  match accLookup acc dateStr with
  | None => accStore acc dateStr cur
  | Some old =>
      if negb (CheckEntry.isSaved old) && CheckEntry.isSaved cur
      then accStore acc dateStr cur
      else acc
  end.

Definition _deduplicateChecks (E : Env) (rawChecks : list CheckEntry.t)
  : list CheckEntry.t :=
  map snd (fold_left (dedupStep E) rawChecks []).

(** ** Memo regeneration (service.js 209-213)

    [memo.replace(/Streak Bonus x[0-9.]+/g, '')]: every leftmost,
    non-overlapping occurrence of the marker is removed, the digit run
    taken greedily.  Memo text is a string of bytes; [trim] removes the
    ASCII white space (the source strips the Unicode spaces as well). *)

Definition bonusPrefix : string := "Streak Bonus x".

Definition isDigitOrDot (c : ascii) : bool :=
  let n := N_of_ascii c in
  (((48 <=? n) && (n <=? 57)) || (n =? 46))%N.

Definition isSpace (c : ascii) : bool :=
  let n := N_of_ascii c in
  (((9 <=? n) && (n <=? 13)) || (n =? 32))%N.

Fixpoint digitRun (s : string) : nat :=
  match s with
  | String c r => if isDigitOrDot c then S (digitRun r) else O
  | EmptyString => O
  end.

Fixpoint dropPrefix (p s : string) : option string :=
  match p with
  | EmptyString => Some s
  | String a p' =>
      match s with
      | String b s' => if Ascii.eqb a b then dropPrefix p' s' else None
      | EmptyString => None
      end
  end.

(** Length of the match of the marker pattern starting at the head of [s]. *)
Definition matchBonusAt (s : string) : option nat :=
  match dropPrefix bonusPrefix s with
  | Some r =>
      match digitRun r with
      | O => None
      | S n => Some (String.length bonusPrefix + S n)%nat
      end
  | None => None
  end.

(** [skip] counts the characters of the current match still to be dropped. *)
Fixpoint stripBonus (skip : nat) (s : string) : string :=
  match s with
  | EmptyString => EmptyString
  | String c r =>
      match skip with
      | S k => stripBonus k r
      | O =>
          match matchBonusAt s with
          | Some n => stripBonus (Nat.pred n) r
          | None => String c (stripBonus O r)
          end
      end
  end.

Fixpoint trimStart (s : string) : string :=
  match s with
  | String c r => if isSpace c then trimStart r else s
  | EmptyString => EmptyString
  end.

Fixpoint trimEnd (s : string) : string :=
  match s with
  | EmptyString => EmptyString
  | String c r =>
      match trimEnd r with
      | EmptyString => if isSpace c then EmptyString else String c EmptyString
      | r' => String c r'
      end
  end.

Definition trim (s : string) : string := trimEnd (trimStart s).

(** Decimal digits of a non-negative integer. *)
Definition decimal (n : Z) : string :=
  NilZero.string_of_uint (N.to_uint (Z.to_N n)).

(** [x.toFixed(1)] of a number held in thousandths: one decimal, the
    nearest tenth, halves away from zero.  The source rounds the binary
    double, which can lie on either side of such a half. *)
Definition toFixed1 (x : Z) : string :=
  let tenths := (Z.abs x + 50) / 100 in
  let sign := if x <? 0 then "-"%string else ""%string in
  let whole := decimal (tenths / 10) in
  let frac := decimal (tenths mod 10) in
  (sign ++ whole ++ "." ++ frac)%string.

Definition bonusMarker (c : Credit) : string :=
  (bonusPrefix ++ toFixed1 (bonusMultiplier c))%string.

(** The memo the walk wants to see on a log whose credit is [c]. *)
Definition regenMemo (memo : option string) (c : Credit) : string :=
  let stripped := trim (stripBonus O (default EmptyString memo)) in
  let marker := bonusMarker c in
  if bonusMultiplier c >? 1000 then
    match stripped with
    | EmptyString => marker
    | _ => (stripped ++ " " ++ marker)%string
    end
  else stripped.

(** [log.memo !== newMemo]. *)
Definition memoDiffers (memo : option string) (newMemo : string) : bool :=
  match memo with
  | Some s => negb (String.eqb s newMemo)
  | None => true
  end.

(** ** The ledger state

    The three Dexie tables, their key generators (ids are assigned on
    insertion and never reused) and the localStorage keys of the period
    settings.  A localStorage entry that is only ever written from a number
    is kept as the number [parseInt] reads back; [None] is a missing or
    unparsable entry. *)

Record LocalStorage := mkLocalStorage {
  PERIOD_MODE : option Mode;
  PERIOD_START : option Z;
  PERIOD_END_DATE : option Z;
  CUSTOM_LABEL : option string
}.

Record State := mkState {
  logs : list LogEntry.t;
  logsKeyGen : Z;
  checks : list CheckEntry.t;
  period_archives : list PeriodArchive.t;
  archivesKeyGen : Z;
  localStorage : LocalStorage
}.

(** What a run persists, in program order. *)
Inductive Write :=
| LogUpdate (id : Z) (kcal : Z) (memo : string)
| ArchiveUpdate (id : Z) (totalBalance : Z) (logs : list LogEntry.t) (updatedAt : Z).

(** *** Table operations *)

(** Results of an index query come in index order: stable insertion sort
    on the indexed field. *)
Fixpoint insertOn {A : Type} (key : A -> Z) (x : A) (l : list A) : list A :=
  match l with
  | [] => [x]
  | y :: r => if key x <=? key y then x :: y :: r else y :: insertOn key x r
  end.

Definition sortOn {A : Type} (key : A -> Z) (l : list A) : list A :=
  foldr (insertOn key) [] l.

(** [db.logs.where('timestamp').between(lo, hi, true, true).toArray()]. *)
Definition logsBetween (rows : list LogEntry.t) (lo hi : Z) : list LogEntry.t :=
  sortOn LogEntry.timestamp
    (List.filter (fun l => (lo <=? LogEntry.timestamp l) && (LogEntry.timestamp l <=? hi)) rows).

(** [db.logs.where('timestamp').below(hi).toArray()]. *)
Definition logsBelow (rows : list LogEntry.t) (hi : Z) : list LogEntry.t :=
  sortOn LogEntry.timestamp
    (List.filter (fun l => LogEntry.timestamp l <? hi) rows).

(** [db.period_archives.where('endDate').aboveOrEqual(t).toArray()]. *)
Definition archivesEndingFrom (rows : list PeriodArchive.t) (t : Z) : list PeriodArchive.t :=
  sortOn PeriodArchive.endDate
    (List.filter (fun a => t <=? PeriodArchive.endDate a) rows).

(** [db.logs.update(id, {kcal, memo})].  Keys are unique in a table
    ([uniqueLogIds] below), so at most one row matches. *)
Definition updateLog (rows : list LogEntry.t) (id k : Z) (m : string) : list LogEntry.t :=
  map (fun r => if LogEntry.id r =? id then LogEntry.setCredit r k m else r) rows.

(** [db.period_archives.update(id, {totalBalance, logs, updatedAt})]. *)
Definition updateArchive (rows : list PeriodArchive.t) (id total : Z)
    (ls : list LogEntry.t) (now : Z) : list PeriodArchive.t :=
  map (fun r => if PeriodArchive.id r =? id then PeriodArchive.refresh r total ls now else r) rows.

(** [ls.reduce((sum, l) => sum + (l.kcal || 0), 0)]. *)
Definition sumKcal (ls : list LogEntry.t) : Z :=
  fold_left (fun sum l => sum + orDefault (LogEntry.kcal l) 0) ls 0.

(** ** Ledger snapshot builder (service.js 129-178) *)

Definition MAX_SAFE_INTEGER : Z := 9007199254740991.

Definition emptyAgg : DayAgg := mkDayAgg false false 0.

(** The amount a log adds to its day: the stored [kcal] when there is one,
    else the burn or debit computed from the log's own inputs. *)
Definition logContribution (E : Env) (l : LogEntry.t) : Z :=
  match LogEntry.kcal l with
  | Some k => k
  | None =>
      match LogEntry.type l with
      | exercise =>
          let mets := match EXERCISE E (LogEntry.exerciseKey l) with
                      | Some m => m
                      | None => 3000
                      end in
          calculateExerciseBurn E mets (LogEntry.minutes l) (getProfile E)
      | beer =>
          let ml := orDefault (LogEntry.size l) 350 in
          let abv := orDefault (LogEntry.abv l) 5000 in
          let carb := match STYLE_SPECS E (LogEntry.style l) with
                      | Some c => c
                      | None => 3000
                      end in
          calculateBeerDebit E ml abv carb (orDefault (LogEntry.count l) 1)
      end
  end.

Definition addToLogMap (E : Env) (logMap : gmap Z DayAgg) (l : LogEntry.t)
  : gmap Z DayAgg :=
  let d := getVirtualDate E (LogEntry.timestamp l) in
  let entry := default emptyAgg (logMap !! d) in
  <[d := mkDayAgg (hasBeer entry || LogType_eqb (LogEntry.type l) beer)
                  (hasExercise entry || LogType_eqb (LogEntry.type l) exercise)
                  (balance entry + logContribution E l)]> logMap.

(** One turn of [allLogs.forEach] at line 134: the state is
    [(logMap, minTs, found)]. *)
Definition scanLog (E : Env) (acc : gmap Z DayAgg * Z * bool) (l : LogEntry.t)
  : gmap Z DayAgg * Z * bool :=
  let '(logMap, minTs, _) := acc in
  let minTs' := if LogEntry.timestamp l <? minTs then LogEntry.timestamp l else minTs in
  (addToLogMap E logMap l, minTs', true).

(** One turn of [allChecks.forEach] at line 159. *)
Definition scanCheck (E : Env) (acc : gmap Z bool * Z * bool) (c : CheckEntry.t)
  : gmap Z bool * Z * bool :=
  let '(checkMap, minTs, _) := acc in
  let minTs' := if CheckEntry.timestamp c <? minTs then CheckEntry.timestamp c else minTs in
  (<[getVirtualDate E (CheckEntry.timestamp c) := CheckEntry.isDryDay c]> checkMap,
   minTs', true).

(** One turn of [allLogs.forEach] at line 170. *)
Definition indexExercise (E : Env) (idx : gmap Z (list LogEntry.t)) (l : LogEntry.t)
  : gmap Z (list LogEntry.t) :=
  match LogEntry.type l with
  | exercise =>
      let dStr := getVirtualDate E (LogEntry.timestamp l) in
      <[dStr := default [] (idx !! dStr) ++ [l]]> idx
  | beer => idx
  end.

Record Snapshot := mkSnapshot {
  logMap : gmap Z DayAgg;
  checkMap : gmap Z bool;
  firstDate : Z;
  exerciseLogsByDate : gmap Z (list LogEntry.t)
}.

Definition buildSnapshot (E : Env) (now : Z) (allLogs : list LogEntry.t)
    (allChecks : list CheckEntry.t) : Snapshot :=
  let '(lm, minTs1, found1) := fold_left (scanLog E) allLogs (∅, MAX_SAFE_INTEGER, false) in
  let '(cm, minTs, found) := fold_left (scanCheck E) allChecks (∅, minTs1, found1) in
  let first := if found then startOfDay E minTs else now in
  mkSnapshot lm cm first (fold_left (indexExercise E) allLogs ∅).

(** ** Recalculation orchestrator: [recalcImpactedHistory]

    The body runs inside one Dexie transaction; nothing in it fails, so
    the model is the committed result together with the writes issued. *)

(** Loop state of the forward walk.  [dbLogs] is [db.logs] as the
    transaction sees it, [written] the writes so far; [visited] records the
    day keys whose body ran and exists for the statements only. *)
Record WalkState := mkWalk {
  dbLogs : list LogEntry.t;
  wLogMap : gmap Z DayAgg;
  updateCount : Z;
  safeGuard : Z;
  written : list Write;
  visited : list Z
}.

(** Is the stored credit out of date (line 216)?  The difference is
    taken exactly. *)
Definition isStale (l : LogEntry.t) (c : Credit) (newMemo : string) : bool :=
  (Z.abs (orDefault (LogEntry.kcal l) 0 - creditKcal c) >? 100)
  || memoDiffers (LogEntry.memo l) newMemo.

(** The credit the walk computes for an exercise log (lines 204-206). *)
Definition creditFor (E : Env) (streak : Z) (log : LogEntry.t) : Credit :=
  let mets := orDefault (EXERCISE E (LogEntry.exerciseKey log)) 3000 in
  let baseBurn := calculateExerciseBurn E mets (LogEntry.minutes log) (getProfile E) in
  calculateExerciseCredit E baseBurn streak.

(** Body of [for (const log of daysExerciseLogs)]. *)
Definition processLog (E : Env) (streak dateStr : Z) (w : WalkState)
    (log : LogEntry.t) : WalkState :=
  let updatedCredit := creditFor E streak log in
  let newMemo := regenMemo (LogEntry.memo log) updatedCredit in
  if isStale log updatedCredit newMemo then
    let delta := creditKcal updatedCredit - orDefault (LogEntry.kcal log) 0 in
    mkWalk (updateLog (dbLogs w) (LogEntry.id log) (creditKcal updatedCredit) newMemo)
           (alter (fun entry => mkDayAgg (hasBeer entry) (hasExercise entry)
                                         (balance entry + delta))
                  dateStr (wLogMap w))
           (updateCount w + 1)
           (safeGuard w)
           (written w ++ [LogUpdate (LogEntry.id log) (creditKcal updatedCredit) newMemo])
           (visited w)
  else w.

(** Body of the [while] loop below the guard (lines 195-228). *)
Definition processDay (E : Env) (snap : Snapshot) (currentDate : Z)
    (w : WalkState) : WalkState :=
  let dateStr := formatDay E currentDate in
  let streak := getStreakFromMap E (wLogMap w) (checkMap snap) (firstDate snap) currentDate in
  let daysExerciseLogs := default [] (exerciseLogsByDate snap !! dateStr) in
  let w' := fold_left (processLog E streak dateStr) daysExerciseLogs w in
  mkWalk (dbLogs w') (wLogMap w') (updateCount w') (safeGuard w') (written w')
         (visited w' ++ [dateStr]).

Definition bumpGuard (w : WalkState) : WalkState :=
  mkWalk (dbLogs w) (wLogMap w) (updateCount w) (safeGuard w + 1) (written w)
         (visited w).

(** The [while] loop of lines 192-230.  [fuel] bounds the number of guard
    evaluations; [walkFuel] is enough for every input (see
    [walk_fuel_irrelevant]). *)
Fixpoint walk (E : Env) (snap : Snapshot) (today : Z) (fuel : nat)
    (currentDate : Z) (w : WalkState) : WalkState :=
  match fuel with
  | O => w
  | S fuel' =>
      if (currentDate <? today) || isSameDay E currentDate today then
        if safeGuard w >? 3650 then bumpGuard w
        else walk E snap today fuel' (currentDate + msPerDay)
                  (processDay E snap currentDate (bumpGuard w))
      else w
  end.

Definition walkFuel : nat := 3652.

(** One turn of [for (const archive of affectedArchives)]; [rows] is the
    log table after the walk. *)
Definition refreshArchive (now : Z) (rows : list LogEntry.t)
    (acc : list PeriodArchive.t * list Write) (archive : PeriodArchive.t)
  : list PeriodArchive.t * list Write :=
  let periodLogs :=
    logsBetween rows (PeriodArchive.startDate archive) (PeriodArchive.endDate archive) in
  let totalBalance := sumKcal periodLogs in
  (updateArchive (fst acc) (PeriodArchive.id archive) totalBalance periodLogs now,
   snd acc ++ [ArchiveUpdate (PeriodArchive.id archive) totalBalance periodLogs now]).

Definition recalcImpactedHistory (E : Env) (now changedTimestamp : Z) (st : State)
  : State * list Write :=
  let snap := buildSnapshot E now (logs st) (checks st) in
  let virtualStartDateStr := getVirtualDate E changedTimestamp in
  let startDate := startOfDay E (parseDay E virtualStartDateStr) in
  let today := endOfDay E now in
  let w := walk E snap today walkFuel startDate
                (mkWalk (logs st) (logMap snap) 0 0 [] []) in
  let affectedArchives := archivesEndingFrom (period_archives st) changedTimestamp in
  let '(archives, writes) :=
    fold_left (refreshArchive now (dbLogs w)) affectedArchives
              (period_archives st, written w) in
  (mkState (dbLogs w) (logsKeyGen st) (checks st) archives (archivesKeyGen st)
           (localStorage st),
   writes).

(** ** Archive consistency manager *)

(** Day of the month (1..31) of a local calendar day number, by the usual
    era / year-of-era decomposition of the proleptic Gregorian calendar. *)
Definition dayOfMonth (dayNumber : Z) : Z :=
  let z := dayNumber + 719468 in
  let doe := z mod 146097 in
  let yoe := (doe - doe / 1460 + doe / 36524 - doe / 146096) / 365 in
  let doy := doe - (365 * yoe + yoe / 4 - yoe / 100) in
  let mp := (5 * doy + 2) / 153 in
  doy - (153 * mp + 2) / 5 + 1.

(** [dayjs(ts).startOf('month')]. *)
Definition startOfMonth (E : Env) (ts : Z) : Z :=
  startOfDay E ts - (dayOfMonth (formatDay E ts) - 1) * msPerDay.

(** [dayjs(ts).day()]: 0 is Sunday; 1970-01-01 was a Thursday. *)
Definition weekday (E : Env) (ts : Z) : Z := (formatDay E ts + 4) mod 7.

(** [getStartOfWeek]: the Monday that opens the week of [date]. *)
Definition getStartOfWeek (E : Env) (date : Z) : Z :=
  let day := if weekday E date =? 0 then 7 else weekday E date in
  startOfDay E (date - (day - 1) * msPerDay).

Definition calculatePeriodStart (E : Env) (now : Z) (mode : Mode) : Z :=
  match mode with
  | weekly => getStartOfWeek E now
  | monthly => startOfMonth E now
  | custom => startOfDay E now
  | permanent => 0
  end.

Definition setPeriodStart (ls : LocalStorage) (v : Z) : LocalStorage :=
  mkLocalStorage (PERIOD_MODE ls) (Some v) (PERIOD_END_DATE ls) (CUSTOM_LABEL ls).

Definition setPeriodMode (ls : LocalStorage) (m : Mode) : LocalStorage :=
  mkLocalStorage (Some m) (PERIOD_START ls) (PERIOD_END_DATE ls) (CUSTOM_LABEL ls).

Definition setPeriodEndDate (ls : LocalStorage) (v : Z) : LocalStorage :=
  mkLocalStorage (PERIOD_MODE ls) (PERIOD_START ls) (Some v) (CUSTOM_LABEL ls).

Definition setCustomLabel (ls : LocalStorage) (s : string) : LocalStorage :=
  mkLocalStorage (PERIOD_MODE ls) (PERIOD_START ls) (PERIOD_END_DATE ls) (Some s).

Definition withLocalStorage (st : State) (ls : LocalStorage) : State :=
  mkState (logs st) (logsKeyGen st) (checks st) (period_archives st)
          (archivesKeyGen st) ls.

(** [db.period_archives.add({...})]: the row goes in under the next
    generated key. *)
Definition addArchive (st : State) (startDate endDate : Z) (mode : Mode)
    (totalBalance : Z) (ls : list LogEntry.t) (createdAt : Z) : State :=
  mkState (logs st) (logsKeyGen st) (checks st)
          (period_archives st
             ++ [PeriodArchive.mk (archivesKeyGen st) startDate endDate mode
                   totalBalance ls createdAt None])
          (archivesKeyGen st + 1) (localStorage st).

(** [archiveAndReset] (lines 412-442), one transaction. *)
Definition archiveAndReset (now currentStart nextStart : Z) (mode : Mode) (st : State)
  : State :=
  let logsToArchive := logsBelow (logs st) nextStart in
  let st' :=
    match logsToArchive with
    | _ :: _ =>
        let existingArchive :=
          List.find (fun a => PeriodArchive.startDate a =? currentStart)
                    (period_archives st) in
        match existingArchive with
        | None =>
            let totalBalance := sumKcal logsToArchive in
            addArchive st currentStart (nextStart - 1) mode totalBalance
                       logsToArchive now
        | Some _ => st
        end
    | [] => st
    end in
  withLocalStorage st' (setPeriodStart (localStorage st') nextStart).

(** [checkPeriodRollover] (lines 357-408): the flag it returns and the
    state it leaves. *)
Definition checkPeriodRollover (E : Env) (now : Z) (st : State) : bool * State :=
  let mode := default (defaultPeriodMode E) (PERIOD_MODE (localStorage st)) in
  if Mode_eqb mode permanent then (false, st)
  else
    let storedStart := orDefault (PERIOD_START (localStorage st)) 0 in
    if storedStart =? 0 then
      let newStart := calculatePeriodStart E now mode in
      (false, withLocalStorage st (setPeriodStart (localStorage st) newStart))
    else
      match mode with
      | weekly =>
          let currentWeekStart := getStartOfWeek E now in
          if negb (isSameDay E currentWeekStart storedStart) then
            (true, archiveAndReset now storedStart currentWeekStart mode st)
          else (false, st)
      | monthly =>
          let currentMonthStart := startOfMonth E now in
          if negb (isSameDay E currentMonthStart storedStart) then
            (true, archiveAndReset now storedStart currentMonthStart mode st)
          else (false, st)
      | custom =>
          let endDateTs := orDefault (PERIOD_END_DATE (localStorage st)) 0 in
          if negb (endDateTs =? 0) && (endOfDay E endDateTs <? now)
          then (true, st)
          else (false, st)
      | permanent => (false, st)
      end.

(** The optional argument of [updatePeriodSettings]; the dates are the
    instants dayjs reads from them. *)
Record CustomData := mkCustomData {
  cdStartDate : option Z;
  cdEndDate : option Z;
  cdLabel : option string
}.

(** [db.logs.bulkAdd(rows)] for rows without a key. *)
Definition bulkAddLogs (st : State) (rows : list LogEntry.t) : State :=
  fold_left
    (fun s r =>
       mkState (logs s ++ [LogEntry.withId r (logsKeyGen s)]) (logsKeyGen s + 1)
               (checks s) (period_archives s) (archivesKeyGen s) (localStorage s))
    rows st.

(** One turn of [for (const arch of archives)] at line 294; the state is
    the ledger and [restoredCount]. *)
Definition restoreArchive (acc : State * Z) (arch : PeriodArchive.t) : State * Z :=
  match PeriodArchive.logs arch with
  | [] => acc
  | _ :: _ =>
      let logsToRestore := PeriodArchive.logs arch in
      (bulkAddLogs (fst acc) logsToRestore,
       snd acc + Z.of_nat (length logsToRestore))
  end.

Definition clearArchives (st : State) : State :=
  mkState (logs st) (logsKeyGen st) (checks st) [] (archivesKeyGen st)
          (localStorage st).

(** [updatePeriodSettings] (lines 271-314): the ledger it leaves and
    [restoredCount]. *)
Definition updatePeriodSettings (E : Env) (now : Z) (newMode : Mode)
    (customData : CustomData) (st : State) : State * Z :=
  let st0 := withLocalStorage st (setPeriodMode (localStorage st) newMode) in
  match newMode with
  | custom =>
      let ls1 := match cdStartDate customData with
                 | Some d => setPeriodStart (localStorage st0) (startOfDay E d)
                 | None => localStorage st0
                 end in
      let ls2 := match cdEndDate customData with
                 | Some d => setPeriodEndDate ls1 (endOfDay E d)
                 | None => ls1
                 end in
      let ls3 := match cdLabel customData with
                 | Some EmptyString | None => ls2
                 | Some label => setCustomLabel ls2 label
                 end in
      (withLocalStorage st0 ls3, 0)
  | permanent =>
      match period_archives st0 with
      | [] => (st0, 0)
      | archives =>
          let '(st1, restoredCount) := fold_left restoreArchive archives (st0, 0) in
          let st2 := clearArchives st1 in
          (withLocalStorage st2 (setPeriodStart (localStorage st2) 0), restoredCount)
      end
  | _ =>
      let start := calculatePeriodStart E now newMode in
      (withLocalStorage st0 (setPeriodStart (localStorage st0) start), 0)
  end.

(** ** A concrete environment

    UTC as the local zone and small stand-ins for the collaborators, used
    to run the definitions on concrete ledgers: the streak is 1 when the day
    before the target has a non-negative balance, and a streak earns a 1.2
    multiplier. *)
Definition sampleEnv : Env :=
  mkEnv 0 (fun _ => None) (fun _ => None) (mkProfile 60000 170000 30 "m"%string)
        (fun mets minutes _ => mets * minutes)
        (fun ml abv carb n => - (ml * n))
        (fun lm _ _ currentDate =>
           match lm !! (currentDate / msPerDay - 1) with
           | Some a => if 0 <=? balance a then 1 else 0
           | None => 0
           end)
        (fun base streak =>
           if 1 <=? streak then mkCredit (base * 12 / 10) 1200
           else mkCredit base 1000)
        weekly.

(** The record [_deduplicateChecks] keeps for a day: the first saved one,
    or the first one when none is saved. *)
Definition dayWinner (cs : list CheckEntry.t) : option CheckEntry.t :=
  match List.find CheckEntry.isSaved cs with
  | Some s => Some s
  | None => List.head cs
  end.

(** Two check records of one virtual day: the confirmed record of
    1970-01-01, anchored at noon, and a placeholder created at 02:00 of the
    next morning, before the 4 AM boundary. *)
Definition noonCheck : CheckEntry.t :=
  CheckEntry.mk 1 (12 * msPerHour) true true None.

Definition lateNightPlaceholder : CheckEntry.t :=
  CheckEntry.mk 2 (26 * msPerHour) false false None.

(** Three records of the calendar date 1970-01-01: a placeholder and two
    confirmed records. *)
Definition sameDateChecks : list CheckEntry.t :=
  [CheckEntry.mk 3 (9 * msPerHour) false false None;
   noonCheck;
   CheckEntry.mk 4 (13 * msPerHour) false true None].

Definition emptyStorage : LocalStorage := mkLocalStorage None None None None.

Definition emptyLedger : State := mkState [] 1 [] [] 1 emptyStorage.

Definition noCustomData : CustomData := mkCustomData None None None.

(** A small ledger: a beer on the evening of day 1, exercise on the
    mornings of days 2 and 3, one confirmed check. *)
Definition beerLog : LogEntry.t :=
  LogEntry.mk 1 (1 * msPerDay + 20 * msPerHour) beer (Some (-140000))
              "IPA"%string ""%string 0 None (Some 350) (Some 5000) "IPA"%string
              (Some 1).

Definition runLog : LogEntry.t :=
  LogEntry.mk 2 (2 * msPerDay + 8 * msPerHour) exercise (Some 100000)
              "Running"%string "running"%string 30 (Some ""%string) None None
              ""%string None.

Definition walkLog : LogEntry.t :=
  LogEntry.mk 3 (3 * msPerDay + 8 * msPerHour) exercise (Some 50000)
              "Walking"%string "walking"%string 20 (Some "easy"%string) None None
              ""%string None.

Definition sampleLedger : State :=
  mkState [beerLog; runLog; walkLog] 4 [noonCheck] [] 1
          (mkLocalStorage (Some weekly) (Some (-3 * msPerDay)) None None).

(** The sample ledger after the week that started on Monday 1969-12-29
    has been sealed at Monday 1970-01-05 (day 4). *)
Definition sealedLedger : State :=
  archiveAndReset (4 * msPerDay) (-3 * msPerDay) (4 * msPerDay) weekly sampleLedger.

(** No stored period start: the entry is missing, unparsable or zero
    ([!storedStart] at line 366). *)
Definition noPeriodStart (st : State) : Prop :=
  PERIOD_START (localStorage st) = None \/ PERIOD_START (localStorage st) = Some 0.

Definition currentMode (E : Env) (st : State) : Mode :=
  default (defaultPeriodMode E) (PERIOD_MODE (localStorage st)).

(** The cached total of an archive matches its snapshot. *)
Definition archiveConsistent (a : PeriodArchive.t) : Prop :=
  PeriodArchive.totalBalance a = sumKcal (PeriodArchive.logs a).

Definition archivesConsistent (st : State) : Prop :=
  Forall archiveConsistent (period_archives st).

(** No two archives start on the same instant. *)
Definition distinctStartDates (st : State) : Prop :=
  NoDup (map PeriodArchive.startDate (period_archives st)).

(** The earliest timestamp of the ledger, as the two scans compute it. *)
Definition earliestTimestamp (allLogs : list LogEntry.t) (allChecks : list CheckEntry.t)
  : Z :=
  fold_left Z.min (map CheckEntry.timestamp allChecks)
    (fold_left Z.min (map LogEntry.timestamp allLogs) MAX_SAFE_INTEGER).

(** A beer logged at 02:00 on 1970-01-02, which the 4 AM boundary puts on
    the virtual day 1970-01-01. *)
Definition nightCap : LogEntry.t :=
  LogEntry.mk 1 (1 * msPerDay + 2 * msPerHour) beer (Some (-140000))
              "Stout"%string ""%string 0 None (Some 350) (Some 5000)
              "Stout"%string (Some 1).

(** All snapshot rows of all archives, in table order. *)
Definition snapshotRows (st : State) : list LogEntry.t :=
  concat (map PeriodArchive.logs (period_archives st)).

(** A row without its key: what [({id, ...rest}) => rest] keeps. *)
Definition stripId (l : LogEntry.t) : LogEntry.t := LogEntry.withId l 0.

(** Two rollovers of the sample ledger: the week sealed at day 4, then the
    next one sealed at day 11 after a beer on day 6. *)
Definition secondBeer : LogEntry.t :=
  LogEntry.mk 4 (6 * msPerDay + 21 * msPerHour) beer (Some (-200000))
              "Porter"%string ""%string 0 None (Some 500) (Some 6000)
              "Porter"%string (Some 1).

Definition twiceSealedLedger : State :=
  archiveAndReset (11 * msPerDay) (4 * msPerDay) (11 * msPerDay) weekly
    (mkState (logs sealedLedger ++ [secondBeer]) 5 (checks sealedLedger)
             (period_archives sealedLedger) (archivesKeyGen sealedLedger)
             (localStorage sealedLedger)).

(** The exercise logs of one virtual day. *)
Definition isExerciseOn (E : Env) (d : Z) (l : LogEntry.t) : bool :=
  LogType_eqb (LogEntry.type l) exercise
  && (getVirtualDate E (LogEntry.timestamp l) =? d).

(** [l'] is [l], or [l] is an exercise log and [l'] differs from it in
    [kcal] and [memo] only. *)
Definition creditRewrite (l l' : LogEntry.t) : Prop :=
  l' = l
  \/ (LogEntry.type l = exercise
      /\ exists k m, l' = LogEntry.setCredit l k m).

(** The same, for a walk that starts on virtual day [D]: only logs of day
    [D] or later are rewritten. *)
Definition rewrittenFrom (E : Env) (D : Z) (l l' : LogEntry.t) : Prop :=
  l' = l
  \/ (LogEntry.type l = exercise
      /\ D <= getVirtualDate E (LogEntry.timestamp l)
      /\ exists k m, l' = LogEntry.setCredit l k m).

(** Primary keys are unique in a Dexie table. *)
Definition uniqueLogIds (st : State) : Prop :=
  NoDup (map LogEntry.id (logs st)).

Definition uniqueArchiveIds (st : State) : Prop :=
  NoDup (map PeriodArchive.id (period_archives st)).

(** ** The days of the forward walk *)

(** The days whose body the loop runs: its control alone. *)
Fixpoint walkDays (E : Env) (today : Z) (fuel : nat) (currentDate guard : Z)
  : list Z :=
  match fuel with
  | O => []
  | S fuel' =>
      if (currentDate <? today) || isSameDay E currentDate today then
        if guard >? 3650 then []
        else formatDay E currentDate
               :: walkDays E today fuel' (currentDate + msPerDay) (guard + 1)
      else []
  end.

(** ** What a run stores in the archives *)

(** An archive that already holds what a refresh at [now] over [rows]
    would store. *)
Definition freshFor (now : Z) (rows : list LogEntry.t) (a : PeriodArchive.t) : Prop :=
  PeriodArchive.refresh a
    (sumKcal (logsBetween rows (PeriodArchive.startDate a) (PeriodArchive.endDate a)))
    (logsBetween rows (PeriodArchive.startDate a) (PeriodArchive.endDate a)) now
  = a.

(** The archive update that stores again what the archive holds. *)
Definition rewriteOf (now : Z) (a : PeriodArchive.t) : Write :=
  ArchiveUpdate (PeriodArchive.id a) (PeriodArchive.totalBalance a)
                (PeriodArchive.logs a) now.

(** The log updates among the writes of a run. *)
Definition isLogUpdate (w : Write) : bool :=
  match w with
  | LogUpdate _ _ _ => true
  | ArchiveUpdate _ _ _ _ => false
  end.

Definition logUpdates (ws : list Write) : list Write := List.filter isLogUpdate ws.

(** The archive update a refresh at [now] issues for [a] when the log
    table is [rows] (lines 241-256). *)
Definition refreshOf (now : Z) (rows : list LogEntry.t) (a : PeriodArchive.t) : Write :=
  ArchiveUpdate (PeriodArchive.id a)
    (sumKcal (logsBetween rows (PeriodArchive.startDate a) (PeriodArchive.endDate a)))
    (logsBetween rows (PeriodArchive.startDate a) (PeriodArchive.endDate a)) now.

(** The archive with its [updatedAt] stamped again, its [logs] and
    [totalBalance] stored as they are. *)
Definition touch (now : Z) (a : PeriodArchive.t) : PeriodArchive.t :=
  PeriodArchive.refresh a (PeriodArchive.totalBalance a) (PeriodArchive.logs a) now.

Definition touchFrom (now t : Z) (a : PeriodArchive.t) : PeriodArchive.t :=
  if t <=? PeriodArchive.endDate a then touch now a else a.

(** An archive whose snapshot and total are those of its range in [rows]. *)
Definition freshContent (rows : list LogEntry.t) (a : PeriodArchive.t) : Prop :=
  PeriodArchive.logs a
  = logsBetween rows (PeriodArchive.startDate a) (PeriodArchive.endDate a)
  /\ PeriodArchive.totalBalance a
     = sumKcal (logsBetween rows (PeriodArchive.startDate a) (PeriodArchive.endDate a)).

Definition withArchives (st : State) (archives : list PeriodArchive.t) : State :=
  mkState (logs st) (logsKeyGen st) (checks st) archives (archivesKeyGen st)
          (localStorage st).

(** A ledger with an exercise log that has no stored kcal: a beer and a
    20 minute walk without kcal on day 1, a 20 minute walk on day 2. *)
Definition unratedLedger : State :=
  mkState
    [LogEntry.mk 1 (1 * msPerDay + 20 * msPerHour) beer (Some (-100000))
                 "IPA"%string ""%string 0 None (Some 350) (Some 5000) "IPA"%string
                 (Some 1);
     LogEntry.mk 2 (1 * msPerDay + 8 * msPerHour) exercise None
                 "Walking"%string "walking"%string 20 (Some ""%string) None None
                 ""%string None;
     LogEntry.mk 3 (2 * msPerDay + 8 * msPerHour) exercise (Some 60000)
                 "Walking"%string "walking"%string 20 (Some ""%string) None None
                 ""%string None]
    4 [] [] 1 (mkLocalStorage (Some weekly) (Some (-3 * msPerDay)) None None).

(** ** Reading the ledger: [getAppDataSnapshot], [getLogsWithPagination] *)

(** What [getAppDataSnapshot] returns; [Store.setCachedData] receives
    [adAllLogs], [adChecks] and [adLogs] of the same record. *)
Record AppData := mkAppData {
  adLogs : list LogEntry.t;
  adChecks : list CheckEntry.t;
  adAllLogs : list LogEntry.t;
  adBalance : Z;
  adMode : Mode
}.

(** [getAppDataSnapshot] (lines 30-63).  The mode defaults to 'weekly'
    here, whatever [APP.DEFAULTS] says.  [None] is read as the missing
    PERIOD_START entry, which counts as 0; an entry that is there but does
    not parse would give NaN and an empty period, and is not a state this
    file produces: it only ever stores numbers. *)
Definition getAppDataSnapshot (E : Env) (st : State) : AppData :=
  let mode := default weekly (PERIOD_MODE (localStorage st)) in
  let start := default 0 (PERIOD_START (localStorage st)) in
  let allLogs := logs st in
  let rawChecks := checks st in
  let checks := _deduplicateChecks E rawChecks in
  let periodLogs :=
    if negb (Mode_eqb mode permanent)
    then List.filter (fun l => start <=? LogEntry.timestamp l) allLogs
    else allLogs in
  let balance := sumKcal periodLogs in
  mkAppData periodLogs checks allLogs balance mode.

(** [db.logs.where('timestamp').aboveOrEqual(lo)], in index order. *)
Definition logsFrom (rows : list LogEntry.t) (lo : Z) : list LogEntry.t :=
  sortOn LogEntry.timestamp
    (List.filter (fun l => lo <=? LogEntry.timestamp l) rows).

(** [collection.reverse().offset(offset).limit(limit).toArray()]. *)
Definition page {A : Type} (indexOrder : list A) (offset limit : nat) : list A :=
  firstn limit (skipn offset (rev indexOrder)).

(** [getLogsWithPagination] (lines 70-84): the page and [totalCount]. *)
Definition getLogsWithPagination (offset limit : nat) (st : State)
  : list LogEntry.t * Z :=
  let mode := default weekly (PERIOD_MODE (localStorage st)) in
  if Mode_eqb mode permanent then
    (page (sortOn LogEntry.timestamp (logs st)) offset limit,
     Z.of_nat (length (logs st)))
  else
    let periodStart := orDefault (PERIOD_START (localStorage st)) 0 in
    (page (logsFrom (logs st) periodStart) offset limit,
     Z.of_nat (length (logsFrom (logs st) periodStart))).

(** ** Daily checks: [ensureTodayCheckRecord], [saveDailyCheck]

    [db.checks] hands out keys like the other tables, and [saveDailyCheck]
    writes the WEIGHT entry of localStorage: the ledger is extended with
    both. *)
Record Db := mkDb {
  ledger : State;
  checksKeyGen : Z;
  WEIGHT : option Z
}.

(** The same database with another ledger, table of checks or of logs. *)
Definition withLedger (db : Db) (st : State) : Db :=
  mkDb st (checksKeyGen db) (WEIGHT db).

Definition withChecks (st : State) (rows : list CheckEntry.t) : State :=
  mkState (logs st) (logsKeyGen st) rows (period_archives st)
          (archivesKeyGen st) (localStorage st).

(** [db.checks.where('timestamp').between(lo, hi, true, includeUpper)],
    in index order. *)
Definition checksBetween (rows : list CheckEntry.t) (lo hi : Z)
    (includeUpper : bool) : list CheckEntry.t :=
  sortOn CheckEntry.timestamp
    (List.filter
       (fun c => (lo <=? CheckEntry.timestamp c)
                 && (if includeUpper then CheckEntry.timestamp c <=? hi
                     else CheckEntry.timestamp c <? hi))
       rows).

(** [db.checks.add(row)]: the row goes in under the next generated key. *)
Definition addCheck (db : Db) (timestamp : Z) (isDryDay isSaved : bool)
    (weight : option Z) : Db :=
  mkDb (withChecks (ledger db)
          (checks (ledger db)
             ++ [CheckEntry.mk (checksKeyGen db) timestamp isDryDay isSaved weight]))
       (checksKeyGen db + 1) (WEIGHT db).

(** [db.checks.update(id, {timestamp, isDryDay, weight, isSaved})]. *)
Definition updateCheck (rows : list CheckEntry.t) (id timestamp : Z)
    (isDryDay isSaved : bool) (weight : option Z) : list CheckEntry.t :=
  map (fun r => if CheckEntry.id r =? id
                then CheckEntry.mk (CheckEntry.id r) timestamp isDryDay isSaved weight
                else r)
      rows.

(** [db.checks.update(id, {isDryDay: false})]. *)
Definition clearDryDay (rows : list CheckEntry.t) (id : Z) : list CheckEntry.t :=
  map (fun r => if CheckEntry.id r =? id
                then CheckEntry.mk (CheckEntry.id r) (CheckEntry.timestamp r) false
                                   (CheckEntry.isSaved r) (CheckEntry.weight r)
                else r)
      rows.

(** [db.checks.bulkDelete(ids)]. *)
Definition bulkDeleteChecks (rows : list CheckEntry.t) (ids : list Z)
  : list CheckEntry.t :=
  List.filter (fun r => negb (existsb (Z.eqb (CheckEntry.id r)) ids)) rows.

(** [ensureTodayCheckRecord] (lines 86-111).  The range is the calendar
    day named by the virtual date of [now], its upper bound excluded (the
    default of [between]); the placeholder is stamped with [now] itself and
    carries no [isSaved]. *)
Definition ensureTodayCheckRecord (E : Env) (now : Z) (db : Db) : Db :=
  let todayStr := getVirtualDate E now in
  let vDate := parseDay E todayStr in
  let startOfDay' := startOfDay E vDate in
  let endOfDay' := endOfDay E vDate in
  match checksBetween (checks (ledger db)) startOfDay' endOfDay' false with
  | _ :: _ => db
  | [] => addCheck db now false false None
  end.

(** The form [saveDailyCheck] receives; [cfDate] is the instant dayjs reads
    from [formData.date].  Its other keys are the wellness flags, copied to
    the record as they are. *)
Record CheckForm := mkCheckForm {
  cfDate : Z;
  cfIsDryDay : bool;
  cfWeight : option Z
}.

(** What [saveDailyCheck] reports; [crShareAction] is the text of
    [shareAction], when there is one. *)
Record CheckReport := mkCheckReport {
  crSuccess : bool;
  crIsUpdate : bool;
  crIsDryDay : bool;
  crShareAction : option string
}.

(** Steps 1 to 3 of [saveDailyCheck] (lines 791-830): the record of the
    day is rewritten and its duplicates deleted, or a record is added; the
    flag is [isUpdate]. *)
Definition storeDailyCheck (E : Env) (formData : CheckForm) (db : Db) : Db * bool :=
  let targetDay := cfDate formData in
  let ts := startOfDay E targetDay + 12 * msPerHour in
  let start := startOfDay E targetDay in
  let end' := endOfDay E targetDay in
  let existingRecords := checksBetween (checks (ledger db)) start end' true in
  match existingRecords with
  | primary :: redundant =>
      let rows1 := updateCheck (checks (ledger db)) (CheckEntry.id primary) ts
                     (cfIsDryDay formData) true (cfWeight formData) in
      let rows2 := match redundant with
                   | _ :: _ => bulkDeleteChecks rows1 (map CheckEntry.id redundant)
                   | [] => rows1
                   end in
      (withLedger db (withChecks (ledger db) rows2), true)
  | [] => (addCheck db ts (cfIsDryDay formData) true (cfWeight formData), false)
  end.

(** [saveDailyCheck] (lines 789-854).  [checkShareText] is the text
    [Calc.generateShareText] gives for a dry day; the profile of [E] is the
    one [Store.getProfile] returns during the recalculation, that is after
    the WEIGHT entry is written. *)
Definition saveDailyCheck (E : Env) (checkShareText : string) (now : Z)
    (formData : CheckForm) (db : Db) : Db * CheckReport :=
  let ts := startOfDay E (cfDate formData) + 12 * msPerHour in
  let '(db1, isUpdate) := storeDailyCheck E formData db in
  let db2 :=
    match cfWeight formData with
    | Some 0 | None => db1
    | Some w => mkDb (ledger db1) (checksKeyGen db1) (Some w)
    end in
  let db3 := withLedger db2 (fst (recalcImpactedHistory E now ts (ledger db2))) in
  (db3,
   mkCheckReport true isUpdate (cfIsDryDay formData)
     (if cfIsDryDay formData then Some checkShareText else None)).

(** ** Removing logs: [deleteLog], [bulkDeleteLogs] *)

(** [db.logs.get(id)]. *)
Definition getLog (rows : list LogEntry.t) (id : Z) : option LogEntry.t :=
  List.find (fun l => LogEntry.id l =? id) rows.

(** [db.logs.bulkDelete(ids)]; [db.logs.delete(id)] is the case of one id. *)
Definition bulkDeleteRows (rows : list LogEntry.t) (ids : list Z) : list LogEntry.t :=
  List.filter (fun l => negb (existsb (Z.eqb (LogEntry.id l)) ids)) rows.

Definition withLogs (st : State) (rows : list LogEntry.t) : State :=
  mkState rows (logsKeyGen st) (checks st) (period_archives st)
          (archivesKeyGen st) (localStorage st).

(** [deleteLog] (lines 742-755): [None] is the Error thrown for a missing
    log, otherwise the ledger left and the timestamp reported. *)
Definition deleteLog (E : Env) (now logId : Z) (st : State) : option (State * Z) :=
  match getLog (logs st) logId with
  | None => None
  | Some log =>
      let ts := LogEntry.timestamp log in
      let st1 := withLogs st (bulkDeleteRows (logs st) [logId]) in
      Some (fst (recalcImpactedHistory E now ts st1), ts)
  end.

(** What [bulkDeleteLogs] reports. *)
Record BulkReport := mkBulkReport {
  brSuccess : bool;
  brCount : Z;
  brOldestTs : option Z
}.

(** One turn of [for (const id of ids)] at line 767. *)
Definition oldestStep (rows : list LogEntry.t) (oldestTs id : Z) : Z :=
  match getLog rows id with
  | Some log => if LogEntry.timestamp log <? oldestTs then LogEntry.timestamp log
                else oldestTs
  | None => oldestTs
  end.

(** [bulkDeleteLogs] (lines 762-782). *)
Definition bulkDeleteLogs (E : Env) (now : Z) (ids : list Z) (st : State)
  : State * BulkReport :=
  match ids with
  | [] => (st, mkBulkReport false 0 None)
  | _ :: _ =>
      let oldestTs := fold_left (oldestStep (logs st)) ids now in
      let st1 := withLogs st (bulkDeleteRows (logs st) ids) in
      (fst (recalcImpactedHistory E now oldestTs st1),
       mkBulkReport true (Z.of_nat (length ids)) (Some oldestTs))
  end.

(** ** Recording a beer: [saveBeerLog] *)

(** The fields of the form the engine reads: [bdSize] is the size key as
    [parseInt] reads it, [bdDry] is [data.type === 'dry']. *)
Record BeerData := mkBeerData {
  bdTimestamp : Z;
  bdStyle : string;
  bdSize : option Z;
  bdMl : Z;
  bdAbv : Z;
  bdCarb : option Z;
  bdCount : option Z;
  bdIsCustom : bool;
  bdDry : bool;
  bdMemo : option string;
  bdBrewery : string;
  bdBrand : string;
  bdUseUntappd : bool
}.

(** The formatting collaborators of the save paths: [Calc.generateShareText]
    on a log and the balance, and [encodeURIComponent]. *)
Record Texts := mkTexts {
  generateShareText : LogEntry.t -> Z -> string;
  encodeURIComponent : string -> string
}.

(** What [saveBeerLog] reports besides the constant [success];
    [brShareText] is the text of [shareAction]. *)
Record BeerReport := mkBeerReport {
  brIsUpdate : bool;
  brKcal : Z;
  dryDayCanceled : bool;
  brShareText : string;
  untappdUrl : option string
}.

(** Template rendering of an integer. *)
Definition showZ (n : Z) : string :=
  if n <? 0 then ("-" ++ decimal (- n))%string else decimal n.

(** Lines 581-583: the display name of the beer. *)
Definition beerName (data : BeerData) (count : Z) : string :=
  let suffix := if count =? 1 then ""%string else (" x" ++ showZ count)%string in
  if bdIsCustom data then
    if bdDry data then "蒸留酒 (糖質ゼロ)"%string else "醸造酒/カクテル"%string
  else (bdStyle data ++ suffix)%string.

(** [db.logs.update(id, logData)]: the keys of [logData] are overwritten,
    [exerciseKey] and [minutes] are not among them. *)
Definition updateBeerRow (rows : list LogEntry.t) (id : Z) (logData : LogEntry.t)
  : list LogEntry.t :=
  map (fun r =>
         if LogEntry.id r =? id
         then LogEntry.mk (LogEntry.id r) (LogEntry.timestamp logData) beer
                (LogEntry.kcal logData) (LogEntry.name logData)
                (LogEntry.exerciseKey r) (LogEntry.minutes r)
                (LogEntry.memo logData) (LogEntry.size logData)
                (LogEntry.abv logData) (LogEntry.style logData)
                (LogEntry.count logData)
         else r)
      rows.

(** [db.logs.add(row)]. *)
Definition addLog (st : State) (row : LogEntry.t) : State :=
  mkState (logs st ++ [LogEntry.withId row (logsKeyGen st)]) (logsKeyGen st + 1)
          (checks st) (period_archives st) (archivesKeyGen st) (localStorage st).

(** Lines 616-639 of [saveBeerLog]: the checks of the calendar day named
    by the virtual date of the beer; the first loses its dry-day flag, the
    others are deleted.  The flag is [dryDayCanceled]. *)
Definition cancelDryDay (E : Env) (timestamp : Z) (rows : list CheckEntry.t)
  : list CheckEntry.t * bool :=
  let vDateStr := getVirtualDate E timestamp in
  let vDay := parseDay E vDateStr in
  let start := startOfDay E vDay in
  let end' := endOfDay E vDay in
  let existingChecks := checksBetween rows start end' true in
  match existingChecks with
  | primaryCheck :: redundant =>
      let '(rows1, canceled) :=
        if CheckEntry.isDryDay primaryCheck
        then (clearDryDay rows (CheckEntry.id primaryCheck), true)
        else (rows, false) in
      (match redundant with
       | _ :: _ => bulkDeleteChecks rows1 (map CheckEntry.id redundant)
       | [] => rows1
       end, canceled)
  | [] => (rows, false)
  end.

(** Lines 575-579: the debit of the beer. *)
Definition beerKcal (E : Env) (data : BeerData) : Z :=
  let count := default 1 (bdCount data) in
  let abv := bdAbv data in
  let ml := bdMl data in
  let carb :=
    match bdCarb data with
    | Some c => c
    | None =>
        if bdIsCustom data then (if bdDry data then 0 else 3000)
        else default 3000 (STYLE_SPECS E (bdStyle data))
    end in
  calculateBeerDebit E ml abv carb count.

(** Lines 585-601: [logData], a row without a key. *)
Definition beerLogData (E : Env) (data : BeerData) : LogEntry.t :=
  let count := default 1 (bdCount data) in
  LogEntry.mk 0 (bdTimestamp data) beer (Some (beerKcal E data))
    (beerName data count) ""%string 0 (bdMemo data)
    (if bdIsCustom data then None else bdSize data) (Some (bdAbv data))
    (if bdIsCustom data then "Custom"%string else bdStyle data) (Some count).

(** [saveBeerLog] (lines 568-663); [id] is the key [parseInt] reads when
    one is given. *)
Definition saveBeerLog (E : Env) (T : Texts) (now : Z) (data : BeerData)
    (id : option Z) (db : Db) : Db * BeerReport :=
  let kcal := beerKcal E data in
  let logData := beerLogData E data in
  let st1 :=
    match id with
    | Some i => withLogs (ledger db) (updateBeerRow (logs (ledger db)) i logData)
    | None => addLog (ledger db) logData
    end in
  let url :=
    if bdUseUntappd data
       && negb (String.eqb (bdBrewery data) ""%string)
       && negb (String.eqb (bdBrand data) ""%string)
    then
      let query := encodeURIComponent T (bdBrewery data ++ " " ++ bdBrand data)%string in
      Some ("https://untappd.com/search?q=" ++ query)%string
    else None in
  let '(rows2, canceled) := cancelDryDay E (bdTimestamp data) (checks st1) in
  let st2 := withChecks st1 rows2 in
  let balance := adBalance (getAppDataSnapshot E st2) in
  let shareText := generateShareText T logData balance in
  let st3 := fst (recalcImpactedHistory E now (bdTimestamp data) st2) in
  (withLedger db st3,
   mkBeerReport (match id with Some _ => true | None => false end) kcal canceled
     shareText url).

(** ** Recording an exercise: [saveExerciseLog] *)

(** [dateVal]: a number is taken as the instant, anything else is read as
    a date by dayjs ([DateOf] holds the instant read). *)
Inductive DateVal :=
| Instant (ts : Z)
| DateOf (d : Z).

(** What the save path reads besides [Env]: the label of a known exercise
    ([EXERCISE[key].label]) and [Calc.getCurrentStreak]. *)
Record ExerciseInfo := mkExerciseInfo {
  exerciseLabel : string -> string;
  getCurrentStreak : list LogEntry.t -> list CheckEntry.t -> Profile -> Z -> Z
}.

(** What [saveExerciseLog] reports besides the constant [success];
    [erShareText] is the text of [shareAction], when there is one. *)
Record ExerciseReport := mkExerciseReport {
  erIsUpdate : bool;
  erKcal : Z;
  erBonusMultiplier : Z;
  erShareText : option string
}.

(** [db.logs.update(id, logData)] for an exercise: the beer inputs of the
    row are not among the keys written. *)
Definition updateExerciseRow (rows : list LogEntry.t) (id : Z) (logData : LogEntry.t)
  : list LogEntry.t :=
  map (fun r =>
         if LogEntry.id r =? id
         then LogEntry.mk (LogEntry.id r) (LogEntry.timestamp logData) exercise
                (LogEntry.kcal logData) (LogEntry.name logData)
                (LogEntry.exerciseKey logData) (LogEntry.minutes logData)
                (LogEntry.memo logData) (LogEntry.size r) (LogEntry.abv r)
                (LogEntry.style r) (LogEntry.count r)
         else r)
      rows.

(** Line 675-680: the instant the log is filed under. *)
Definition exerciseTimestamp (E : Env) (dateVal : DateVal) : Z :=
  match dateVal with
  | Instant ts => ts
  | DateOf d => startOfDay E d + 12 * msPerHour
  end.

(** [saveExerciseLog] (lines 665-736). *)
Definition saveExerciseLog (E : Env) (T : Texts) (X : ExerciseInfo) (now : Z)
    (exerciseKey : string) (minutes : Z) (dateVal : DateVal) (applyBonus : bool)
    (id : option Z) (db : Db) : Db * ExerciseReport :=
  let profile := getProfile E in
  let mets := match EXERCISE E exerciseKey with
              | Some m => m
              | None => 3000
              end in
  let baseBurnKcal := calculateExerciseBurn E mets minutes profile in
  let ts := exerciseTimestamp E dateVal in
  let '(finalKcal, memo, bonusMultiplier) :=
    if applyBonus then
      let streak := getCurrentStreak X (logs (ledger db)) (checks (ledger db)) profile ts in
      let creditInfo := calculateExerciseCredit E baseBurnKcal streak in
      (creditKcal creditInfo,
       if bonusMultiplier creditInfo >? 1000 then bonusMarker creditInfo else ""%string,
       bonusMultiplier creditInfo)
    else (baseBurnKcal, ""%string, 1000) in
  let label := match EXERCISE E exerciseKey with
               | Some _ => exerciseLabel X exerciseKey
               | None => "運動"%string
               end in
  let logData :=
    LogEntry.mk 0 ts exercise (Some finalKcal) label exerciseKey minutes (Some memo)
                None None ""%string None in
  let '(st1, shareText) :=
    match id with
    | Some i =>
        (withLogs (ledger db) (updateExerciseRow (logs (ledger db)) i logData), None)
    | None =>
        let st := addLog (ledger db) logData in
        let balance := adBalance (getAppDataSnapshot E st) in
        (st, Some (generateShareText T logData balance))
    end in
  let st2 := fst (recalcImpactedHistory E now ts st1) in
  (withLedger db st2,
   mkExerciseReport (match id with Some _ => true | None => false end) finalKcal
     bonusMultiplier shareText).

(** ** Shortcuts of the record tab: [getRecentExercises] *)





(** ** Shortcuts of the record tab: [getFrequentExercises] *)











(** ** Example data for the operations above *)

Definition emptyDb : Db := mkDb emptyLedger 1 None.

Definition sampleDb : Db := mkDb sampleLedger 2 None.

(** No two rows of [db.checks] share a key, and the generator is ahead of
    all of them. *)
Definition checkKeysFresh (db : Db) : Prop :=
  NoDup (map CheckEntry.id (checks (ledger db)))
  /\ Forall (fun c => CheckEntry.id c < checksKeyGen db) (checks (ledger db)).

(** The same for [db.logs]. *)
Definition logKeysFresh (st : State) : Prop :=
  NoDup (map LogEntry.id (logs st))
  /\ Forall (fun l => LogEntry.id l < logsKeyGen st) (logs st).

(** The local time of day of an instant, in ms. *)
Definition timeOfDay (E : Env) (ts : Z) : Z := (ts + tzOffset E) mod msPerDay.

(** The calendar dates of a list of checks, each once, in the order of
    their first record. *)
Fixpoint firstDates (E : Env) (cs : list CheckEntry.t) (seen : list Z) : list Z :=
  match cs with
  | [] => []
  | c :: rest =>
      let d := formatDay E (CheckEntry.timestamp c) in
      if existsb (Z.eqb d) seen then firstDates E rest seen
      else d :: firstDates E rest (d :: seen)
  end.

(** The records of one calendar date. *)
Definition checksOn (E : Env) (d : Z) (cs : list CheckEntry.t) : list CheckEntry.t :=
  List.filter (fun c => formatDay E (CheckEntry.timestamp c) =? d) cs.

(** Each element is related to all the later ones. *)
Fixpoint sortedBy (R : Z -> Z -> Prop) (l : list Z) : Prop :=
  match l with
  | [] => True
  | x :: rest => Forall (R x) rest /\ sortedBy R rest
  end.

(** The live logs of the current period, in table order. *)
Definition periodRows (st : State) : list LogEntry.t :=
  if Mode_eqb (default weekly (PERIOD_MODE (localStorage st))) permanent
  then logs st
  else List.filter
         (fun l => orDefault (PERIOD_START (localStorage st)) 0 <=? LogEntry.timestamp l)
         (logs st).

(** The [n] consecutive days from [d] on. *)
Definition daysFrom (d : Z) (n : nat) : list Z :=
  map (fun i => d + Z.of_nat i) (seq 0 n).

(** The record [saveDailyCheck] stores for a form, under key [id]. *)
Definition savedCheck (E : Env) (formData : CheckForm) (id : Z) : CheckEntry.t :=
  CheckEntry.mk id (startOfDay E (cfDate formData) + 12 * msPerHour)
                (cfIsDryDay formData) true (cfWeight formData).

(** A form and a ledger with two records of the day of the form. *)
Definition dryDayForm : CheckForm := mkCheckForm (9 * msPerHour) true (Some 61500).

Definition doubleCheckDb : Db :=
  mkDb (mkState [beerLog; runLog; walkLog] 4 sameDateChecks [] 1
          (mkLocalStorage (Some weekly) (Some (-3 * msPerDay)) None None))
       5 None.

(** Example data for [saveBeerLog]: a pint logged at 01:00 on day 1, which
    the boundary puts on virtual day 0, the day of [sameDateChecks]. *)
Definition sampleTexts : Texts :=
  mkTexts (fun l bal => LogEntry.name l) (fun s => s).

Definition latePint : BeerData :=
  mkBeerData (1 * msPerDay + 1 * msPerHour) "Stout"%string (Some 500) 500 5000
             None (Some 2) false false None "Brewery"%string "Brand"%string true.


(** A custom period from day 2 to day 9. *)
Definition sampleCustomData : CustomData :=
  mkCustomData (Some (2 * msPerDay + 7 * msPerHour)) (Some (9 * msPerDay + msPerHour))
               (Some "Dry fortnight"%string).


(** Example data for [saveExerciseLog]: no label table, and the streak read
    at save time is always 2. *)
Definition sampleExerciseInfo : ExerciseInfo :=
  mkExerciseInfo (fun k => k) (fun _ _ _ _ => 2).

(** Keys are unique in [db.logs] and [db.period_archives], and both key
    generators are ahead of the keys handed out. *)
Definition keysFresh (st : State) : Prop :=
  logKeysFresh st
  /\ NoDup (map PeriodArchive.id (period_archives st))
  /\ Forall (fun a => PeriodArchive.id a < archivesKeyGen st) (period_archives st).

(** * Properties *)

(** ** Tables and index queries *)

Lemma In_insertOn {A : Type} (key : A -> Z) (x y : A) (l : list A) :
  In y (insertOn key x l) <-> y = x \/ In y l.
Proof.
  induction l as [|z l IH]; simpl.
  - intuition.
  - destruct (key x <=? key z); simpl; [intuition|]. rewrite IH. intuition.
Qed.

Lemma In_sortOn {A : Type} (key : A -> Z) (y : A) (l : list A) :
  In y (sortOn key l) <-> In y l.
Proof.
  induction l as [|x l IH]; simpl; [tauto|].
  rewrite In_insertOn, IH. intuition.
Qed.

Lemma updateArchive_consistent (rows : list PeriodArchive.t) (id : Z)
    (ls : list LogEntry.t) (now : Z) :
  Forall archiveConsistent rows ->
  Forall archiveConsistent (updateArchive rows id (sumKcal ls) ls now).
Proof.
  unfold updateArchive. intros H. apply List.Forall_forall. intros a Ha.
  apply in_map_iff in Ha as [r [<- Hr]].
  destruct (PeriodArchive.id r =? id).
  - reflexivity.
  - rewrite List.Forall_forall in H. now apply H.
Qed.

Lemma refreshArchive_fold_consistent (now : Z) (rows : list LogEntry.t)
    (affected : list PeriodArchive.t) :
  forall acc,
    Forall archiveConsistent (fst acc) ->
    Forall archiveConsistent (fst (fold_left (refreshArchive now rows) affected acc)).
Proof.
  induction affected as [|a affected IH]; intros acc Hacc; [exact Hacc|].
  cbn [fold_left]. apply IH. unfold refreshArchive. cbn [fst].
  now apply updateArchive_consistent.
Qed.

(** ** Duplicate resolution *)

Lemma dedup_fold_same_day (E : Env) (d : Z) (rest : list CheckEntry.t) :
  forall r : CheckEntry.t,
    Forall (fun c => formatDay E (CheckEntry.timestamp c) = d) rest ->
    fold_left (dedupStep E) rest [(d, r)]
    = [(d, if CheckEntry.isSaved r then r
           else match List.find CheckEntry.isSaved rest with
                | Some s => s
                | None => r
                end)].
Proof.
  induction rest as [|c rest IH]; intros r Hall.
  - simpl. now destruct (CheckEntry.isSaved r).
  - inversion Hall as [|? ? Hc Hrest]; subst.
    cbn [fold_left]. unfold dedupStep at 2. cbn [accLookup].
    rewrite Z.eqb_refl.
    destruct (CheckEntry.isSaved r) eqn:Hr; cbn [negb andb].
    + rewrite IH by assumption. now rewrite Hr.
    + destruct (CheckEntry.isSaved c) eqn:Hs.
      * cbn [accStore]. rewrite Z.eqb_refl.
        rewrite IH by assumption. rewrite Hs. cbn [List.find]. now rewrite Hs.
      * rewrite IH by assumption. rewrite Hr. cbn [List.find]. now rewrite Hs.
Qed.

Lemma dayWinner_In (cs : list CheckEntry.t) (r : CheckEntry.t) :
  dayWinner cs = Some r -> In r cs.
Proof.
  unfold dayWinner. destruct (List.find CheckEntry.isSaved cs) eqn:Hf.
  - intros [= <-]. now apply find_some in Hf.
  - destruct cs; [discriminate|]. intros [= <-]. now left.
Qed.

Lemma dayWinner_saved (cs : list CheckEntry.t) (r : CheckEntry.t) :
  dayWinner cs = Some r ->
  existsb CheckEntry.isSaved cs = true -> CheckEntry.isSaved r = true.
Proof.
  unfold dayWinner. destruct (List.find CheckEntry.isSaved cs) eqn:Hf.
  - intros [= <-] _. now apply find_some in Hf.
  - intros _ Hex. apply existsb_exists in Hex as [x [Hin Hx]].
    eapply find_none in Hf; [|exact Hin]. congruence.
Qed.

(** The calendar date and the virtual day of an instant agree exactly when
    its local time of day is at or after the boundary. *)
Lemma virtual_day_is_calendar_day (E : Env) (ts : Z) :
  dayBoundaryHour * msPerHour <= (ts + tzOffset E) mod msPerDay ->
  getVirtualDate E ts = formatDay E ts.
Proof.
  unfold getVirtualDate, formatDay, dayBoundaryHour, msPerHour, msPerDay.
  intros H.
  pose proof (Z.mod_pos_bound (ts + tzOffset E) 86400000 ltac:(lia)) as Hb.
  pose proof (Z.div_mod (ts + tzOffset E) 86400000 ltac:(lia)) as Hd.
  symmetry. apply Z.div_unique with (r := (ts + tzOffset E) mod 86400000 - 4 * 3600000); lia.
Qed.

Lemma virtual_day_before_boundary (E : Env) (ts : Z) :
  (ts + tzOffset E) mod msPerDay < dayBoundaryHour * msPerHour ->
  getVirtualDate E ts = formatDay E ts - 1.
Proof.
  unfold getVirtualDate, formatDay, dayBoundaryHour, msPerHour, msPerDay.
  intros H.
  pose proof (Z.mod_pos_bound (ts + tzOffset E) 86400000 ltac:(lia)) as Hb.
  pose proof (Z.div_mod (ts + tzOffset E) 86400000 ltac:(lia)) as Hd.
  symmetry.
  apply Z.div_unique with (r := (ts + tzOffset E) mod 86400000 + 86400000 - 4 * 3600000); lia.
Qed.

(** C6 (as amended).  [_deduplicateChecks] keys on the calendar date of the
    timestamp: any non-empty collection of check records sharing one
    calendar date collapses to exactly one record, taken from the input; it
    is saved as soon as one input is saved, and it is the first saved record
    met, or the first record when none is saved. *)
Theorem dedup_one_calendar_day (E : Env) (d : Z) (rawChecks : list CheckEntry.t) :
  rawChecks <> [] ->
  Forall (fun c => formatDay E (CheckEntry.timestamp c) = d) rawChecks ->
  exists r,
    _deduplicateChecks E rawChecks = [r]
    /\ dayWinner rawChecks = Some r
    /\ In r rawChecks
    /\ (existsb CheckEntry.isSaved rawChecks = true -> CheckEntry.isSaved r = true).
Proof.
  intros Hne Hall. destruct rawChecks as [|c rest]; [congruence|].
  inversion Hall as [|? ? Hc Hrest]; subst.
  assert (Hw : exists r, _deduplicateChecks E (c :: rest) = [r]
                         /\ dayWinner (c :: rest) = Some r).
  { unfold _deduplicateChecks. cbn [fold_left]. unfold dedupStep at 2.
    cbn [accLookup accStore].
    rewrite dedup_fold_same_day by assumption.
    unfold dayWinner. cbn [List.find map snd List.head].
    destruct (CheckEntry.isSaved c); [eauto|].
    destruct (List.find CheckEntry.isSaved rest); eauto. }
  destruct Hw as [r [Hd Hw]]. exists r.
  split; [exact Hd|]. split; [exact Hw|].
  split; [eapply dayWinner_In | eapply dayWinner_saved]; eassumption.
Qed.

Lemma dedup_one_calendar_day_witness :
  exists r,
    _deduplicateChecks sampleEnv sameDateChecks = [r]
    /\ dayWinner sameDateChecks = Some r
    /\ In r sameDateChecks
    /\ (existsb CheckEntry.isSaved sameDateChecks = true
        -> CheckEntry.isSaved r = true).
Proof.
  apply (dedup_one_calendar_day sampleEnv 0 sameDateChecks).
  - discriminate.
  - repeat constructor.
Defined.

(** C6, the claim as stated fails: the two records [noonCheck] and
    [lateNightPlaceholder] share the virtual day 1970-01-01 and
    [_deduplicateChecks] returns both, because their calendar dates
    differ. *)
Lemma dedup_virtual_day_counterexample :
  ~ (forall (E : Env) (d : Z) (rawChecks : list CheckEntry.t),
        rawChecks <> [] ->
        Forall (fun c => getVirtualDate E (CheckEntry.timestamp c) = d) rawChecks ->
        length (_deduplicateChecks E rawChecks) = 1%nat).
Proof.
  intros H.
  specialize (H sampleEnv 0 [noonCheck; lateNightPlaceholder]).
  assert (Hlen : length (_deduplicateChecks sampleEnv [noonCheck; lateNightPlaceholder])
                 = 2%nat) by (vm_compute; reflexivity).
  rewrite Hlen in H.
  assert (2%nat = 1%nat); [|discriminate].
  apply H; [discriminate|].
  repeat constructor.
Qed.

(** Records that share a virtual day and are all stamped at or after
    4 AM local time (the noon-anchored records of [saveDailyCheck] are)
    share a calendar date, so the statement above applies to them. *)
Lemma shared_virtual_day_after_boundary (E : Env) (d : Z)
    (rawChecks : list CheckEntry.t) :
  Forall (fun c => getVirtualDate E (CheckEntry.timestamp c) = d
                   /\ dayBoundaryHour * msPerHour
                      <= (CheckEntry.timestamp c + tzOffset E) mod msPerDay)
         rawChecks ->
  Forall (fun c => formatDay E (CheckEntry.timestamp c) = d) rawChecks.
Proof.
  intros Hall. apply List.Forall_forall. intros c Hc.
  rewrite List.Forall_forall in Hall. destruct (Hall c Hc) as [Hv Hb].
  now rewrite <- virtual_day_is_calendar_day.
Qed.

(** ** Rollover *)

(** C10, the claim as stated fails: in PERMANENT mode with no stored
    period start, [checkPeriodRollover] returns before the initialisation
    and leaves the entry missing. *)
Lemma rollover_permanent_counterexample :
  ~ (forall (E : Env) (now : Z) (st : State),
        noPeriodStart st ->
        fst (checkPeriodRollover E now st) = false
        /\ PERIOD_START (localStorage (snd (checkPeriodRollover E now st)))
           = Some (calculatePeriodStart E now (currentMode E st))).
Proof.
  intros H.
  specialize (H sampleEnv 0
                (withLocalStorage emptyLedger (setPeriodMode emptyStorage permanent))).
  destruct H as [_ H]; [now left|].
  vm_compute in H. discriminate.
Qed.

(** C10 (as amended).  In every mode but PERMANENT, when no period start
    is stored (missing, unparsable or zero), [checkPeriodRollover] stores
    the boundary computed for the current mode, reports no rollover, and
    touches neither the archives nor the logs.  In PERMANENT mode it
    reports no rollover and writes nothing. *)
Theorem rollover_initialises_period_start (E : Env) (now : Z) (st : State) :
  noPeriodStart st ->
  (currentMode E st <> permanent ->
   checkPeriodRollover E now st
   = (false,
      withLocalStorage st
        (setPeriodStart (localStorage st)
           (calculatePeriodStart E now (currentMode E st)))))
  /\ (currentMode E st = permanent -> checkPeriodRollover E now st = (false, st)).
Proof.
  intros Hno. unfold checkPeriodRollover. fold (currentMode E st).
  assert (Hz : (orDefault (PERIOD_START (localStorage st)) 0 =? 0) = true).
  { destruct Hno as [-> | ->]; reflexivity. }
  split; intros Hm.
  - destruct (currentMode E st); cbn [Mode_eqb]; try congruence; now rewrite Hz.
  - now rewrite Hm.
Qed.

Lemma rollover_initialises_period_start_witness :
  (currentMode sampleEnv emptyLedger <> permanent ->
   checkPeriodRollover sampleEnv (10 * msPerDay) emptyLedger
   = (false,
      withLocalStorage emptyLedger
        (setPeriodStart (localStorage emptyLedger)
           (calculatePeriodStart sampleEnv (10 * msPerDay)
              (currentMode sampleEnv emptyLedger)))))
  /\ (currentMode sampleEnv emptyLedger = permanent ->
      checkPeriodRollover sampleEnv (10 * msPerDay) emptyLedger = (false, emptyLedger)).
Proof.
  apply (rollover_initialises_period_start sampleEnv (10 * msPerDay) emptyLedger).
  left. reflexivity.
Defined.

(** ** Archive totals *)

Lemma recalc_archives (E : Env) (now t : Z) (st : State) :
  period_archives (fst (recalcImpactedHistory E now t st))
  = fst (fold_left
           (refreshArchive now
              (dbLogs (walk E (buildSnapshot E now (logs st) (checks st))
                            (endOfDay E now) walkFuel
                            (startOfDay E (parseDay E (getVirtualDate E t)))
                            (mkWalk (logs st)
                                    (logMap (buildSnapshot E now (logs st) (checks st)))
                                    0 0 [] []))))
           (archivesEndingFrom (period_archives st) t)
           (period_archives st,
            written (walk E (buildSnapshot E now (logs st) (checks st))
                          (endOfDay E now) walkFuel
                          (startOfDay E (parseDay E (getVirtualDate E t)))
                          (mkWalk (logs st)
                                  (logMap (buildSnapshot E now (logs st) (checks st)))
                                  0 0 [] [])))).
Proof.
  unfold recalcImpactedHistory.
  now destruct (fold_left _ _ _).
Qed.

Lemma archiveAndReset_archives (now currentStart nextStart : Z) (mode : Mode)
    (st : State) :
  period_archives (archiveAndReset now currentStart nextStart mode st)
  = match logsBelow (logs st) nextStart,
          List.find (fun a => PeriodArchive.startDate a =? currentStart)
                    (period_archives st) with
    | _ :: _, None =>
        period_archives st
          ++ [PeriodArchive.mk (archivesKeyGen st) currentStart (nextStart - 1) mode
                (sumKcal (logsBelow (logs st) nextStart))
                (logsBelow (logs st) nextStart) now None]
    | _, _ => period_archives st
    end.
Proof.
  unfold archiveAndReset.
  destruct (logsBelow (logs st) nextStart); [reflexivity|].
  now destruct (List.find _ _).
Qed.

(** C2.  The archive invariant [totalBalance = sum of kcal over logs] is
    kept by [recalcImpactedHistory] and by [archiveAndReset]: a ledger
    whose archives all satisfy it (the empty ledger does) still has it
    after either operation, for every archive. *)
Theorem archive_total_invariant (E : Env) (now t currentStart nextStart : Z)
    (mode : Mode) (st : State) :
  archivesConsistent st ->
  archivesConsistent (fst (recalcImpactedHistory E now t st))
  /\ archivesConsistent (archiveAndReset now currentStart nextStart mode st).
Proof.
  unfold archivesConsistent. intros Hinv. split.
  - rewrite recalc_archives. now apply refreshArchive_fold_consistent.
  - rewrite archiveAndReset_archives.
    destruct (logsBelow (logs st) nextStart); [exact Hinv|].
    destruct (List.find _ _); [exact Hinv|].
    apply Forall_app. split; [exact Hinv|].
    constructor; [reflexivity|constructor].
Qed.

Lemma archive_total_invariant_witness :
  archivesConsistent
    (fst (recalcImpactedHistory sampleEnv (11 * msPerDay) (2 * msPerDay) sealedLedger))
  /\ archivesConsistent
       (archiveAndReset (11 * msPerDay) (4 * msPerDay) (11 * msPerDay) weekly sealedLedger).
Proof.
  apply (archive_total_invariant sampleEnv (11 * msPerDay) (2 * msPerDay)
           (4 * msPerDay) (11 * msPerDay) weekly sealedLedger).
  vm_compute. repeat constructor.
Defined.

Lemma refreshArchive_fold_selected (now t : Z) (rows : list LogEntry.t)
    (affected : list PeriodArchive.t) :
  forall acc : list PeriodArchive.t * list Write,
    (forall a, In a (fst acc) -> t <= PeriodArchive.endDate a ->
               archiveConsistent a
               \/ In (PeriodArchive.id a) (map PeriodArchive.id affected)) ->
    forall a, In a (fst (fold_left (refreshArchive now rows) affected acc)) ->
              t <= PeriodArchive.endDate a -> archiveConsistent a.
Proof.
  induction affected as [|x affected IH]; intros acc Hacc a Ha Ht.
  - destruct (Hacc a Ha Ht) as [H|[]]. exact H.
  - cbn [fold_left] in Ha. eapply IH; [|exact Ha|exact Ht].
    intros b Hb Hbt. unfold refreshArchive in Hb. cbn [fst] in Hb.
    unfold updateArchive in Hb. apply in_map_iff in Hb as [r [Hr Hin]].
    destruct (PeriodArchive.id r =? PeriodArchive.id x) eqn:Hid.
    + left. subst b. unfold archiveConsistent.
      cbn [PeriodArchive.refresh PeriodArchive.totalBalance PeriodArchive.logs].
      reflexivity.
    + subst b. destruct (Hacc r Hin Hbt) as [H|H]; [now left|].
      right. cbn [map] in H. destruct H as [H|H]; [|exact H].
      apply Z.eqb_neq in Hid. congruence.
Qed.

(** Whatever the ledger held before, every archive the run selects
    ([endDate >= changedTimestamp]) leaves it with a matching total. *)
Lemma recalc_refreshed_archives_consistent (E : Env) (now t : Z) (st : State) :
  forall a,
    In a (period_archives (fst (recalcImpactedHistory E now t st))) ->
    t <= PeriodArchive.endDate a -> archiveConsistent a.
Proof.
  rewrite recalc_archives. intros a Ha Ht.
  eapply refreshArchive_fold_selected; [|exact Ha|exact Ht].
  intros b Hb Hbt. right.
  apply in_map. unfold archivesEndingFrom. apply In_sortOn.
  apply filter_In. split; [exact Hb|]. now apply Z.leb_le.
Qed.

(** ** Rollover non-duplication *)

Lemma find_startDate_None (currentStart : Z) (rows : list PeriodArchive.t) :
  List.find (fun a => PeriodArchive.startDate a =? currentStart) rows = None ->
  ~ In currentStart (map PeriodArchive.startDate rows).
Proof.
  intros Hf Hin. apply in_map_iff in Hin as [a [Ha Hin]].
  eapply find_none in Hf; [|exact Hin]. cbn in Hf.
  rewrite Ha, Z.eqb_refl in Hf. discriminate.
Qed.

Lemma find_app_new (currentStart : Z) (rows : list PeriodArchive.t)
    (a : PeriodArchive.t) :
  PeriodArchive.startDate a = currentStart ->
  List.find (fun a => PeriodArchive.startDate a =? currentStart) (rows ++ [a]) <> None.
Proof.
  intros Ha. induction rows as [|r rows IH]; cbn [List.find app].
  - rewrite Ha, Z.eqb_refl. discriminate.
  - destruct (PeriodArchive.startDate r =? currentStart); [discriminate|exact IH].
Qed.

Lemma archiveAndReset_cases (now currentStart nextStart : Z) (mode : Mode)
    (st : State) :
  archiveAndReset now currentStart nextStart mode st
  = match logsBelow (logs st) nextStart,
          List.find (fun a => PeriodArchive.startDate a =? currentStart)
                    (period_archives st) with
    | _ :: _, None =>
        mkState (logs st) (logsKeyGen st) (checks st)
          (period_archives st
             ++ [PeriodArchive.mk (archivesKeyGen st) currentStart (nextStart - 1) mode
                   (sumKcal (logsBelow (logs st) nextStart))
                   (logsBelow (logs st) nextStart) now None])
          (archivesKeyGen st + 1)
          (setPeriodStart (localStorage st) nextStart)
    | _, _ => withLocalStorage st (setPeriodStart (localStorage st) nextStart)
    end.
Proof.
  unfold archiveAndReset.
  destruct (logsBelow (logs st) nextStart); [reflexivity|].
  now destruct (List.find _ _).
Qed.

Lemma archiveAndReset_twice (now now' currentStart nextStart : Z) (mode : Mode)
    (st : State) :
  archiveAndReset now' currentStart nextStart mode
    (archiveAndReset now currentStart nextStart mode st)
  = archiveAndReset now currentStart nextStart mode st.
Proof.
  rewrite (archiveAndReset_cases now).
  destruct (logsBelow (logs st) nextStart) as [|l ls] eqn:Hlogs.
  - rewrite archiveAndReset_cases. cbn [withLocalStorage logs]. now rewrite Hlogs.
  - destruct (List.find _ (period_archives st)) as [a|] eqn:Hfind.
    + rewrite archiveAndReset_cases.
      cbn [withLocalStorage logs period_archives]. now rewrite Hlogs, Hfind.
    + rewrite archiveAndReset_cases. cbn [logs period_archives].
      rewrite Hlogs.
      destruct (List.find _ (_ ++ _)) eqn:Hf2; [reflexivity|].
      exfalso. revert Hf2. now apply find_app_new.
Qed.

(** C7.  [archiveAndReset] keeps the start dates of the archives pairwise
    distinct, and a second call with the same arguments changes nothing:
    the ledger it leaves is the one the first call left, so no archive is
    added, no log is removed, and the stored period start is [nextStart]. *)
Theorem archiveAndReset_no_duplicate (now now' currentStart nextStart : Z)
    (mode : Mode) (st : State) :
  distinctStartDates st ->
  let st1 := archiveAndReset now currentStart nextStart mode st in
  let st2 := archiveAndReset now' currentStart nextStart mode st1 in
  distinctStartDates st1
  /\ st2 = st1
  /\ logs st1 = logs st
  /\ PERIOD_START (localStorage st2) = Some nextStart.
Proof.
  intros Hd st1 st2. subst st2 st1. rewrite archiveAndReset_twice.
  split; [|split; [reflexivity|split]].
  - unfold distinctStartDates in *. rewrite archiveAndReset_archives.
    destruct (logsBelow (logs st) nextStart); [exact Hd|].
    destruct (List.find _ _) eqn:Hf; [exact Hd|].
    rewrite map_app. cbn [map PeriodArchive.startDate].
    apply NoDup_app. split; [exact Hd|]. split.
    + intros x Hx Hx'. apply list_elem_of_In in Hx, Hx'.
      destruct Hx' as [<-|[]]. revert Hx. now apply find_startDate_None.
    + apply NoDup_singleton.
  - unfold archiveAndReset.
    destruct (logsBelow (logs st) nextStart); [reflexivity|].
    now destruct (List.find _ _).
  - unfold archiveAndReset.
    destruct (logsBelow (logs st) nextStart); [reflexivity|].
    now destruct (List.find _ _).
Qed.

Lemma archiveAndReset_no_duplicate_witness :
  let st1 := archiveAndReset (4 * msPerDay) (-3 * msPerDay) (4 * msPerDay) weekly sampleLedger in
  let st2 := archiveAndReset (5 * msPerDay) (-3 * msPerDay) (4 * msPerDay) weekly st1 in
  distinctStartDates st1
  /\ st2 = st1
  /\ logs st1 = logs sampleLedger
  /\ PERIOD_START (localStorage st2) = Some (4 * msPerDay).
Proof.
  apply (archiveAndReset_no_duplicate (4 * msPerDay) (5 * msPerDay) (-3 * msPerDay)
           (4 * msPerDay) weekly sampleLedger).
  vm_compute. constructor.
Defined.

(** ** Anchor date *)

Lemma formatDay_startOfDay (E : Env) (ts : Z) :
  formatDay E (startOfDay E ts) = formatDay E ts.
Proof.
  unfold formatDay, startOfDay, msPerDay.
  pose proof (Z.div_mod (ts + tzOffset E) 86400000 ltac:(lia)) as Hd.
  replace (ts - (ts + tzOffset E) mod 86400000 + tzOffset E)
    with (((ts + tzOffset E) / 86400000) * 86400000) by lia.
  now rewrite Z.div_mul by lia.
Qed.

Lemma scanLog_fold (E : Env) (allLogs : list LogEntry.t) :
  forall (lm : gmap Z DayAgg) (m : Z) (f : bool),
    fold_left (scanLog E) allLogs (lm, m, f)
    = (fold_left (addToLogMap E) allLogs lm,
       fold_left Z.min (map LogEntry.timestamp allLogs) m,
       match allLogs with [] => f | _ :: _ => true end).
Proof.
  induction allLogs as [|l ls IH]; intros lm m f; [reflexivity|].
  cbn [fold_left map]. unfold scanLog at 2. rewrite IH.
  replace (if LogEntry.timestamp l <? m then LogEntry.timestamp l else m)
    with (Z.min m (LogEntry.timestamp l))
    by (destruct (Z.ltb_spec (LogEntry.timestamp l) m); lia).
  now destruct ls.
Qed.

Lemma scanCheck_fold (E : Env) (allChecks : list CheckEntry.t) :
  forall (cm : gmap Z bool) (m : Z) (f : bool),
    fold_left (scanCheck E) allChecks (cm, m, f)
    = (fold_left (fun cm c => <[getVirtualDate E (CheckEntry.timestamp c)
                                  := CheckEntry.isDryDay c]> cm) allChecks cm,
       fold_left Z.min (map CheckEntry.timestamp allChecks) m,
       match allChecks with [] => f | _ :: _ => true end).
Proof.
  induction allChecks as [|c cs IH]; intros cm m f; [reflexivity|].
  cbn [fold_left map]. unfold scanCheck at 2. rewrite IH.
  replace (if CheckEntry.timestamp c <? m then CheckEntry.timestamp c else m)
    with (Z.min m (CheckEntry.timestamp c))
    by (destruct (Z.ltb_spec (CheckEntry.timestamp c) m); lia).
  now destruct cs.
Qed.

Lemma buildSnapshot_fields (E : Env) (now : Z) (allLogs : list LogEntry.t)
    (allChecks : list CheckEntry.t) :
  buildSnapshot E now allLogs allChecks
  = mkSnapshot
      (fold_left (addToLogMap E) allLogs ∅)
      (fold_left (fun cm c => <[getVirtualDate E (CheckEntry.timestamp c)
                                 := CheckEntry.isDryDay c]> cm) allChecks ∅)
      (match allLogs, allChecks with
       | [], [] => now
       | _, _ => startOfDay E (earliestTimestamp allLogs allChecks)
       end)
      (fold_left (indexExercise E) allLogs ∅).
Proof.
  unfold buildSnapshot, earliestTimestamp.
  rewrite scanLog_fold, scanCheck_fold.
  now destruct allLogs, allChecks.
Qed.

(** C5, what the code computes.  For a non-empty ledger the anchor
    [firstDate] is the calendar midnight of the earliest timestamp; when
    that timestamp falls before 4 AM local time the anchor's date is the
    day after the virtual day of the timestamp, not the virtual day. *)
Theorem anchor_is_calendar_date (E : Env) (now : Z) (allLogs : list LogEntry.t)
    (allChecks : list CheckEntry.t) :
  allLogs <> [] \/ allChecks <> [] ->
  (earliestTimestamp allLogs allChecks + tzOffset E) mod msPerDay
  < dayBoundaryHour * msPerHour ->
  let anchor := firstDate (buildSnapshot E now allLogs allChecks) in
  anchor = startOfDay E (earliestTimestamp allLogs allChecks)
  /\ formatDay E anchor
     = getVirtualDate E (earliestTimestamp allLogs allChecks) + 1.
Proof.
  intros Hne Hearly anchor. subst anchor.
  rewrite buildSnapshot_fields. cbn [firstDate].
  assert (Hfirst : match allLogs, allChecks with
                   | [], [] => now
                   | _, _ => startOfDay E (earliestTimestamp allLogs allChecks)
                   end = startOfDay E (earliestTimestamp allLogs allChecks)).
  { destruct allLogs, allChecks; try reflexivity. destruct Hne; congruence. }
  rewrite Hfirst. split; [reflexivity|].
  rewrite formatDay_startOfDay, virtual_day_before_boundary by exact Hearly. lia.
Qed.

Lemma anchor_is_calendar_date_witness :
  let anchor := firstDate (buildSnapshot sampleEnv (5 * msPerDay) [nightCap] []) in
  anchor = startOfDay sampleEnv (earliestTimestamp [nightCap] [])
  /\ formatDay sampleEnv anchor
     = getVirtualDate sampleEnv (earliestTimestamp [nightCap] []) + 1.
Proof.
  apply (anchor_is_calendar_date sampleEnv (5 * msPerDay) [nightCap] []).
  - left. discriminate.
  - vm_compute. reflexivity.
Defined.

(** On the ledger holding only [nightCap]: the log is bucketed under the
    virtual day 0 while the anchor is day 1. *)
Example anchor_after_first_bucket :
  let snap := buildSnapshot sampleEnv (5 * msPerDay) [nightCap] [] in
  formatDay sampleEnv (firstDate snap) = 1
  /\ getVirtualDate sampleEnv (LogEntry.timestamp nightCap) = 0
  /\ logMap snap !! 0 = Some (mkDayAgg true false (-140000)).
Proof. vm_compute. repeat split; reflexivity. Qed.

(** ** The forward walk: termination and the safety cap *)

Lemma processLog_guard (E : Env) (streak dateStr : Z) (w : WalkState)
    (log : LogEntry.t) :
  safeGuard (processLog E streak dateStr w log) = safeGuard w
  /\ visited (processLog E streak dateStr w log) = visited w.
Proof. unfold processLog. now destruct (isStale _ _ _). Qed.

Lemma processLog_fold_guard (E : Env) (streak dateStr : Z)
    (ls : list LogEntry.t) :
  forall w,
    safeGuard (fold_left (processLog E streak dateStr) ls w) = safeGuard w
    /\ visited (fold_left (processLog E streak dateStr) ls w) = visited w.
Proof.
  induction ls as [|l ls IH]; intros w; [now split|].
  cbn [fold_left]. destruct (IH (processLog E streak dateStr w l)) as [-> ->].
  apply processLog_guard.
Qed.

Lemma processDay_guard (E : Env) (snap : Snapshot) (currentDate : Z)
    (w : WalkState) :
  safeGuard (processDay E snap currentDate w) = safeGuard w
  /\ visited (processDay E snap currentDate w)
     = visited w ++ [formatDay E currentDate].
Proof.
  unfold processDay. cbn [safeGuard visited].
  now destruct (processLog_fold_guard E
                  (getStreakFromMap E (wLogMap w) (checkMap snap) (firstDate snap) currentDate)
                  (formatDay E currentDate)
                  (default [] (exerciseLogsByDate snap !! formatDay E currentDate)) w)
    as [-> ->].
Qed.

(** Enough fuel: from a fresh guard the loop never runs out of
    [walkFuel]; more fuel gives the same result. *)
Lemma walk_fuel_enough (E : Env) (snap : Snapshot) (today : Z) :
  forall (f1 f2 : nat) (currentDate : Z) (w : WalkState),
    0 <= safeGuard w <= 3651 ->
    3652 - safeGuard w <= Z.of_nat f1 ->
    (f1 <= f2)%nat ->
    walk E snap today f1 currentDate w = walk E snap today f2 currentDate w.
Proof.
  induction f1 as [|f1 IH]; intros f2 currentDate w Hg Hf Hle; [lia|].
  destruct f2 as [|f2]; [lia|]. cbn [walk].
  destruct ((currentDate <? today) || isSameDay E currentDate today); [|reflexivity].
  destruct (Z.gtb_spec (safeGuard w) 3650) as [Hbig|Hsmall]; [reflexivity|].
  apply IH.
  - destruct (processDay_guard E snap currentDate (bumpGuard w)) as [-> _].
    cbn [bumpGuard safeGuard]. lia.
  - destruct (processDay_guard E snap currentDate (bumpGuard w)) as [-> _].
    cbn [bumpGuard safeGuard]. lia.
  - lia.
Qed.

Lemma walk_fuel_irrelevant (E : Env) (snap : Snapshot) (today : Z) (fuel : nat)
    (currentDate : Z) (w : WalkState) :
  safeGuard w = 0 ->
  (walkFuel <= fuel)%nat ->
  walk E snap today fuel currentDate w = walk E snap today walkFuel currentDate w.
Proof.
  intros Hg Hf. symmetry. apply walk_fuel_enough; [lia| |exact Hf].
  rewrite Hg. unfold walkFuel. lia.
Qed.

(** The number of days the loop body runs never exceeds 3651. *)
Lemma walk_visited_bound (E : Env) (snap : Snapshot) (today : Z) :
  forall (fuel : nat) (currentDate : Z) (w : WalkState),
    0 <= safeGuard w <= 3651 ->
    Z.of_nat (length (visited (walk E snap today fuel currentDate w)))
    <= Z.of_nat (length (visited w)) + (3651 - safeGuard w).
Proof.
  induction fuel as [|fuel IH]; intros currentDate w Hg; cbn [walk]; [lia|].
  destruct ((currentDate <? today) || isSameDay E currentDate today); [|lia].
  destruct (Z.gtb_spec (safeGuard w) 3650) as [Hbig|Hsmall].
  - cbn [bumpGuard visited]. lia.
  - etransitivity; [apply IH|].
    + destruct (processDay_guard E snap currentDate (bumpGuard w)) as [-> _].
      cbn [bumpGuard safeGuard]. lia.
    + destruct (processDay_guard E snap currentDate (bumpGuard w)) as [-> ->].
      rewrite length_app. cbn [bumpGuard safeGuard visited length]. lia.
Qed.

Lemma walk_long_range (E : Env) (snap : Snapshot) (today : Z) :
  forall (fuel : nat) (currentDate : Z) (w : WalkState),
    0 <= safeGuard w <= 3651 ->
    3652 - safeGuard w <= Z.of_nat fuel ->
    currentDate + (3651 - safeGuard w) * msPerDay <= today ->
    Z.of_nat (length (visited (walk E snap today fuel currentDate w)))
    = Z.of_nat (length (visited w)) + (3651 - safeGuard w)
    /\ safeGuard (walk E snap today fuel currentDate w) = 3652.
Proof.
  induction fuel as [|fuel IH]; intros currentDate w Hg Hf Hrange; [lia|].
  cbn [walk].
  assert (Hcond : (currentDate <? today) || isSameDay E currentDate today = true).
  { destruct (Z.ltb_spec currentDate today) as [|Hge]; [reflexivity|].
    assert (currentDate = today) by (unfold msPerDay in Hrange; lia). subst.
    unfold isSameDay. now rewrite Z.eqb_refl. }
  rewrite Hcond.
  destruct (Z.gtb_spec (safeGuard w) 3650) as [Hbig|Hsmall].
  - cbn [bumpGuard visited safeGuard]. lia.
  - destruct (processDay_guard E snap currentDate (bumpGuard w)) as [Hsg Hvis].
    cbn [bumpGuard safeGuard visited] in Hsg, Hvis.
    destruct (IH (currentDate + msPerDay) (processDay E snap currentDate (bumpGuard w)))
      as [Hlen Hfin].
    + rewrite Hsg. lia.
    + rewrite Hsg. lia.
    + rewrite Hsg. unfold msPerDay in *. lia.
    + rewrite Hlen, Hfin, Hsg, Hvis, length_app. cbn [length]. lia.
Qed.

(** C8, what the code does.  The guard [safeGuard++ > 3650] lets the
    body run for the guard values 0 to 3650: when the walk starts 3651
    days or more before [today], the body runs for exactly 3651 virtual
    days, one more than the cap of 3650, and the guard is then 3652. *)
Theorem walk_cap_is_3651_days (E : Env) (snap : Snapshot) (today startDate : Z)
    (w : WalkState) :
  safeGuard w = 0 ->
  visited w = [] ->
  startDate + 3651 * msPerDay <= today ->
  length (visited (walk E snap today walkFuel startDate w)) = 3651%nat
  /\ safeGuard (walk E snap today walkFuel startDate w) = 3652.
Proof.
  intros Hg Hv Hrange.
  destruct (walk_long_range E snap today walkFuel startDate w) as [Hlen Hfin].
  - lia.
  - rewrite Hg. unfold walkFuel. lia.
  - rewrite Hg. lia.
  - rewrite Hv, Hg in Hlen. cbn [length] in Hlen. split; [lia|exact Hfin].
Qed.

Lemma walk_cap_is_3651_days_witness :
  length (visited (walk sampleEnv (buildSnapshot sampleEnv (4000 * msPerDay) [] [])
                        (endOfDay sampleEnv (4000 * msPerDay)) walkFuel 0
                        (mkWalk [] ∅ 0 0 [] []))) = 3651%nat
  /\ safeGuard (walk sampleEnv (buildSnapshot sampleEnv (4000 * msPerDay) [] [])
                     (endOfDay sampleEnv (4000 * msPerDay)) walkFuel 0
                     (mkWalk [] ∅ 0 0 [] [])) = 3652.
Proof.
  apply (walk_cap_is_3651_days sampleEnv
           (buildSnapshot sampleEnv (4000 * msPerDay) [] [])
           (endOfDay sampleEnv (4000 * msPerDay)) 0 (mkWalk [] ∅ 0 0 [] [])).
  - reflexivity.
  - reflexivity.
  - vm_compute. discriminate.
Defined.

(** ** Switching to PERMANENT *)

Lemma bulkAddLogs_spec (rows : list LogEntry.t) :
  forall st,
    map stripId (logs (bulkAddLogs st rows)) = map stripId (logs st) ++ map stripId rows
    /\ checks (bulkAddLogs st rows) = checks st
    /\ period_archives (bulkAddLogs st rows) = period_archives st
    /\ archivesKeyGen (bulkAddLogs st rows) = archivesKeyGen st
    /\ localStorage (bulkAddLogs st rows) = localStorage st.
Proof.
  unfold bulkAddLogs.
  induction rows as [|r rows IH]; intros st; cbn [fold_left].
  - rewrite app_nil_r. auto.
  - destruct (IH (mkState (logs st ++ [LogEntry.withId r (logsKeyGen st)])
                          (logsKeyGen st + 1) (checks st) (period_archives st)
                          (archivesKeyGen st) (localStorage st)))
      as (Hl & Hc & Ha & Hk & Hs).
    cbn [logs checks period_archives archivesKeyGen localStorage] in *.
    rewrite Hl, Hc, Ha, Hk, Hs. repeat split.
    rewrite map_app, <- app_assoc. reflexivity.
Qed.

Lemma restoreArchive_fold (archives : list PeriodArchive.t) :
  forall (st : State) (n : Z),
    let r := fold_left restoreArchive archives (st, n) in
    map stripId (logs (fst r))
    = map stripId (logs st) ++ map stripId (concat (map PeriodArchive.logs archives))
    /\ snd r = n + Z.of_nat (length (concat (map PeriodArchive.logs archives)))
    /\ checks (fst r) = checks st
    /\ archivesKeyGen (fst r) = archivesKeyGen st
    /\ localStorage (fst r) = localStorage st.
Proof.
  induction archives as [|a archives IH]; intros st n r; subst r.
  - cbn. rewrite app_nil_r. repeat split. lia.
  - cbn [fold_left map concat].
    assert (Hstep : restoreArchive (st, n) a
                    = match PeriodArchive.logs a with
                      | [] => (st, n)
                      | _ :: _ =>
                          (bulkAddLogs st (PeriodArchive.logs a),
                           n + Z.of_nat (length (PeriodArchive.logs a)))
                      end) by reflexivity.
    rewrite Hstep. clear Hstep.
    destruct (PeriodArchive.logs a) as [|l ls] eqn:Hlogs.
    + cbn [app]. apply IH.
    + destruct (IH (bulkAddLogs st (l :: ls)) (n + Z.of_nat (length (l :: ls))))
        as (Hl & Hn & Hc & Hk & Hs).
      destruct (bulkAddLogs_spec (l :: ls) st) as (Bl & Bc & _ & Bk & Bs).
      rewrite Hl, Hn, Hc, Hk, Hs, Bl, Bc, Bk, Bs.
      repeat split.
      * rewrite map_app, app_assoc. reflexivity.
      * rewrite length_app. lia.
Qed.

(** What the switch to PERMANENT does to a ledger that has archives:
    every live row stays, every snapshot row is added after them under a
    new key, the archives are cleared and the period start is reset to 0;
    [restoredCount] is the number of snapshot rows. *)
Lemma restore_appends_snapshots (E : Env) (now : Z) (cd : CustomData) (st : State) :
  period_archives st <> [] ->
  let r := updatePeriodSettings E now permanent cd st in
  map stripId (logs (fst r)) = map stripId (logs st) ++ map stripId (snapshotRows st)
  /\ snd r = Z.of_nat (length (snapshotRows st))
  /\ period_archives (fst r) = []
  /\ PERIOD_START (localStorage (fst r)) = Some 0
  /\ PERIOD_MODE (localStorage (fst r)) = Some permanent.
Proof.
  intros Hne r. subst r. unfold updatePeriodSettings, snapshotRows.
  set (st0 := withLocalStorage st (setPeriodMode (localStorage st) permanent)).
  change (period_archives st0) with (period_archives st).
  destruct (period_archives st) as [|a archives] eqn:Harch; [congruence|].
  pose proof (restoreArchive_fold (a :: archives) st0 0) as H.
  cbn zeta in H. destruct (fold_left restoreArchive (a :: archives) (st0, 0)) as [st1 n].
  cbn [fst snd] in H. destruct H as (Hl & Hn & _ & _ & Hs).
  cbn [fst snd clearArchives withLocalStorage logs period_archives localStorage
       setPeriodStart PERIOD_START PERIOD_MODE].
  rewrite Hs. subst st0. cbn [withLocalStorage localStorage setPeriodMode PERIOD_MODE].
  repeat split; [exact Hl | lia].
Qed.

(** C4, the code at a failing input.  After two rollovers of the sample
    ledger the four logs are all still live, the first archive holds three
    of them and the second all four.  Switching to PERMANENT re-inserts the
    seven snapshot rows next to the four live ones: the ledger then holds
    eleven rows for four logs, and its kcal total is no longer the total
    of the four logs. *)
Theorem restore_duplicates_logs :
  let r := updatePeriodSettings sampleEnv (12 * msPerDay) permanent noCustomData
             twiceSealedLedger in
  length (logs twiceSealedLedger) = 4%nat
  /\ map (fun a => length (PeriodArchive.logs a)) (period_archives twiceSealedLedger)
     = [3%nat; 4%nat]
  /\ length (logs (fst r)) = 11%nat
  /\ snd r = 7
  /\ map LogEntry.timestamp (logs (fst r))
     = map LogEntry.timestamp
         ([beerLog; runLog; walkLog; secondBeer]
            ++ [beerLog; runLog; walkLog]
            ++ [beerLog; runLog; walkLog; secondBeer])
  /\ sumKcal (logs twiceSealedLedger) = -190000
  /\ sumKcal (logs (fst r)) = -370000
  /\ period_archives (fst r) = []
  /\ PERIOD_START (localStorage (fst r)) = Some 0.
Proof. vm_compute. repeat split; reflexivity. Qed.

(** ** The forward walk: what it may rewrite *)

Lemma formatDay_parseDay (E : Env) (d : Z) : formatDay E (parseDay E d) = d.
Proof.
  unfold formatDay, parseDay, msPerDay.
  replace (d * 86400000 - tzOffset E + tzOffset E) with (d * 86400000) by lia.
  now rewrite Z.div_mul by lia.
Qed.

Lemma startOfDay_parseDay (E : Env) (d : Z) :
  startOfDay E (parseDay E d) = parseDay E d.
Proof.
  unfold startOfDay, parseDay, msPerDay.
  replace (d * 86400000 - tzOffset E + tzOffset E) with (d * 86400000) by lia.
  rewrite Z.mod_mul by lia. lia.
Qed.

Lemma formatDay_next (E : Env) (ts : Z) :
  formatDay E (ts + msPerDay) = formatDay E ts + 1.
Proof.
  unfold formatDay, msPerDay.
  replace (ts + 86400000 + tzOffset E) with (ts + tzOffset E + 1 * 86400000) by lia.
  now rewrite Z.div_add by lia.
Qed.

Lemma indexExercise_fold (E : Env) (d : Z) (ls : list LogEntry.t) :
  forall idx0 : gmap Z (list LogEntry.t),
    default [] (fold_left (indexExercise E) ls idx0 !! d)
    = default [] (idx0 !! d) ++ List.filter (isExerciseOn E d) ls.
Proof.
  induction ls as [|l ls IH]; intros idx0; cbn [fold_left List.filter].
  - now rewrite app_nil_r.
  - rewrite IH. unfold indexExercise, isExerciseOn.
    destruct (LogEntry.type l); cbn [LogType_eqb andb]; [reflexivity|].
    destruct (Z.eqb_spec (getVirtualDate E (LogEntry.timestamp l)) d) as [Heq|Hne].
    + rewrite Heq, lookup_insert_eq. cbn [default from_option]. unfold id.
      now rewrite <- app_assoc.
    + now rewrite lookup_insert_ne.
Qed.

Lemma daysExerciseLogs_spec (E : Env) (now d : Z) (allLogs : list LogEntry.t)
    (allChecks : list CheckEntry.t) :
  default [] (exerciseLogsByDate (buildSnapshot E now allLogs allChecks) !! d)
  = List.filter (isExerciseOn E d) allLogs.
Proof.
  rewrite buildSnapshot_fields. cbn [exerciseLogsByDate].
  rewrite indexExercise_fold. now rewrite lookup_empty.
Qed.

Lemma isExerciseOn_true (E : Env) (d : Z) (l : LogEntry.t) :
  isExerciseOn E d l = true ->
  LogEntry.type l = exercise /\ getVirtualDate E (LogEntry.timestamp l) = d.
Proof.
  unfold isExerciseOn. intros H. apply andb_prop in H as [Ht Hd].
  split; [now destruct (LogEntry.type l)|now apply Z.eqb_eq].
Qed.

Lemma NoDup_map_eq {A : Type} (f : A -> Z) (l : list A) (x y : A) :
  NoDup (map f l) -> In x l -> In y l -> f x = f y -> x = y.
Proof.
  induction l as [|a l IH]; intros Hnd Hx Hy Hf; [destruct Hx|].
  cbn [map] in Hnd. apply NoDup_cons in Hnd as [Hnotin Hnd].
  rewrite list_elem_of_In in Hnotin.
  destruct Hx as [<-|Hx], Hy as [<-|Hy]; auto.
  - exfalso. apply Hnotin. rewrite Hf. now apply in_map.
  - exfalso. apply Hnotin. rewrite <- Hf. now apply in_map.
Qed.

Lemma Forall2_map_right_in {A B : Type} (R R' : A -> B -> Prop) (f : B -> B)
    (l1 : list A) (l2 : list B) :
  Forall2 R l1 l2 ->
  (forall x y, In x l1 -> R x y -> R' x (f y)) ->
  Forall2 R' l1 (map f l2).
Proof.
  induction 1 as [|x y l1 l2 Hxy Hrest IH]; intros Hf; cbn [map]; constructor.
  - apply Hf; [now left|exact Hxy].
  - apply IH. intros a b Ha. apply Hf. now right.
Qed.

Lemma rewrittenFrom_id (E : Env) (D : Z) (l l' : LogEntry.t) :
  rewrittenFrom E D l l' -> LogEntry.id l' = LogEntry.id l.
Proof. intros [->|(_ & _ & k & m & ->)]; reflexivity. Qed.

Lemma rewrittenFrom_refl (E : Env) (D : Z) (rows : list LogEntry.t) :
  Forall2 (rewrittenFrom E D) rows rows.
Proof. induction rows; constructor; [now left|assumption]. Qed.

Lemma updateLog_frame (E : Env) (D : Z) (rows0 rows : list LogEntry.t)
    (log : LogEntry.t) (k : Z) (m : string) :
  NoDup (map LogEntry.id rows0) ->
  In log rows0 ->
  LogEntry.type log = exercise ->
  D <= getVirtualDate E (LogEntry.timestamp log) ->
  Forall2 (rewrittenFrom E D) rows0 rows ->
  Forall2 (rewrittenFrom E D) rows0 (updateLog rows (LogEntry.id log) k m).
Proof.
  intros Hnd Hin Hty HD Hrel. unfold updateLog.
  eapply Forall2_map_right_in; [exact Hrel|].
  intros x y Hx Hxy.
  destruct (Z.eqb_spec (LogEntry.id y) (LogEntry.id log)) as [Heq|]; [|exact Hxy].
  assert (x = log) as ->.
  { apply (NoDup_map_eq LogEntry.id rows0); auto.
    rewrite <- Heq. symmetry. eapply rewrittenFrom_id; eauto. }
  right. split; [exact Hty|]. split; [exact HD|].
  exists k, m. destruct Hxy as [->|(_ & _ & k' & m' & ->)]; reflexivity.
Qed.

Lemma processLogs_frame (E : Env) (D : Z) (rows0 : list LogEntry.t)
    (streak dateStr : Z) (ls : list LogEntry.t) :
  NoDup (map LogEntry.id rows0) ->
  (forall l, In l ls -> In l rows0 /\ LogEntry.type l = exercise
                        /\ D <= getVirtualDate E (LogEntry.timestamp l)) ->
  forall w,
    Forall2 (rewrittenFrom E D) rows0 (dbLogs w) ->
    Forall2 (rewrittenFrom E D) rows0
            (dbLogs (fold_left (processLog E streak dateStr) ls w)).
Proof.
  intros Hnd. induction ls as [|l ls IH]; intros Hls w Hrel; [exact Hrel|].
  cbn [fold_left]. apply IH; [intros x Hx; apply Hls; now right|].
  destruct (Hls l (or_introl eq_refl)) as (Hin & Hty & HD).
  unfold processLog. destruct (isStale _ _ _); [|exact Hrel].
  cbn [dbLogs]. now apply updateLog_frame.
Qed.

Lemma processDay_frame (E : Env) (D now : Z) (st : State) (currentDate : Z)
    (w : WalkState) :
  uniqueLogIds st ->
  D <= formatDay E currentDate ->
  Forall2 (rewrittenFrom E D) (logs st) (dbLogs w) ->
  Forall2 (rewrittenFrom E D) (logs st)
    (dbLogs (processDay E (buildSnapshot E now (logs st) (checks st)) currentDate w)).
Proof.
  intros Hnd HD Hrel. unfold processDay. cbn [dbLogs].
  apply processLogs_frame; [exact Hnd| |exact Hrel].
  intros l Hl. rewrite daysExerciseLogs_spec in Hl.
  apply filter_In in Hl as [Hin Hon].
  apply isExerciseOn_true in Hon as [Hty Hd]. rewrite Hd. auto.
Qed.

Lemma walk_frame (E : Env) (D now today : Z) (st : State) :
  uniqueLogIds st ->
  forall (fuel : nat) (currentDate : Z) (w : WalkState),
    D <= formatDay E currentDate ->
    Forall2 (rewrittenFrom E D) (logs st) (dbLogs w) ->
    Forall2 (rewrittenFrom E D) (logs st)
      (dbLogs (walk E (buildSnapshot E now (logs st) (checks st)) today fuel
                    currentDate w)).
Proof.
  intros Hnd. induction fuel as [|fuel IH]; intros currentDate w HD Hrel;
    cbn [walk]; [exact Hrel|].
  destruct ((currentDate <? today) || isSameDay E currentDate today); [|exact Hrel].
  destruct (safeGuard w >? 3650); [exact Hrel|].
  apply IH.
  - rewrite formatDay_next. lia.
  - apply processDay_frame; [exact Hnd|exact HD|exact Hrel].
Qed.

Lemma recalc_logs (E : Env) (now t : Z) (st : State) :
  logs (fst (recalcImpactedHistory E now t st))
  = dbLogs (walk E (buildSnapshot E now (logs st) (checks st))
                 (endOfDay E now) walkFuel
                 (startOfDay E (parseDay E (getVirtualDate E t)))
                 (mkWalk (logs st)
                         (logMap (buildSnapshot E now (logs st) (checks st)))
                         0 0 [] []))
  /\ checks (fst (recalcImpactedHistory E now t st)) = checks st
  /\ localStorage (fst (recalcImpactedHistory E now t st)) = localStorage st.
Proof.
  unfold recalcImpactedHistory.
  now destruct (fold_left _ _ _).
Qed.

Lemma recalc_rewrittenFrom (E : Env) (now t : Z) (st : State) :
  uniqueLogIds st ->
  Forall2 (rewrittenFrom E (getVirtualDate E t)) (logs st)
          (logs (fst (recalcImpactedHistory E now t st))).
Proof.
  intros Hnd. destruct (recalc_logs E now t st) as [-> _].
  apply walk_frame; [exact Hnd| |apply rewrittenFrom_refl].
  rewrite startOfDay_parseDay, formatDay_parseDay. lia.
Qed.

Lemma refreshArchive_fold_frame (now t : Z) (logRows : list LogEntry.t)
    (rows0 : list PeriodArchive.t) (affected : list PeriodArchive.t) :
  NoDup (map PeriodArchive.id rows0) ->
  (forall a, In a affected -> In a rows0 /\ t <= PeriodArchive.endDate a) ->
  forall acc : list PeriodArchive.t * list Write,
    Forall2 (fun a a' => PeriodArchive.id a' = PeriodArchive.id a
                         /\ (PeriodArchive.endDate a < t -> a' = a))
            rows0 (fst acc) ->
    Forall2 (fun a a' => PeriodArchive.id a' = PeriodArchive.id a
                         /\ (PeriodArchive.endDate a < t -> a' = a))
            rows0 (fst (fold_left (refreshArchive now logRows) affected acc)).
Proof.
  intros Hnd. induction affected as [|x affected IH]; intros Haff acc Hrel;
    [exact Hrel|].
  cbn [fold_left]. apply IH; [intros a Ha; apply Haff; now right|].
  unfold refreshArchive. cbn [fst]. unfold updateArchive.
  eapply Forall2_map_right_in; [exact Hrel|].
  intros a a' Ha [Hid Hkeep].
  destruct (Z.eqb_spec (PeriodArchive.id a') (PeriodArchive.id x)) as [Heq|];
    [|now split].
  destruct (Haff x (or_introl eq_refl)) as [Hx Hend].
  assert (a = x) as ->.
  { apply (NoDup_map_eq PeriodArchive.id rows0); auto. congruence. }
  split; [exact Hid|]. lia.
Qed.

(** C9.  The forward walk rewrites exercise logs only, and only their
    [kcal] and [memo]: row by row, the log table after a run is the table
    before it, where a BEER log is unchanged and an EXERCISE log is either
    unchanged or differs in [kcal] and [memo] alone.  No row is added or
    removed. *)
Theorem walk_rewrites_exercise_credit_only (E : Env) (now t : Z) (st : State) :
  uniqueLogIds st ->
  let st' := fst (recalcImpactedHistory E now t st) in
  Forall2 (fun l l' => creditRewrite l l'
                       /\ (LogEntry.type l = beer -> l' = l))
          (logs st) (logs st')
  /\ length (logs st') = length (logs st).
Proof.
  intros Hnd st'. subst st'.
  pose proof (recalc_rewrittenFrom E now t st Hnd) as Hrel.
  split.
  - eapply Forall2_impl; [exact Hrel|].
    intros l l' [->|(Hty & _ & Hkm)].
    + split; [now left|reflexivity].
    + split; [right; now split|]. intros Hb. congruence.
  - symmetry. eapply Forall2_length. exact Hrel.
Qed.

(** C3.  A run for a change at [t], on virtual day [D]: every log whose
    virtual day is before [D] is left as it was, the check table is left as
    it was, and every archive whose [endDate] is before [t] is left as it
    was. *)
Theorem recalc_forward_only (E : Env) (now t : Z) (st : State) :
  uniqueLogIds st ->
  uniqueArchiveIds st ->
  let st' := fst (recalcImpactedHistory E now t st) in
  Forall2 (fun l l' => getVirtualDate E (LogEntry.timestamp l) < getVirtualDate E t
                       -> l' = l)
          (logs st) (logs st')
  /\ checks st' = checks st
  /\ Forall2 (fun a a' => PeriodArchive.endDate a < t -> a' = a)
             (period_archives st) (period_archives st').
Proof.
  intros Hlogs Harch st'. subst st'. split; [|split].
  - eapply Forall2_impl; [exact (recalc_rewrittenFrom E now t st Hlogs)|].
    intros l l' [->|(_ & HD & _)]; [reflexivity|lia].
  - apply recalc_logs.
  - rewrite recalc_archives.
    eapply Forall2_impl.
    + apply refreshArchive_fold_frame with (t := t); [exact Harch| |].
      * intros a Ha. unfold archivesEndingFrom in Ha.
        apply In_sortOn, filter_In in Ha as [Hin Hend].
        split; [exact Hin|now apply Z.leb_le].
      * cbn [fst]. clear. induction (period_archives st); constructor; auto.
    + intros a a' [_ H]. exact H.
Qed.

Lemma walk_rewrites_exercise_credit_only_witness :
  let st' := fst (recalcImpactedHistory sampleEnv (5 * msPerDay) (2 * msPerDay)
                    sealedLedger) in
  Forall2 (fun l l' => creditRewrite l l'
                       /\ (LogEntry.type l = beer -> l' = l))
          (logs sealedLedger) (logs st')
  /\ length (logs st') = length (logs sealedLedger).
Proof.
  apply (walk_rewrites_exercise_credit_only sampleEnv (5 * msPerDay) (2 * msPerDay)
           sealedLedger).
  unfold uniqueLogIds. apply (bool_decide_unpack _). vm_compute. exact I.
Defined.

Lemma recalc_forward_only_witness :
  let st' := fst (recalcImpactedHistory sampleEnv (5 * msPerDay)
                    (3 * msPerDay + 8 * msPerHour) sealedLedger) in
  Forall2 (fun l l' => getVirtualDate sampleEnv (LogEntry.timestamp l)
                       < getVirtualDate sampleEnv (3 * msPerDay + 8 * msPerHour)
                       -> l' = l)
          (logs sealedLedger) (logs st')
  /\ checks st' = checks sealedLedger
  /\ Forall2 (fun a a' => PeriodArchive.endDate a < 3 * msPerDay + 8 * msPerHour
                          -> a' = a)
             (period_archives sealedLedger) (period_archives st').
Proof.
  apply (recalc_forward_only sampleEnv (5 * msPerDay) (3 * msPerDay + 8 * msPerHour)
           sealedLedger).
  - unfold uniqueLogIds. apply (bool_decide_unpack _). vm_compute. exact I.
  - unfold uniqueArchiveIds. apply (bool_decide_unpack _). vm_compute. exact I.
Defined.

(** On the sealed sample ledger a run for a change on day 3 rewrites the
    walking log of day 3 and leaves the running log of day 2 alone, although
    its stored credit is stale too. *)
Example recalc_day3_leaves_day2 :
  map LogEntry.kcal
      (logs (fst (recalcImpactedHistory sampleEnv (5 * msPerDay)
                    (3 * msPerDay + 8 * msPerHour) sealedLedger)))
  = [Some (-140000); Some 100000; Some 72000].
Proof. vm_compute. reflexivity. Qed.

(** ** A second run *)

Lemma NoDup_map_filter {A : Type} (f : A -> Z) (P : A -> bool) (l : list A) :
  NoDup (map f l) -> NoDup (map f (List.filter P l)).
Proof.
  induction l as [|a l IH]; cbn [map List.filter]; intros Hnd; [constructor|].
  apply NoDup_cons in Hnd as [Hnotin Hnd].
  destruct (P a); cbn [map]; [|now apply IH].
  apply NoDup_cons. split; [|now apply IH].
  rewrite list_elem_of_In in *. intros Hin. apply Hnotin.
  apply in_map_iff in Hin as [x [Hx Hin]]. apply filter_In in Hin as [Hin _].
  rewrite <- Hx. now apply in_map.
Qed.

Lemma parseDay_next (E : Env) (d : Z) : parseDay E d + msPerDay = parseDay E (d + 1).
Proof. unfold parseDay. lia. Qed.

Lemma recalc_unfold (E : Env) (now t : Z) (st : State) :
  recalcImpactedHistory E now t st
  = let snap := buildSnapshot E now (logs st) (checks st) in
    let w := walk E snap (endOfDay E now) walkFuel
                  (parseDay E (getVirtualDate E t))
                  (mkWalk (logs st) (logMap snap) 0 0 [] []) in
    let r := fold_left (refreshArchive now (dbLogs w))
                       (archivesEndingFrom (period_archives st) t)
                       (period_archives st, written w) in
    (mkState (dbLogs w) (logsKeyGen st) (checks st) (fst r) (archivesKeyGen st)
             (localStorage st),
     snd r).
Proof.
  unfold recalcImpactedHistory. rewrite startOfDay_parseDay. cbn zeta.
  now destruct (fold_left _ _ _).
Qed.

Lemma startOfDay_formatDay (E : Env) (ts : Z) :
  startOfDay E ts = formatDay E ts * msPerDay - tzOffset E.
Proof.
  unfold startOfDay, formatDay, msPerDay.
  pose proof (Z.div_mod (ts + tzOffset E) 86400000 ltac:(lia)). lia.
Qed.

Lemma refresh_fold_fresh (now t : Z) (logRows : list LogEntry.t)
    (rows0 : list PeriodArchive.t) :
  NoDup (map PeriodArchive.id rows0) ->
  forall (rem : list PeriodArchive.t) (acc : list PeriodArchive.t * list Write),
    (forall x, In x rem -> In x rows0) ->
    Forall2 (fun a a' =>
               PeriodArchive.id a' = PeriodArchive.id a
               /\ PeriodArchive.startDate a' = PeriodArchive.startDate a
               /\ PeriodArchive.endDate a' = PeriodArchive.endDate a
               /\ (t <= PeriodArchive.endDate a ->
                   freshFor now logRows a' \/ In a rem))
            rows0 (fst acc) ->
    Forall2 (fun a a' =>
               PeriodArchive.id a' = PeriodArchive.id a
               /\ PeriodArchive.endDate a' = PeriodArchive.endDate a
               /\ (t <= PeriodArchive.endDate a -> freshFor now logRows a'))
            rows0 (fst (fold_left (refreshArchive now logRows) rem acc)).
Proof.
  intros Hnd. induction rem as [|x rem IH]; intros acc Hrem Hrel.
  - cbn [fold_left]. eapply Forall2_impl; [exact Hrel|].
    intros a a' (Hid & _ & Hend & Hf). repeat split; auto.
    intros Ht. destruct (Hf Ht) as [H|[]]. exact H.
  - cbn [fold_left]. apply IH; [intros y Hy; apply Hrem; now right|].
    unfold refreshArchive. cbn [fst]. unfold updateArchive.
    eapply Forall2_map_right_in; [exact Hrel|].
    intros a a' Ha (Hid & Hs & He & Hf).
    destruct (Z.eqb_spec (PeriodArchive.id a') (PeriodArchive.id x)) as [Heq|Hne].
    + assert (a = x) as ->.
      { apply (NoDup_map_eq PeriodArchive.id rows0); auto.
        - apply Hrem. now left.
        - congruence. }
      repeat split; auto. intros _. left. unfold freshFor.
      cbn [PeriodArchive.refresh PeriodArchive.startDate PeriodArchive.endDate].
      rewrite Hs, He. reflexivity.
    + repeat split; auto. intros Ht. destruct (Hf Ht) as [H|[H|H]]; auto.
      congruence.
Qed.

Lemma insertOn_Permutation {A : Type} (key : A -> Z) (x : A) (l : list A) :
  Permutation (insertOn key x l) (x :: l).
Proof.
  induction l as [|y l IH]; cbn [insertOn]; [reflexivity|].
  destruct (key x <=? key y); [reflexivity|].
  rewrite IH. apply perm_swap.
Qed.

Lemma sortOn_Permutation {A : Type} (key : A -> Z) (l : list A) :
  Permutation (sortOn key l) l.
Proof.
  induction l as [|x l IH]; cbn [sortOn foldr]; [reflexivity|].
  fold (sortOn key l). rewrite insertOn_Permutation. now constructor.
Qed.

Lemma archivesEndingFrom_ids (rows : list PeriodArchive.t) (t : Z) :
  NoDup (map PeriodArchive.id rows) ->
  NoDup (map PeriodArchive.id (archivesEndingFrom rows t)).
Proof.
  intros Hnd. unfold archivesEndingFrom.
  assert (Hp : Permutation
                 (map PeriodArchive.id
                    (sortOn PeriodArchive.endDate
                       (List.filter (fun a => t <=? PeriodArchive.endDate a) rows)))
                 (map PeriodArchive.id
                    (List.filter (fun a => t <=? PeriodArchive.endDate a) rows)))
    by apply Permutation_map, sortOn_Permutation.
  rewrite Hp. now apply NoDup_map_filter.
Qed.

Lemma touch_id (now : Z) (a : PeriodArchive.t) :
  PeriodArchive.id (touch now a) = PeriodArchive.id a.
Proof. reflexivity. Qed.

Lemma refreshArchive_fresh (now : Z) (logRows : list LogEntry.t)
    (rows : list PeriodArchive.t) (wr : list Write) (x : PeriodArchive.t) :
  NoDup (map PeriodArchive.id rows) ->
  In x rows ->
  freshContent logRows x ->
  refreshArchive now logRows (rows, wr) x
  = (map (fun r => if PeriodArchive.id x =? PeriodArchive.id r then touch now r else r)
         rows,
     wr ++ [rewriteOf now x]).
Proof.
  intros Hnd Hx [Hlogs Htot]. unfold refreshArchive, rewriteOf. cbn [fst snd].
  rewrite <- Htot, <- Hlogs. f_equal.
  unfold updateArchive. apply map_ext_in. intros r Hr.
  rewrite (Z.eqb_sym (PeriodArchive.id r)).
  destruct (Z.eqb_spec (PeriodArchive.id x) (PeriodArchive.id r)) as [Hid|];
    [|reflexivity].
  assert (r = x) as -> by (apply (NoDup_map_eq PeriodArchive.id rows); auto).
  reflexivity.
Qed.

(** Refreshing archives that are fresh already only stamps them again. *)
Lemma refresh_fold_touch (now : Z) (logRows : list LogEntry.t) :
  forall (aff rows : list PeriodArchive.t) (wr : list Write),
    NoDup (map PeriodArchive.id rows) ->
    NoDup (map PeriodArchive.id aff) ->
    (forall x, In x aff -> In x rows /\ freshContent logRows x) ->
    fold_left (refreshArchive now logRows) aff (rows, wr)
    = (map (fun r => if existsb (fun x => PeriodArchive.id x =? PeriodArchive.id r) aff
                     then touch now r else r) rows,
       wr ++ map (rewriteOf now) aff).
Proof.
  induction aff as [|x aff IH]; intros rows wr Hnd Haffnd Haff;
    cbn [fold_left map existsb].
  - now rewrite map_id, app_nil_r.
  - destruct (Haff x (or_introl eq_refl)) as [Hx Hfresh].
    cbn [map] in Haffnd. apply NoDup_cons in Haffnd as [Hxnot Haffnd].
    rewrite list_elem_of_In in Hxnot.
    rewrite (refreshArchive_fresh now logRows rows wr x Hnd Hx Hfresh).
    rewrite IH.
    + rewrite map_map, <- app_assoc. cbn [app]. f_equal.
      apply map_ext_in. intros r Hr.
      destruct (Z.eqb_spec (PeriodArchive.id x) (PeriodArchive.id r)) as [Hid|Hid];
        cbn [orb]; [|reflexivity].
      rewrite touch_id.
      replace (existsb (fun x0 => PeriodArchive.id x0 =? PeriodArchive.id r) aff)
        with false; [reflexivity|].
      symmetry. apply not_true_is_false. intros Hex.
      apply existsb_exists in Hex as [y [Hy Hyid]]. apply Z.eqb_eq in Hyid.
      apply Hxnot. rewrite Hid, <- Hyid. now apply in_map.
    + rewrite map_map. erewrite map_ext; [exact Hnd|].
      intros r. cbn. now destruct (PeriodArchive.id x =? PeriodArchive.id r).
    + exact Haffnd.
    + intros y Hy. destruct (Haff y (or_intror Hy)) as [Hyin Hyfresh].
      split; [|exact Hyfresh].
      apply in_map_iff. exists y. split; [|exact Hyin].
      replace (PeriodArchive.id x =? PeriodArchive.id y) with false; [reflexivity|].
      symmetry. apply Z.eqb_neq. intros Hid. apply Hxnot. rewrite Hid.
      now apply in_map.
Qed.

Lemma existsb_archivesEndingFrom (rows : list PeriodArchive.t) (t : Z)
    (r : PeriodArchive.t) :
  NoDup (map PeriodArchive.id rows) ->
  In r rows ->
  existsb (fun x => PeriodArchive.id x =? PeriodArchive.id r)
          (archivesEndingFrom rows t)
  = (t <=? PeriodArchive.endDate r).
Proof.
  intros Hnd Hr. destruct (t <=? PeriodArchive.endDate r) eqn:Hend.
  - apply existsb_exists. exists r. split; [|apply Z.eqb_refl].
    unfold archivesEndingFrom. apply In_sortOn, filter_In. now split.
  - apply not_true_is_false. intros Hex.
    apply existsb_exists in Hex as [x [Hx Hid]]. apply Z.eqb_eq in Hid.
    unfold archivesEndingFrom in Hx. apply In_sortOn, filter_In in Hx as [Hx Hxend].
    assert (x = r) by (apply (NoDup_map_eq PeriodArchive.id rows); auto).
    subst x. congruence.
Qed.

Lemma Forall2_In_right {A B : Type} (R : A -> B -> Prop) (l1 : list A) (l2 : list B)
    (y : B) :
  Forall2 R l1 l2 -> In y l2 -> exists x, In x l1 /\ R x y.
Proof.
  induction 1 as [|a b l1 l2 Hab _ IH]; intros Hy; [destruct Hy|].
  destruct Hy as [<-|Hy].
  - exists a. split; [now left|exact Hab].
  - destruct (IH Hy) as [x [Hx HR]]. exists x. split; [now right|exact HR].
Qed.

Lemma Forall2_diag {A : Type} (R : A -> A -> Prop) (l : list A) :
  (forall x, In x l -> R x x) -> Forall2 R l l.
Proof.
  induction l as [|a l IH]; intros H; constructor.
  - apply H. now left.
  - apply IH. intros x Hx. apply H. now right.
Qed.

Lemma freshFor_content (now : Z) (rows : list LogEntry.t) (a : PeriodArchive.t) :
  freshFor now rows a -> freshContent rows a.
Proof.
  unfold freshFor, freshContent. intros H.
  pose proof (f_equal PeriodArchive.totalBalance H) as Htot.
  pose proof (f_equal PeriodArchive.logs H) as Hlogs.
  cbn [PeriodArchive.refresh PeriodArchive.totalBalance PeriodArchive.logs]
    in Htot, Hlogs.
  split; congruence.
Qed.

Lemma refreshArchive_fold_ids (now : Z) (rows : list LogEntry.t)
    (affected : list PeriodArchive.t) :
  forall acc : list PeriodArchive.t * list Write,
    map PeriodArchive.id (fst (fold_left (refreshArchive now rows) affected acc))
    = map PeriodArchive.id (fst acc).
Proof.
  induction affected as [|a affected IH]; intros acc; [reflexivity|].
  cbn [fold_left]. rewrite IH. unfold refreshArchive, updateArchive. cbn [fst].
  rewrite map_map. apply map_ext. intros r.
  now destruct (PeriodArchive.id r =? PeriodArchive.id a).
Qed.

Lemma recalc_archive_ids (E : Env) (now t : Z) (st : State) :
  map PeriodArchive.id (period_archives (fst (recalcImpactedHistory E now t st)))
  = map PeriodArchive.id (period_archives st).
Proof. rewrite recalc_archives. apply refreshArchive_fold_ids. Qed.

Lemma recalc_fresh_archives (E : Env) (now t : Z) (st : State) :
  uniqueArchiveIds st ->
  forall a,
    In a (period_archives (fst (recalcImpactedHistory E now t st))) ->
    t <= PeriodArchive.endDate a ->
    freshFor now (logs (fst (recalcImpactedHistory E now t st))) a.
Proof.
  intros Hu a Ha Hend.
  destruct (recalc_logs E now t st) as [Hl _].
  rewrite recalc_archives in Ha. rewrite Hl.
  match type of Ha with
  | In a (fst (fold_left (refreshArchive now ?r) _ _)) =>
      remember r as rows eqn:Hrows
  end.
  clear Hrows Hl.
  match type of Ha with
  | In a (fst (fold_left (refreshArchive now rows) ?aff ?acc)) =>
      pose proof (refresh_fold_fresh now t rows (period_archives st) Hu aff acc) as Hf
  end.
  assert (Hsub : forall x, In x (archivesEndingFrom (period_archives st) t) ->
                           In x (period_archives st)).
  { intros x Hx. unfold archivesEndingFrom in Hx.
    now apply In_sortOn, filter_In in Hx as [Hx _]. }
  specialize (Hf Hsub).
  assert (H0 : Forall2
                 (fun a0 a' =>
                    PeriodArchive.id a' = PeriodArchive.id a0
                    /\ PeriodArchive.startDate a' = PeriodArchive.startDate a0
                    /\ PeriodArchive.endDate a' = PeriodArchive.endDate a0
                    /\ (t <= PeriodArchive.endDate a0 ->
                        freshFor now rows a'
                        \/ In a0 (archivesEndingFrom (period_archives st) t)))
                 (period_archives st) (period_archives st)).
  { apply Forall2_diag. intros x Hx. repeat split. intros Hx'. right.
    unfold archivesEndingFrom. apply In_sortOn, filter_In.
    split; [exact Hx|now apply Z.leb_le]. }
  specialize (Hf H0).
  destruct (Forall2_In_right _ _ _ a Hf Ha) as [a0 [_ (_ & He & Hfresh)]].
  apply Hfresh. lia.
Qed.

(** *** The writes of a run, in order *)

Lemma logUpdates_app (ws ws' : list Write) :
  logUpdates (ws ++ ws') = logUpdates ws ++ logUpdates ws'.
Proof. apply List.filter_app. Qed.

Lemma logUpdates_refreshes (now : Z) (rows : list LogEntry.t)
    (aff : list PeriodArchive.t) :
  logUpdates (map (refreshOf now rows) aff) = [].
Proof. induction aff as [|a aff IH]; [reflexivity|exact IH]. Qed.

Lemma refresh_fold_writes (now : Z) (rows : list LogEntry.t) :
  forall (aff : list PeriodArchive.t) (acc : list PeriodArchive.t * list Write),
    snd (fold_left (refreshArchive now rows) aff acc)
    = snd acc ++ map (refreshOf now rows) aff.
Proof.
  induction aff as [|a aff IH]; intros acc; cbn [fold_left map].
  - now rewrite app_nil_r.
  - rewrite IH. unfold refreshArchive. cbn [snd].
    now rewrite <- app_assoc.
Qed.

(** A turn of the inner loop either issues one log update or leaves the
    table alone. *)
Lemma processLog_quiet (E : Env) (streak dateStr : Z) (w : WalkState)
    (log : LogEntry.t) :
  exists extra,
    written (processLog E streak dateStr w log) = written w ++ extra
    /\ logUpdates extra = extra
    /\ (extra = [] -> dbLogs (processLog E streak dateStr w log) = dbLogs w).
Proof.
  unfold processLog. destruct (isStale _ _ _).
  - eexists. cbn [written dbLogs]. split; [reflexivity|].
    split; [reflexivity|discriminate].
  - exists []. rewrite app_nil_r. auto.
Qed.

Lemma processLogs_quiet (E : Env) (streak dateStr : Z) (ls : list LogEntry.t) :
  forall w,
    exists extra,
      written (fold_left (processLog E streak dateStr) ls w) = written w ++ extra
      /\ logUpdates extra = extra
      /\ (extra = [] ->
          dbLogs (fold_left (processLog E streak dateStr) ls w) = dbLogs w).
Proof.
  induction ls as [|l ls IH]; intros w; cbn [fold_left].
  - exists []. rewrite app_nil_r. auto.
  - destruct (processLog_quiet E streak dateStr w l) as (e1 & Hw1 & Hl1 & Hq1).
    destruct (IH (processLog E streak dateStr w l)) as (e2 & Hw2 & Hl2 & Hq2).
    exists (e1 ++ e2). split; [now rewrite Hw2, Hw1, app_assoc|].
    split; [now rewrite logUpdates_app, Hl1, Hl2|].
    intros He. apply app_eq_nil in He as [H1 H2].
    now rewrite (Hq2 H2), (Hq1 H1).
Qed.

Lemma processDay_quiet (E : Env) (snap : Snapshot) (currentDate : Z)
    (w : WalkState) :
  exists extra,
    written (processDay E snap currentDate w) = written w ++ extra
    /\ logUpdates extra = extra
    /\ (extra = [] -> dbLogs (processDay E snap currentDate w) = dbLogs w).
Proof. unfold processDay. cbn [written dbLogs]. apply processLogs_quiet. Qed.

Lemma walk_quiet (E : Env) (snap : Snapshot) (today : Z) :
  forall (fuel : nat) (currentDate : Z) (w : WalkState),
    exists extra,
      written (walk E snap today fuel currentDate w) = written w ++ extra
      /\ logUpdates extra = extra
      /\ (extra = [] -> dbLogs (walk E snap today fuel currentDate w) = dbLogs w).
Proof.
  induction fuel as [|fuel IH]; intros currentDate w; cbn [walk].
  - exists []. rewrite app_nil_r. auto.
  - destruct ((currentDate <? today) || isSameDay E currentDate today);
      [|exists []; rewrite app_nil_r; auto].
    destruct (safeGuard w >? 3650);
      [exists []; cbn [bumpGuard written dbLogs]; rewrite app_nil_r; auto|].
    destruct (IH (currentDate + msPerDay) (processDay E snap currentDate (bumpGuard w)))
      as (e2 & Hw2 & Hl2 & Hq2).
    destruct (processDay_quiet E snap currentDate (bumpGuard w))
      as (e1 & Hw1 & Hl1 & Hq1).
    cbn [bumpGuard written dbLogs] in Hw1, Hq1.
    exists (e1 ++ e2). split; [now rewrite Hw2, Hw1, app_assoc|].
    split; [now rewrite logUpdates_app, Hl1, Hl2|].
    intros He. apply app_eq_nil in He as [H1 H2].
    now rewrite (Hq2 H2), (Hq1 H1).
Qed.

(** Without exercise logs in the index the walk writes nothing. *)
Lemma walk_no_exercise (E : Env) (snap : Snapshot) (today : Z) :
  exerciseLogsByDate snap = ∅ ->
  forall (fuel : nat) (currentDate : Z) (w : WalkState),
    written (walk E snap today fuel currentDate w) = written w.
Proof.
  intros Hidx. induction fuel as [|fuel IH]; intros currentDate w; cbn [walk];
    [reflexivity|].
  destruct ((currentDate <? today) || isSameDay E currentDate today); [|reflexivity].
  destruct (safeGuard w >? 3650); [reflexivity|].
  rewrite IH. unfold processDay. rewrite Hidx, lookup_empty. reflexivity.
Qed.

(** The writes of a run are the log updates of its walk followed by one
    archive update for every archive the query selects. *)
Lemma recalc_writes (E : Env) (now t : Z) (st : State) :
  logUpdates (snd (recalcImpactedHistory E now t st))
  = written (walk E (buildSnapshot E now (logs st) (checks st)) (endOfDay E now)
               walkFuel (parseDay E (getVirtualDate E t))
               (mkWalk (logs st) (logMap (buildSnapshot E now (logs st) (checks st)))
                       0 0 [] []))
  /\ snd (recalcImpactedHistory E now t st)
     = logUpdates (snd (recalcImpactedHistory E now t st))
       ++ map (refreshOf now (logs (fst (recalcImpactedHistory E now t st))))
              (archivesEndingFrom (period_archives st) t).
Proof.
  rewrite recalc_unfold. cbv zeta. cbn [fst snd logs].
  rewrite refresh_fold_writes. cbn [snd].
  rewrite logUpdates_app, logUpdates_refreshes, app_nil_r.
  destruct (walk_quiet E (buildSnapshot E now (logs st) (checks st)) (endOfDay E now)
              walkFuel (parseDay E (getVirtualDate E t))
              (mkWalk (logs st) (logMap (buildSnapshot E now (logs st) (checks st)))
                      0 0 [] [])) as (extra & Hw & Hl & _).
  cbn [written app] in Hw. rewrite Hw, Hl. split; reflexivity.
Qed.

(** A run that issues no log update leaves the log table as it is. *)
Lemma recalc_quiet (E : Env) (now t : Z) (st : State) :
  logUpdates (snd (recalcImpactedHistory E now t st)) = [] ->
  logs (fst (recalcImpactedHistory E now t st)) = logs st.
Proof.
  intros Hq. destruct (recalc_writes E now t st) as [Hw _]. rewrite Hw in Hq.
  rewrite recalc_unfold. cbv zeta. cbn [fst logs].
  destruct (walk_quiet E (buildSnapshot E now (logs st) (checks st)) (endOfDay E now)
              walkFuel (parseDay E (getVirtualDate E t))
              (mkWalk (logs st) (logMap (buildSnapshot E now (logs st) (checks st)))
                      0 0 [] [])) as (extra & Hw' & _ & Hd).
  cbn [written dbLogs app] in Hw', Hd. apply Hd. congruence.
Qed.

(** On a ledger whose selected archives mirror the live logs, such a run
    only stamps them again. *)
Lemma recalc_quiet_refresh (E : Env) (now t : Z) (st : State) :
  uniqueArchiveIds st ->
  (forall a, In a (period_archives st) -> t <= PeriodArchive.endDate a ->
             freshContent (logs st) a) ->
  logUpdates (snd (recalcImpactedHistory E now t st)) = [] ->
  recalcImpactedHistory E now t st
  = (withArchives st (map (touchFrom now t) (period_archives st)),
     map (rewriteOf now) (archivesEndingFrom (period_archives st) t)).
Proof.
  intros Hu Hfresh Hq.
  pose proof (recalc_quiet E now t st Hq) as Hlogs.
  destruct (recalc_writes E now t st) as [Hw _]. rewrite Hq in Hw.
  destruct (recalc_logs E now t st) as [Hdb _]. rewrite Hlogs in Hdb.
  rewrite startOfDay_parseDay in Hdb.
  rewrite recalc_unfold. cbv zeta. rewrite <- Hw, <- Hdb.
  rewrite refresh_fold_touch.
  - cbn [app]. unfold withArchives. do 2 f_equal.
    apply map_ext_in. intros r Hr. unfold touchFrom.
    now rewrite existsb_archivesEndingFrom.
  - exact Hu.
  - now apply archivesEndingFrom_ids.
  - intros x Hx. unfold archivesEndingFrom in Hx.
    apply In_sortOn, filter_In in Hx as [Hx Hend]. split; [exact Hx|].
    apply Hfresh; [exact Hx|now apply Z.leb_le].
Qed.

Lemma endOfDay_same_day (E : Env) (now now' : Z) :
  formatDay E now' = formatDay E now -> endOfDay E now' = endOfDay E now.
Proof. intros H. unfold endOfDay. now rewrite !startOfDay_formatDay, H. Qed.

(** A run that found no log to update finds none when it is repeated
    later on the same calendar day. *)
Lemma recalc_quiet_again (E : Env) (now now' t : Z) (st : State) :
  formatDay E now' = formatDay E now ->
  logUpdates (snd (recalcImpactedHistory E now t st)) = [] ->
  logUpdates (snd (recalcImpactedHistory E now' t
                     (fst (recalcImpactedHistory E now t st)))) = [].
Proof.
  intros Hday Hq.
  pose proof (recalc_quiet E now t st Hq) as Hlogs.
  destruct (recalc_logs E now t st) as (_ & Hchecks & _).
  destruct (recalc_writes E now t st) as [Hw _]. rewrite Hq in Hw.
  destruct (recalc_writes E now' t (fst (recalcImpactedHistory E now t st)))
    as [Hw' _].
  rewrite Hw', Hlogs, Hchecks, (endOfDay_same_day E now now' Hday).
  destruct (logs st) as [|l ls] eqn:Hrows.
  - apply walk_no_exercise. now rewrite buildSnapshot_fields.
  - replace (buildSnapshot E now' (l :: ls) (checks st))
      with (buildSnapshot E now (l :: ls) (checks st))
      by (now rewrite !buildSnapshot_fields).
    now rewrite <- Hw.
Qed.

(** C1 (as amended).  A second run with the same [t] and no mutation in
    between is not free of writes.  Its writes are the log updates of its
    walk followed by one archive update for every archive with
    [endDate >= t], whatever the first run left (the refresh is
    unconditional).  When its walk issues no log update, the second run
    leaves logs, checks and settings as the first run left them and stores
    in each of these archives the [logs] and [totalBalance] the archive
    already holds; only their [updatedAt] changes.  And when the first run
    issued no log update, a second run later on the same calendar day issues
    none either. *)
Theorem second_recalc_refreshes_archives (E : Env) (now now' t : Z) (st : State) :
  uniqueArchiveIds st ->
  let r1 := recalcImpactedHistory E now t st in
  let st1 := fst r1 in
  let r2 := recalcImpactedHistory E now' t st1 in
  let affected := archivesEndingFrom (period_archives st1) t in
  snd r2 = logUpdates (snd r2) ++ map (refreshOf now' (logs (fst r2))) affected
  /\ (logUpdates (snd r2) = [] ->
      r2 = (withArchives st1 (map (touchFrom now' t) (period_archives st1)),
            map (rewriteOf now') affected))
  /\ (formatDay E now' = formatDay E now ->
      logUpdates (snd r1) = [] -> logUpdates (snd r2) = []).
Proof.
  intros Hu r1 st1 r2 affected.
  split; [apply recalc_writes|]. split.
  - apply recalc_quiet_refresh.
    + unfold uniqueArchiveIds, st1, r1. rewrite recalc_archive_ids. exact Hu.
    + intros a Ha Hend. apply (freshFor_content now).
      now apply recalc_fresh_archives.
  - apply recalc_quiet_again.
Qed.

Lemma second_recalc_refreshes_archives_witness :
  let r1 := recalcImpactedHistory sampleEnv (5 * msPerDay) (2 * msPerDay)
              sealedLedger in
  let st1 := fst r1 in
  let r2 := recalcImpactedHistory sampleEnv (5 * msPerDay + msPerHour)
              (2 * msPerDay) st1 in
  let affected := archivesEndingFrom (period_archives st1) (2 * msPerDay) in
  snd r2 = logUpdates (snd r2)
           ++ map (refreshOf (5 * msPerDay + msPerHour) (logs (fst r2))) affected
  /\ (logUpdates (snd r2) = [] ->
      r2 = (withArchives st1
              (map (touchFrom (5 * msPerDay + msPerHour) (2 * msPerDay))
                   (period_archives st1)),
            map (rewriteOf (5 * msPerDay + msPerHour)) affected))
  /\ (formatDay sampleEnv (5 * msPerDay + msPerHour) = formatDay sampleEnv (5 * msPerDay) ->
      logUpdates (snd r1) = [] -> logUpdates (snd r2) = []).
Proof.
  refine (second_recalc_refreshes_archives sampleEnv (5 * msPerDay)
            (5 * msPerDay + msPerHour) (2 * msPerDay) sealedLedger _).
  unfold uniqueArchiveIds. apply (bool_decide_unpack _). vm_compute. exact I.
Defined.

(** C1, the claim as stated fails: on the sealed sample ledger the first
    run rewrites two exercise logs and the archive; the second run, with
    nothing changed in between, still writes the archive. *)
Lemma second_recalc_counterexample :
  ~ (forall (E : Env) (now t : Z) (st : State),
        snd (recalcImpactedHistory E now t
               (fst (recalcImpactedHistory E now t st))) = []).
Proof.
  intros H.
  specialize (H sampleEnv (5 * msPerDay) (2 * msPerDay) sealedLedger).
  vm_compute in H. discriminate.
Qed.

(** The writes of the two runs on the sealed sample ledger. *)
Example second_recalc_writes :
  let r1 := recalcImpactedHistory sampleEnv (5 * msPerDay) (2 * msPerDay) sealedLedger in
  let r2 := recalcImpactedHistory sampleEnv (5 * msPerDay) (2 * msPerDay) (fst r1) in
  map (fun w => match w with
                | LogUpdate i _ _ => (0, i)
                | ArchiveUpdate i _ _ _ => (1, i)
                end) (snd r1) = [(0, 2); (0, 3); (1, 1)]
  /\ map (fun w => match w with
                   | LogUpdate i _ _ => (0, i)
                   | ArchiveUpdate i _ _ _ => (1, i)
                   end) (snd r2) = [(1, 1)]
  /\ fst r2 = fst r1.
Proof. vm_compute. repeat split; reflexivity. Qed.

(** The second walk can find a log to update.  The first scan counts a
    log without kcal by its computed burn, and the walk then adds its whole
    credit on top, so the day is counted twice until the next run rebuilds
    the map.  On [unratedLedger] the first run sees day 1 at +20 and grants
    day 2 a streak; the second run sees day 1 at -40 and takes the bonus
    back. *)
Example missing_kcal_counted_twice :
  let r1 := recalcImpactedHistory sampleEnv (3 * msPerDay) (1 * msPerDay + 8 * msPerHour)
              unratedLedger in
  let r2 := recalcImpactedHistory sampleEnv (3 * msPerDay) (1 * msPerDay + 8 * msPerHour)
              (fst r1) in
  snd r1 = [LogUpdate 2 60000 ""; LogUpdate 3 72000 "Streak Bonus x1.2"]
  /\ snd r2 = [LogUpdate 3 60000 ""].
Proof. vm_compute. split; reflexivity. Qed.

(** * More of the service *)

(** ** Duplicate resolution on any input *)

Lemma accLookup_accStore (acc : list (Z * CheckEntry.t)) (k d : Z) (v : CheckEntry.t) :
  accLookup (accStore acc k v) d = if k =? d then Some v else accLookup acc d.
Proof.
  induction acc as [|[k' v'] acc IH]; cbn [accStore accLookup].
  - reflexivity.
  - destruct (k' =? k) eqn:Hk; cbn [accLookup].
    + apply Z.eqb_eq in Hk. subst k'. now destruct (k =? d).
    + rewrite IH. destruct (k' =? d) eqn:Hd; [|reflexivity].
      apply Z.eqb_eq in Hd. subst k'. rewrite Z.eqb_sym in Hk. now rewrite Hk.
Qed.

Lemma accLookup_None (acc : list (Z * CheckEntry.t)) (k : Z) :
  accLookup acc k = None <-> ~ In k (map fst acc).
Proof.
  induction acc as [|[k' v'] acc IH]; cbn [accLookup map fst In].
  - tauto.
  - destruct (k' =? k) eqn:Hk.
    + apply Z.eqb_eq in Hk. split; [discriminate|]. intros H. exfalso. apply H. now left.
    + apply Z.eqb_neq in Hk. rewrite IH. tauto.
Qed.

Lemma accStore_keys (acc : list (Z * CheckEntry.t)) (k : Z) (v : CheckEntry.t) :
  map fst (accStore acc k v)
  = match accLookup acc k with
    | Some _ => map fst acc
    | None => map fst acc ++ [k]
    end.
Proof.
  induction acc as [|[k' v'] acc IH]; cbn [accStore accLookup map fst app].
  - reflexivity.
  - destruct (k' =? k) eqn:Hk; cbn [map fst]; [reflexivity|].
    rewrite IH. now destruct (accLookup acc k).
Qed.

Lemma accStore_absent (acc : list (Z * CheckEntry.t)) (k : Z) (v : CheckEntry.t) :
  accLookup acc k = None -> accStore acc k v = acc ++ [(k, v)].
Proof.
  induction acc as [|[k' v'] acc IH]; cbn [accStore accLookup app]; [reflexivity|].
  destruct (k' =? k); [discriminate|]. intros H. now rewrite IH.
Qed.

Lemma accLookup_In (acc : list (Z * CheckEntry.t)) (k : Z) (v : CheckEntry.t) :
  NoDup (map fst acc) -> In (k, v) acc -> accLookup acc k = Some v.
Proof.
  induction acc as [|[k' v'] acc IH]; cbn [accLookup map fst In]; [tauto|].
  intros Hnd [Heq|Hin].
  - injection Heq as -> ->. now rewrite Z.eqb_refl.
  - apply NoDup_cons in Hnd as [Hk Hnd].
    destruct (k' =? k) eqn:Hkk; [|now apply IH].
    apply Z.eqb_eq in Hkk. subst k'. exfalso. apply Hk.
    apply list_elem_of_In. apply in_map_iff. now exists (k, v).
Qed.

Lemma find_snoc {A : Type} (f : A -> bool) (l : list A) (x : A) :
  List.find f (l ++ [x])
  = match List.find f l with
    | Some y => Some y
    | None => if f x then Some x else None
    end.
Proof.
  induction l as [|y l IH]; cbn [List.find app]; [reflexivity|].
  now destruct (f y).
Qed.

Lemma dayWinner_snoc (cs : list CheckEntry.t) (c : CheckEntry.t) :
  dayWinner (cs ++ [c])
  = match dayWinner cs with
    | None => Some c
    | Some r =>
        if negb (CheckEntry.isSaved r) && CheckEntry.isSaved c then Some c else Some r
    end.
Proof.
  unfold dayWinner. rewrite find_snoc.
  destruct (List.find CheckEntry.isSaved cs) as [s|] eqn:Hf.
  - apply find_some in Hf as [_ Hs]. now rewrite Hs.
  - destruct cs as [|r cs]; cbn [List.head app].
    + now destruct (CheckEntry.isSaved c).
    + assert (Hr : CheckEntry.isSaved r = false).
      { eapply find_none in Hf; [exact Hf|now left]. }
      rewrite Hr. cbn [negb andb]. now destruct (CheckEntry.isSaved c).
Qed.

Lemma checksOn_snoc (E : Env) (d : Z) (cs : list CheckEntry.t) (c : CheckEntry.t) :
  checksOn E d (cs ++ [c])
  = checksOn E d cs
    ++ (if formatDay E (CheckEntry.timestamp c) =? d then [c] else []).
Proof.
  unfold checksOn. rewrite List.filter_app. cbn [List.filter].
  now destruct (formatDay E (CheckEntry.timestamp c) =? d).
Qed.

(** The accumulator after a prefix [p] of the input: one entry per date of
    [p], holding the record [dayWinner] picks among the records of that
    date. *)
Lemma dedup_fold_winners (E : Env) (rest : list CheckEntry.t) :
  forall (p : list CheckEntry.t) (acc : list (Z * CheckEntry.t)),
    NoDup (map fst acc) ->
    (forall d, accLookup acc d = dayWinner (checksOn E d p)) ->
    NoDup (map fst (fold_left (dedupStep E) rest acc))
    /\ (forall d, accLookup (fold_left (dedupStep E) rest acc) d
                  = dayWinner (checksOn E d (p ++ rest))).
Proof.
  induction rest as [|c rest IH]; intros p acc Hnd Hlk.
  - rewrite app_nil_r. now split.
  - cbn [fold_left].
    replace (p ++ c :: rest) with ((p ++ [c]) ++ rest) by now rewrite <- app_assoc.
    apply IH.
    + unfold dedupStep.
      destruct (accLookup acc (formatDay E (CheckEntry.timestamp c))) as [old|] eqn:Ho.
      * destruct (negb (CheckEntry.isSaved old) && CheckEntry.isSaved c); [|exact Hnd].
        rewrite accStore_keys, Ho. exact Hnd.
      * rewrite accStore_keys, Ho. apply NoDup_app. split; [exact Hnd|].
        split; [|apply NoDup_singleton].
        intros x Hx Hx'. apply list_elem_of_In in Hx, Hx'.
        destruct Hx' as [<-|[]]. now apply accLookup_None in Ho.
    + intros d. rewrite checksOn_snoc. unfold dedupStep.
      destruct (formatDay E (CheckEntry.timestamp c) =? d) eqn:Hd.
      * apply Z.eqb_eq in Hd. rewrite dayWinner_snoc, <- Hlk, <- Hd.
        destruct (accLookup acc (formatDay E (CheckEntry.timestamp c))) as [old|] eqn:Ho.
        -- destruct (negb (CheckEntry.isSaved old) && CheckEntry.isSaved c).
           ++ now rewrite accLookup_accStore, Z.eqb_refl.
           ++ exact Ho.
        -- now rewrite accLookup_accStore, Z.eqb_refl.
      * rewrite app_nil_r, <- Hlk.
        destruct (accLookup acc (formatDay E (CheckEntry.timestamp c))) as [old|] eqn:Ho.
        -- destruct (negb (CheckEntry.isSaved old) && CheckEntry.isSaved c); [|reflexivity].
           now rewrite accLookup_accStore, Hd.
        -- now rewrite accLookup_accStore, Hd.
Qed.

Lemma dayWinner_None (cs : list CheckEntry.t) : dayWinner cs = None <-> cs = [].
Proof.
  unfold dayWinner. split.
  - destruct (List.find CheckEntry.isSaved cs); [discriminate|].
    now destruct cs.
  - now intros ->.
Qed.

Lemma In_checksOn (E : Env) (d : Z) (cs : list CheckEntry.t) (c : CheckEntry.t) :
  In c (checksOn E d cs) <-> In c cs /\ formatDay E (CheckEntry.timestamp c) = d.
Proof. unfold checksOn. rewrite filter_In, Z.eqb_eq. tauto. Qed.

(** Every entry of the final accumulator is filed under the date of its
    record. *)
Lemma dedup_fold_entries (E : Env) (cs : list CheckEntry.t) (d : Z) (r : CheckEntry.t) :
  In (d, r) (fold_left (dedupStep E) cs []) ->
  dayWinner (checksOn E d cs) = Some r
  /\ formatDay E (CheckEntry.timestamp r) = d /\ In r cs.
Proof.
  intros Hin.
  destruct (dedup_fold_winners E cs [] []) as [Hnd Hlk];
    [apply NoDup_nil_2 | reflexivity |].
  cbn [app] in Hlk.
  assert (Hw : dayWinner (checksOn E d cs) = Some r).
  { rewrite <- Hlk. now apply accLookup_In. }
  split; [exact Hw|].
  apply dayWinner_In, In_checksOn in Hw. tauto.
Qed.

Lemma dedup_dates (E : Env) (cs : list CheckEntry.t) :
  map (fun r => formatDay E (CheckEntry.timestamp r)) (_deduplicateChecks E cs)
  = map fst (fold_left (dedupStep E) cs []).
Proof.
  unfold _deduplicateChecks. rewrite map_map.
  apply map_ext_in. intros [d r] Hin. cbn [fst snd].
  now apply dedup_fold_entries in Hin.
Qed.

Lemma firstDates_ext (E : Env) (cs : list CheckEntry.t) :
  forall s1 s2 : list Z,
    (forall d, In d s1 <-> In d s2) -> firstDates E cs s1 = firstDates E cs s2.
Proof.
  induction cs as [|c cs IH]; intros s1 s2 Hs; cbn [firstDates]; [reflexivity|].
  assert (He : existsb (Z.eqb (formatDay E (CheckEntry.timestamp c))) s1
               = existsb (Z.eqb (formatDay E (CheckEntry.timestamp c))) s2).
  { apply eq_true_iff_eq. rewrite !existsb_exists.
    split; intros [x [Hx Hd]]; exists x; (split; [now apply Hs|exact Hd]). }
  rewrite He. destruct (existsb _ s2).
  - now apply IH.
  - f_equal. apply IH. intros d. cbn [In]. rewrite Hs. tauto.
Qed.

Lemma dedup_fold_keys (E : Env) (cs : list CheckEntry.t) :
  forall acc : list (Z * CheckEntry.t),
    map fst (fold_left (dedupStep E) cs acc)
    = map fst acc ++ firstDates E cs (map fst acc).
Proof.
  induction cs as [|c cs IH]; intros acc; cbn [fold_left firstDates].
  - now rewrite app_nil_r.
  - rewrite IH. unfold dedupStep.
    destruct (accLookup acc (formatDay E (CheckEntry.timestamp c))) as [old|] eqn:Ho.
    + assert (Hex : existsb (Z.eqb (formatDay E (CheckEntry.timestamp c))) (map fst acc)
                    = true).
      { apply existsb_exists. exists (formatDay E (CheckEntry.timestamp c)).
        split; [|apply Z.eqb_refl].
        destruct (in_dec Z.eq_dec (formatDay E (CheckEntry.timestamp c)) (map fst acc))
          as [Hi|Hn]; [exact Hi|].
        apply accLookup_None in Hn. congruence. }
      rewrite Hex.
      destruct (negb (CheckEntry.isSaved old) && CheckEntry.isSaved c); [|reflexivity].
      now rewrite accStore_keys, Ho.
    + assert (Hex : existsb (Z.eqb (formatDay E (CheckEntry.timestamp c))) (map fst acc)
                    = false).
      { apply not_true_is_false. intros Hex. apply existsb_exists in Hex as [x [Hx He]].
        apply Z.eqb_eq in He. subst x. now apply accLookup_None in Ho. }
      rewrite Hex, accStore_keys, Ho, <- app_assoc. cbn [app]. do 2 f_equal.
      apply firstDates_ext. intros d. rewrite in_app_iff. cbn [In]. tauto.
Qed.

(** X1.  [_deduplicateChecks] on any input: the result lists the calendar
    dates of the input once each, in the order of their first record; it
    has a record for a date exactly when the input has one; and the record
    kept for a date comes from the input and is the first saved record of
    that date, or its first record when none is saved. *)
Theorem dedup_one_record_per_date (E : Env) (rawChecks : list CheckEntry.t) :
  let date := fun r => formatDay E (CheckEntry.timestamp r) in
  let out := _deduplicateChecks E rawChecks in
  NoDup (map date out)
  /\ map date out = firstDates E rawChecks []
  /\ (forall d, In d (map date out) <-> In d (map date rawChecks))
  /\ (forall r, In r out ->
        In r rawChecks /\ dayWinner (checksOn E (date r) rawChecks) = Some r).
Proof.
  intros date out.
  destruct (dedup_fold_winners E rawChecks [] []) as [Hnd Hlk];
    [apply NoDup_nil_2 | reflexivity |].
  cbn [app] in Hlk.
  assert (Hd : map date out = map fst (fold_left (dedupStep E) rawChecks []))
    by apply dedup_dates.
  split; [now rewrite Hd|].
  split; [rewrite Hd; apply (dedup_fold_keys E rawChecks [])|].
  split.
  - intros d. rewrite Hd.
    destruct (in_dec Z.eq_dec d (map fst (fold_left (dedupStep E) rawChecks [])))
      as [Hi|Hn].
    + split; [intros _|now intros _].
      destruct (accLookup (fold_left (dedupStep E) rawChecks []) d) as [r|] eqn:Hr.
      * rewrite Hlk in Hr. apply dayWinner_In, In_checksOn in Hr as [Hr <-].
        exact (in_map date _ _ Hr).
      * now apply accLookup_None in Hr.
    + split; [tauto|]. intros Hin. exfalso.
      apply accLookup_None in Hn. rewrite Hlk in Hn. apply dayWinner_None in Hn.
      apply in_map_iff in Hin as [c [Hc Hin]].
      assert (Hin' : In c (checksOn E d rawChecks)) by now apply In_checksOn.
      now rewrite Hn in Hin'.
  - intros r Hr. unfold out, _deduplicateChecks in Hr.
    apply in_map_iff in Hr as [[d r'] [Heq Hin]]. cbn [snd] in Heq. subst r'.
    apply dedup_fold_entries in Hin as [Hw [Hdate Hin]].
    split; [exact Hin|]. unfold date. now rewrite Hdate.
Qed.

Lemma dedup_fold_distinct (E : Env) (cs : list CheckEntry.t) :
  forall acc : list (Z * CheckEntry.t),
    NoDup (map fst acc ++ map (fun r => formatDay E (CheckEntry.timestamp r)) cs) ->
    fold_left (dedupStep E) cs acc
    = acc ++ map (fun r => (formatDay E (CheckEntry.timestamp r), r)) cs.
Proof.
  induction cs as [|c cs IH]; intros acc Hnd; cbn [fold_left map].
  - now rewrite app_nil_r.
  - assert (Ho : accLookup acc (formatDay E (CheckEntry.timestamp c)) = None).
    { apply accLookup_None. intros Hin. cbn [map] in Hnd.
      apply NoDup_app in Hnd as (_ & Hdis & _).
      apply (Hdis (formatDay E (CheckEntry.timestamp c))).
      - now apply list_elem_of_In.
      - left. }
    unfold dedupStep at 2. rewrite Ho, accStore_absent by exact Ho.
    rewrite IH.
    + now rewrite <- app_assoc.
    + rewrite map_app. cbn [map fst]. rewrite <- app_assoc. exact Hnd.
Qed.

(** X2.  [_deduplicateChecks] changes nothing when no two records share a
    calendar date, and so running it on its own result gives that result
    back. *)
Theorem dedup_idempotent (E : Env) (rawChecks : list CheckEntry.t) :
  (NoDup (map (fun r => formatDay E (CheckEntry.timestamp r)) rawChecks) ->
   _deduplicateChecks E rawChecks = rawChecks)
  /\ _deduplicateChecks E (_deduplicateChecks E rawChecks)
     = _deduplicateChecks E rawChecks.
Proof.
  assert (Hid : forall cs,
             NoDup (map (fun r => formatDay E (CheckEntry.timestamp r)) cs) ->
             _deduplicateChecks E cs = cs).
  { intros cs Hnd. unfold _deduplicateChecks.
    rewrite (dedup_fold_distinct E cs []) by exact Hnd.
    cbn [app]. rewrite map_map. cbn [snd]. apply map_id. }
  split; [apply Hid|]. apply Hid.
  rewrite dedup_dates.
  destruct (dedup_fold_winners E rawChecks [] []) as [Hnd _];
    [apply NoDup_nil_2 | reflexivity | exact Hnd].
Qed.

(** ** Weeks *)

Lemma formatDay_shift (E : Env) (ts k : Z) :
  formatDay E (ts + k * msPerDay) = formatDay E ts + k.
Proof.
  unfold formatDay, msPerDay.
  replace (ts + k * 86400000 + tzOffset E) with (ts + tzOffset E + k * 86400000) by lia.
  apply Z.div_add. lia.
Qed.

(** The week of [date] opens on the day [(n + 3) mod 7] days before its
    calendar day [n]. *)
Lemma getStartOfWeek_parseDay (E : Env) (date : Z) :
  getStartOfWeek E date
  = parseDay E (formatDay E date - (formatDay E date + 3) mod 7).
Proof.
  unfold getStartOfWeek, weekday.
  rewrite startOfDay_formatDay.
  replace (date - ((if (formatDay E date + 4) mod 7 =? 0 then 7
                    else (formatDay E date + 4) mod 7) - 1) * msPerDay)
    with (date + (- ((if (formatDay E date + 4) mod 7 =? 0 then 7
                      else (formatDay E date + 4) mod 7) - 1)) * msPerDay) by lia.
  rewrite formatDay_shift. unfold parseDay. do 2 f_equal.
  pose proof (Z.mod_pos_bound (formatDay E date + 4) 7 ltac:(lia)) as Hb.
  pose proof (Z.div_mod (formatDay E date + 4) 7 ltac:(lia)) as Hd.
  destruct ((formatDay E date + 4) mod 7 =? 0) eqn:H0.
  - apply Z.eqb_eq in H0.
    assert (Hm : (formatDay E date + 3) mod 7 = 6).
    { symmetry. apply Z.mod_unique with (q := (formatDay E date + 4) / 7 - 1); lia. }
    lia.
  - apply Z.eqb_neq in H0.
    assert (Hm : (formatDay E date + 3) mod 7 = (formatDay E date + 4) mod 7 - 1).
    { symmetry. apply Z.mod_unique with (q := (formatDay E date + 4) / 7); lia. }
    lia.
Qed.

Lemma parseDay_le (E : Env) (d ts : Z) : parseDay E d <= ts <-> d <= formatDay E ts.
Proof.
  unfold parseDay, formatDay, msPerDay.
  pose proof (Z.mod_pos_bound (ts + tzOffset E) 86400000 ltac:(lia)) as Hb.
  pose proof (Z.div_mod (ts + tzOffset E) 86400000 ltac:(lia)) as Hd.
  lia.
Qed.

Lemma parseDay_gt (E : Env) (d ts : Z) : ts < parseDay E d <-> formatDay E ts < d.
Proof. pose proof (parseDay_le E d ts). lia. Qed.

(** X3.  [getStartOfWeek] cuts the calendar into weeks: its result is
    the local midnight of a Monday, it is not after [date], its calendar
    day is the day of [date] or one of the six days before it, and every
    instant whose calendar day is that Monday or one of the six days after
    it has the same week start. *)
Theorem getStartOfWeek_opens_week (E : Env) (date : Z) :
  let s := getStartOfWeek E date in
  weekday E s = 1
  /\ startOfDay E s = s
  /\ s <= date
  /\ formatDay E date - 6 <= formatDay E s <= formatDay E date
  /\ (forall t, formatDay E s <= formatDay E t <= formatDay E s + 6 ->
                getStartOfWeek E t = s).
Proof.
  intros s.
  pose proof (Z.mod_pos_bound (formatDay E date + 3) 7 ltac:(lia)) as Hb.
  pose proof (Z.div_mod (formatDay E date + 3) 7 ltac:(lia)) as Hd.
  assert (Hs : s = parseDay E (formatDay E date - (formatDay E date + 3) mod 7))
    by apply getStartOfWeek_parseDay.
  assert (Hfs : formatDay E s = formatDay E date - (formatDay E date + 3) mod 7)
    by (rewrite Hs; apply formatDay_parseDay).
  split.
  { unfold weekday. rewrite Hfs. symmetry.
    apply Z.mod_unique with (q := (formatDay E date + 3) / 7); lia. }
  split.
  { rewrite Hs. apply startOfDay_parseDay. }
  split.
  { rewrite Hs. apply parseDay_le. lia. }
  split; [lia|].
  intros t [Hlo Hhi].
  rewrite getStartOfWeek_parseDay, Hs. f_equal.
  assert (Hm : (formatDay E t + 3) mod 7
               = formatDay E t - (formatDay E date - (formatDay E date + 3) mod 7)).
  { symmetry. apply Z.mod_unique with (q := (formatDay E date + 3) / 7); lia. }
  lia.
Qed.

(** ** Rollover, any mode *)

Lemma withLocalStorage_same (st : State) :
  withLocalStorage st (localStorage st) = st.
Proof. now destruct st. Qed.

Lemma setPeriodStart_same (ls : LocalStorage) (v : Z) :
  PERIOD_START ls = Some v -> setPeriodStart ls v = ls.
Proof. destruct ls. cbn. now intros ->. Qed.

Lemma archiveAndReset_frame (now currentStart nextStart : Z) (mode : Mode) (st : State) :
  let st' := archiveAndReset now currentStart nextStart mode st in
  logs st' = logs st
  /\ logsKeyGen st' = logsKeyGen st
  /\ checks st' = checks st
  /\ localStorage st' = setPeriodStart (localStorage st) nextStart
  /\ (period_archives st' = period_archives st
      \/ period_archives st'
         = period_archives st
           ++ [PeriodArchive.mk (archivesKeyGen st) currentStart (nextStart - 1) mode
                 (sumKcal (logsBelow (logs st) nextStart))
                 (logsBelow (logs st) nextStart) now None]).
Proof.
  cbv zeta. rewrite archiveAndReset_cases.
  destruct (logsBelow (logs st) nextStart) as [|l ls] eqn:Hb.
  - cbn. tauto.
  - destruct (List.find _ (period_archives st)).
    + cbn. tauto.
    + cbn. repeat split; try reflexivity. now right.
Qed.

(** X4.  [checkPeriodRollover] never deletes or edits a log or a check
    record and never changes the stored mode; it leaves the archives as they
    are or appends one archive, and it appends one only when it reports a
    rollover. *)
Theorem rollover_keeps_records (E : Env) (now : Z) (st : State) :
  let r := checkPeriodRollover E now st in
  logs (snd r) = logs st
  /\ checks (snd r) = checks st
  /\ PERIOD_MODE (localStorage (snd r)) = PERIOD_MODE (localStorage st)
  /\ (period_archives (snd r) = period_archives st
      \/ (fst r = true
          /\ exists a, period_archives (snd r) = period_archives st ++ [a])).
Proof.
  cbv zeta. unfold checkPeriodRollover.
  destruct (Mode_eqb _ permanent); [cbn; tauto|].
  destruct (orDefault (PERIOD_START (localStorage st)) 0 =? 0); [cbn; tauto|].
  destruct (default (defaultPeriodMode E) (PERIOD_MODE (localStorage st))).
  - destruct (negb _); [|cbn; tauto]. cbn [fst snd].
    destruct (archiveAndReset_frame now (orDefault (PERIOD_START (localStorage st)) 0)
                (getStartOfWeek E now) weekly st) as (H1 & _ & H2 & H3 & H4).
    rewrite H1, H2, H3. repeat split; try reflexivity.
    destruct H4 as [H4|H4]; [now left|right]. split; [reflexivity|eauto].
  - destruct (negb _); [|cbn; tauto]. cbn [fst snd].
    destruct (archiveAndReset_frame now (orDefault (PERIOD_START (localStorage st)) 0)
                (startOfMonth E now) monthly st) as (H1 & _ & H2 & H3 & H4).
    rewrite H1, H2, H3. repeat split; try reflexivity.
    destruct H4 as [H4|H4]; [now left|right]. split; [reflexivity|eauto].
  - destruct (_ && _); cbn; tauto.
  - cbn; tauto.
Qed.

Lemma rollover_in_period (E : Env) (now : Z) (mode : Mode) (st : State) :
  mode = weekly \/ mode = monthly ->
  PERIOD_MODE (localStorage st) = Some mode ->
  PERIOD_START (localStorage st) = Some (calculatePeriodStart E now mode) ->
  checkPeriodRollover E now st = (false, st).
Proof.
  intros Hmode Hm Hs. unfold checkPeriodRollover. rewrite Hm, Hs.
  cbn [default from_option]. unfold id.
  assert (Hp : Mode_eqb mode permanent = false) by (destruct Hmode; now subst).
  rewrite Hp.
  destruct (orDefault (Some (calculatePeriodStart E now mode)) 0 =? 0) eqn:H0.
  - apply Z.eqb_eq in H0.
    assert (Hc : calculatePeriodStart E now mode = 0).
    { unfold orDefault in H0. now destruct (calculatePeriodStart E now mode). }
    rewrite setPeriodStart_same by now rewrite Hs.
    now rewrite withLocalStorage_same.
  - assert (Ho : orDefault (Some (calculatePeriodStart E now mode)) 0
                 = calculatePeriodStart E now mode).
    { unfold orDefault in *. now destruct (calculatePeriodStart E now mode). }
    rewrite Ho.
    destruct Hmode; subst mode; cbn [calculatePeriodStart];
      unfold isSameDay; now rewrite Z.eqb_refl.
Qed.

(** X5.  An automatic rollover happens once per period: in weekly or
    monthly mode, when the stored period start is not on the day the
    current period starts, [checkPeriodRollover] reports a rollover and
    moves the stored start to the current period start; a further call at
    any instant of the same period reports nothing and changes nothing. *)
Theorem rollover_once_per_period (E : Env) (now now' s : Z) (mode : Mode) (st : State) :
  mode = weekly \/ mode = monthly ->
  PERIOD_MODE (localStorage st) = Some mode ->
  PERIOD_START (localStorage st) = Some s ->
  s <> 0 ->
  formatDay E (calculatePeriodStart E now mode) <> formatDay E s ->
  calculatePeriodStart E now' mode = calculatePeriodStart E now mode ->
  let r := checkPeriodRollover E now st in
  fst r = true
  /\ snd r = archiveAndReset now s (calculatePeriodStart E now mode) mode st
  /\ PERIOD_START (localStorage (snd r)) = Some (calculatePeriodStart E now mode)
  /\ checkPeriodRollover E now' (snd r) = (false, snd r).
Proof.
  intros Hmode Hm Hs Hs0 Hday Hsame r.
  assert (Hr : r = (true, archiveAndReset now s (calculatePeriodStart E now mode) mode st)).
  { unfold r, checkPeriodRollover. rewrite Hm, Hs.
    cbn [default from_option]. unfold id.
    assert (Hp : Mode_eqb mode permanent = false) by (destruct Hmode; now subst).
    rewrite Hp.
    assert (Ho : orDefault (Some s) 0 = s) by (unfold orDefault; now destruct s).
    rewrite Ho. apply Z.eqb_neq in Hs0. rewrite Hs0.
    apply Z.eqb_neq in Hday.
    destruct Hmode; subst mode; cbn [calculatePeriodStart] in *;
      unfold isSameDay; now rewrite Hday. }
  rewrite Hr. cbn [fst snd].
  destruct (archiveAndReset_frame now s (calculatePeriodStart E now mode) mode st)
    as (_ & _ & _ & Hls & _).
  split; [reflexivity|]. split; [reflexivity|].
  split; [now rewrite Hls|].
  apply rollover_in_period with (mode := mode).
  - exact Hmode.
  - now rewrite Hls.
  - now rewrite Hls, Hsame.
Qed.

Lemma rollover_once_per_period_witness :
  let r := checkPeriodRollover sampleEnv (4 * msPerDay + 9 * msPerHour) sampleLedger in
  fst r = true
  /\ snd r = archiveAndReset (4 * msPerDay + 9 * msPerHour) (-3 * msPerDay)
               (calculatePeriodStart sampleEnv (4 * msPerDay + 9 * msPerHour) weekly)
               weekly sampleLedger
  /\ PERIOD_START (localStorage (snd r))
     = Some (calculatePeriodStart sampleEnv (4 * msPerDay + 9 * msPerHour) weekly)
  /\ checkPeriodRollover sampleEnv (6 * msPerDay) (snd r) = (false, snd r).
Proof.
  apply (rollover_once_per_period sampleEnv (4 * msPerDay + 9 * msPerHour)
           (6 * msPerDay) (-3 * msPerDay) weekly sampleLedger).
  - now left.
  - reflexivity.
  - reflexivity.
  - discriminate.
  - vm_compute. discriminate.
  - vm_compute. reflexivity.
Defined.

(** ** Period settings *)

(** X6.  Switching to weekly or monthly mode touches no table and restores
    nothing; it stores the mode and the start of the current period, so a
    rollover check at any instant of that period reports nothing and
    changes nothing. *)
Theorem switch_to_automatic_mode (E : Env) (now now' : Z) (newMode : Mode)
    (customData : CustomData) (st : State) :
  newMode = weekly \/ newMode = monthly ->
  calculatePeriodStart E now' newMode = calculatePeriodStart E now newMode ->
  let r := updatePeriodSettings E now newMode customData st in
  snd r = 0
  /\ logs (fst r) = logs st
  /\ checks (fst r) = checks st
  /\ period_archives (fst r) = period_archives st
  /\ PERIOD_MODE (localStorage (fst r)) = Some newMode
  /\ PERIOD_START (localStorage (fst r)) = Some (calculatePeriodStart E now newMode)
  /\ checkPeriodRollover E now' (fst r) = (false, fst r).
Proof.
  intros Hmode Hsame r.
  assert (Hr : r = (withLocalStorage
                      (withLocalStorage st (setPeriodMode (localStorage st) newMode))
                      (setPeriodStart (setPeriodMode (localStorage st) newMode)
                         (calculatePeriodStart E now newMode)), 0)).
  { unfold r, updatePeriodSettings. destruct Hmode; subst newMode; reflexivity. }
  rewrite Hr. cbn [fst snd].
  repeat (split; [reflexivity|]).
  apply rollover_in_period with (mode := newMode).
  - exact Hmode.
  - reflexivity.
  - cbn. now rewrite Hsame.
Qed.

Lemma switch_to_automatic_mode_witness :
  let r := updatePeriodSettings sampleEnv (8 * msPerDay) monthly noCustomData
             sampleLedger in
  snd r = 0
  /\ logs (fst r) = logs sampleLedger
  /\ checks (fst r) = checks sampleLedger
  /\ period_archives (fst r) = period_archives sampleLedger
  /\ PERIOD_MODE (localStorage (fst r)) = Some monthly
  /\ PERIOD_START (localStorage (fst r))
     = Some (calculatePeriodStart sampleEnv (8 * msPerDay) monthly)
  /\ checkPeriodRollover sampleEnv (20 * msPerDay) (fst r) = (false, fst r).
Proof.
  apply (switch_to_automatic_mode sampleEnv (8 * msPerDay) (20 * msPerDay) monthly
           noCustomData sampleLedger).
  - now right.
  - vm_compute. reflexivity.
Defined.

(** ** What a rollover seals *)

Lemma filter_partition_Permutation {A : Type} (P Q : A -> bool) (l : list A) :
  (forall x, Q x = negb (P x)) ->
  Permutation (List.filter P l ++ List.filter Q l) l.
Proof.
  intros HQ. induction l as [|x l IH]; [constructor|].
  cbn [List.filter]. rewrite (HQ x). destruct (P x); cbn [negb app].
  - now constructor.
  - symmetry. apply Permutation_cons_app. now symmetry.
Qed.

(** X7.  No log is lost or doubled at a rollover.  When [archiveAndReset]
    seals a period (no archive starts at [currentStart] yet and some log
    precedes [nextStart]), the archive it appends holds the live logs
    stamped before [nextStart], the period view of [getAppDataSnapshot]
    afterwards holds the others, and the two lists together are the live
    logs, each once; the archive's total is the sum over its own list and
    the view's balance the sum over the view's list. *)
Theorem rollover_partitions_logs (E : Env) (now currentStart nextStart : Z)
    (mode : Mode) (st : State) :
  PERIOD_MODE (localStorage st) <> Some permanent ->
  List.find (fun a => PeriodArchive.startDate a =? currentStart) (period_archives st)
  = None ->
  logsBelow (logs st) nextStart <> [] ->
  let st' := archiveAndReset now currentStart nextStart mode st in
  let view := getAppDataSnapshot E st' in
  exists a,
    period_archives st' = period_archives st ++ [a]
    /\ (forall l, In l (PeriodArchive.logs a)
                  <-> In l (logs st) /\ LogEntry.timestamp l < nextStart)
    /\ (forall l, In l (adLogs view)
                  <-> In l (logs st) /\ nextStart <= LogEntry.timestamp l)
    /\ Permutation (PeriodArchive.logs a ++ adLogs view) (logs st)
    /\ PeriodArchive.totalBalance a = sumKcal (PeriodArchive.logs a)
    /\ adBalance view = sumKcal (adLogs view).
Proof.
  intros Hmode Hfind Hne st' view.
  assert (Hst : st' = mkState (logs st) (logsKeyGen st) (checks st)
                        (period_archives st
                           ++ [PeriodArchive.mk (archivesKeyGen st) currentStart
                                 (nextStart - 1) mode
                                 (sumKcal (logsBelow (logs st) nextStart))
                                 (logsBelow (logs st) nextStart) now None])
                        (archivesKeyGen st + 1)
                        (setPeriodStart (localStorage st) nextStart)).
  { unfold st'. rewrite archiveAndReset_cases, Hfind.
    destruct (logsBelow (logs st) nextStart); [congruence|reflexivity]. }
  assert (Hview : adLogs view
                  = List.filter (fun l => nextStart <=? LogEntry.timestamp l) (logs st)
                  /\ adBalance view = sumKcal (adLogs view)).
  { unfold view, getAppDataSnapshot. rewrite Hst.
    cbn [localStorage logs PERIOD_MODE PERIOD_START setPeriodStart adLogs adBalance].
    destruct (PERIOD_MODE (localStorage st)) as [[]|]; try congruence;
      split; reflexivity. }
  destruct Hview as [Hl Hb].
  eexists. split; [rewrite Hst; reflexivity|].
  cbn [PeriodArchive.logs PeriodArchive.totalBalance].
  split; [|split; [|split; [|split]]].
  - intros l. unfold logsBelow. rewrite In_sortOn, filter_In, Z.ltb_lt. tauto.
  - intros l. rewrite Hl, filter_In, Z.leb_le. tauto.
  - rewrite Hl. unfold logsBelow.
    rewrite (sortOn_Permutation LogEntry.timestamp).
    apply filter_partition_Permutation. intros l.
    destruct (Z.ltb_spec (LogEntry.timestamp l) nextStart);
      destruct (Z.leb_spec nextStart (LogEntry.timestamp l)); cbn; lia || reflexivity.
  - reflexivity.
  - exact Hb.
Qed.

Lemma rollover_partitions_logs_witness :
  let st' := archiveAndReset (4 * msPerDay) (-3 * msPerDay) (3 * msPerDay) weekly
               sampleLedger in
  let view := getAppDataSnapshot sampleEnv st' in
  exists a,
    period_archives st' = period_archives sampleLedger ++ [a]
    /\ (forall l, In l (PeriodArchive.logs a)
                  <-> In l (logs sampleLedger) /\ LogEntry.timestamp l < 3 * msPerDay)
    /\ (forall l, In l (adLogs view)
                  <-> In l (logs sampleLedger) /\ 3 * msPerDay <= LogEntry.timestamp l)
    /\ Permutation (PeriodArchive.logs a ++ adLogs view) (logs sampleLedger)
    /\ PeriodArchive.totalBalance a = sumKcal (PeriodArchive.logs a)
    /\ adBalance view = sumKcal (adLogs view).
Proof.
  apply (rollover_partitions_logs sampleEnv (4 * msPerDay) (-3 * msPerDay)
           (3 * msPerDay) weekly sampleLedger).
  - discriminate.
  - reflexivity.
  - vm_compute. discriminate.
Defined.

(** ** Pagination *)

Lemma sortedBy_insertOn {A : Type} (key : A -> Z) (x : A) (l : list A) :
  sortedBy Z.le (map key l) -> sortedBy Z.le (map key (insertOn key x l)).
Proof.
  induction l as [|y l IH]; cbn [insertOn map sortedBy].
  - intros _. split; [constructor|exact I].
  - intros [Hy Hl]. destruct (Z.leb_spec (key x) (key y)) as [Hxy|Hxy];
      cbn [map sortedBy].
    + split; [|now split]. constructor; [exact Hxy|].
      eapply List.Forall_impl; [|exact Hy]. cbn. intros; lia.
    + split; [|now apply IH].
      apply List.Forall_forall. intros k Hk.
      apply in_map_iff in Hk as [z [<- Hz]].
      apply In_insertOn in Hz as [->|Hz]; [lia|].
      rewrite List.Forall_forall in Hy. apply Hy. now apply in_map.
Qed.

Lemma sortedBy_sortOn {A : Type} (key : A -> Z) (l : list A) :
  sortedBy Z.le (map key (sortOn key l)).
Proof.
  induction l as [|x l IH]; [exact I|].
  cbn [sortOn foldr]. now apply sortedBy_insertOn.
Qed.

Lemma sortedBy_snoc (R : Z -> Z -> Prop) (l : list Z) (x : Z) :
  sortedBy R l -> Forall (fun y => R y x) l -> sortedBy R (l ++ [x]).
Proof.
  induction l as [|y l IH]; cbn [app sortedBy].
  - intros _ _. split; [constructor|exact I].
  - intros [Hy Hl] Hall. inversion Hall as [|? ? Hyx Hall']; subst.
    split; [|now apply IH].
    apply Forall_app. split; [exact Hy|]. now constructor.
Qed.

Lemma sortedBy_rev (l : list Z) :
  sortedBy Z.le l -> sortedBy Z.ge (rev l).
Proof.
  induction l as [|x l IH]; cbn [rev sortedBy]; [tauto|].
  intros [Hx Hl]. apply sortedBy_snoc; [now apply IH|].
  apply List.Forall_forall. intros y Hy. apply in_rev in Hy.
  rewrite List.Forall_forall in Hx. specialize (Hx y Hy). lia.
Qed.

Lemma In_firstn_inv {A : Type} (n : nat) (l : list A) (x : A) :
  In x (firstn n l) -> In x l.
Proof. intros H. rewrite <- (firstn_skipn n l). apply in_or_app. now left. Qed.

Lemma In_skipn_inv {A : Type} (n : nat) (l : list A) (x : A) :
  In x (skipn n l) -> In x l.
Proof. intros H. rewrite <- (firstn_skipn n l). apply in_or_app. now right. Qed.

Lemma sortedBy_skipn (R : Z -> Z -> Prop) (n : nat) (l : list Z) :
  sortedBy R l -> sortedBy R (skipn n l).
Proof.
  revert l. induction n as [|n IH]; intros l; [now rewrite skipn_O|].
  destruct l as [|x l]; [tauto|]. cbn [skipn sortedBy]. intros [_ Hl]. now apply IH.
Qed.

Lemma sortedBy_firstn (R : Z -> Z -> Prop) (n : nat) (l : list Z) :
  sortedBy R l -> sortedBy R (firstn n l).
Proof.
  revert l. induction n as [|n IH]; intros l; [now rewrite firstn_O|].
  destruct l as [|x l]; [tauto|]. cbn [firstn sortedBy]. intros [Hx Hl].
  split; [|now apply IH].
  apply List.Forall_forall. intros y Hy. rewrite List.Forall_forall in Hx.
  apply Hx. eapply In_firstn_inv, Hy.
Qed.

Lemma getLogsWithPagination_page (offset limit : nat) (st : State) :
  getLogsWithPagination offset limit st
  = (page (sortOn LogEntry.timestamp (periodRows st)) offset limit,
     Z.of_nat (length (periodRows st))).
Proof.
  unfold getLogsWithPagination, periodRows, logsFrom.
  destruct (Mode_eqb _ permanent); [reflexivity|].
  f_equal. f_equal. apply Permutation_length, sortOn_Permutation.
Qed.

Lemma page_tile {A : Type} (idx : list A) (offset k k' : nat) :
  page idx offset k ++ page idx (offset + k) k' = page idx offset (k + k').
Proof.
  unfold page. rewrite Nat.add_comm, <- skipn_skipn.
  generalize (skipn offset (rev idx)). intros l. revert l.
  induction k as [|k IH]; intros l; [reflexivity|].
  destruct l as [|x l]; cbn [firstn skipn app Nat.add].
  - now rewrite firstn_nil.
  - now rewrite IH.
Qed.

(** X8.  A page of [getLogsWithPagination] holds live logs of the current
    period only (all logs in permanent mode), newest first; it has
    [limit] entries, or what is left after [offset] when that is less; and
    [totalCount] is the number of live logs of the period. *)
Theorem pagination_page_content (offset limit : nat) (st : State) :
  let r := getLogsWithPagination offset limit st in
  snd r = Z.of_nat (length (periodRows st))
  /\ length (fst r) = Nat.min limit (length (periodRows st) - offset)
  /\ (forall l, In l (fst r) -> In l (periodRows st))
  /\ sortedBy Z.ge (map LogEntry.timestamp (fst r)).
Proof.
  cbv zeta. rewrite getLogsWithPagination_page. cbn [fst snd]. unfold page.
  split; [reflexivity|]. split; [|split].
  - rewrite length_firstn, length_skipn, length_rev.
    now rewrite (Permutation_length (sortOn_Permutation LogEntry.timestamp _)).
  - intros l Hl. apply In_firstn_inv, In_skipn_inv in Hl.
    apply in_rev in Hl. now apply In_sortOn in Hl.
  - rewrite <- firstn_map, <- skipn_map, map_rev.
    apply sortedBy_firstn, sortedBy_skipn, sortedBy_rev, sortedBy_sortOn.
Qed.

(** X9.  Consecutive pages tile the list: the page at [offset] of [k]
    logs followed by the page at [offset + k] of [k'] logs is the page at
    [offset] of [k + k'] logs; and, a period start being stored, the first
    [totalCount] logs are all the logs of the period view of
    [getAppDataSnapshot], each once. *)
Theorem pagination_pages_tile (E : Env) (offset k k' : nat) (start : Z) (st : State) :
  PERIOD_START (localStorage st) = Some start ->
  fst (getLogsWithPagination offset k st)
    ++ fst (getLogsWithPagination (offset + k) k' st)
  = fst (getLogsWithPagination offset (k + k') st)
  /\ Permutation
       (fst (getLogsWithPagination 0
               (Z.to_nat (snd (getLogsWithPagination offset k st))) st))
       (adLogs (getAppDataSnapshot E st)).
Proof.
  intros Hstart.
  rewrite !getLogsWithPagination_page. cbn [fst snd]. split; [apply page_tile|].
  rewrite Nat2Z.id. unfold page. rewrite skipn_O.
  rewrite firstn_all2.
  - rewrite <- Permutation_rev, sortOn_Permutation.
    unfold periodRows, getAppDataSnapshot. cbn [adLogs]. rewrite Hstart.
    destruct (Mode_eqb _ permanent); cbn [negb]; [reflexivity|].
    assert (Hs : orDefault (Some start) 0 = default 0 (Some start))
      by now destruct start.
    now rewrite Hs.
  - rewrite length_rev.
    now rewrite (Permutation_length (sortOn_Permutation LogEntry.timestamp _)).
Qed.

Lemma pagination_pages_tile_witness :
  fst (getLogsWithPagination 1 1 sampleLedger)
    ++ fst (getLogsWithPagination (1 + 1) 2 sampleLedger)
  = fst (getLogsWithPagination 1 (1 + 2) sampleLedger)
  /\ Permutation
       (fst (getLogsWithPagination 0
               (Z.to_nat (snd (getLogsWithPagination 1 1 sampleLedger))) sampleLedger))
       (adLogs (getAppDataSnapshot sampleEnv sampleLedger)).
Proof.
  apply (pagination_pages_tile sampleEnv 1 1 2 (-3 * msPerDay) sampleLedger).
  reflexivity.
Defined.

(** ** The days a recalculation walks *)

Lemma walk_visited (E : Env) (snap : Snapshot) (today : Z) :
  forall (fuel : nat) (currentDate : Z) (w : WalkState),
    visited (walk E snap today fuel currentDate w)
    = visited w ++ walkDays E today fuel currentDate (safeGuard w).
Proof.
  induction fuel as [|fuel IH]; intros currentDate w; cbn [walk walkDays].
  - now rewrite app_nil_r.
  - destruct ((currentDate <? today) || isSameDay E currentDate today);
      [|now rewrite app_nil_r].
    destruct (safeGuard w >? 3650).
    + cbn [bumpGuard visited]. now rewrite app_nil_r.
    + rewrite IH.
      destruct (processDay_guard E snap currentDate (bumpGuard w)) as [-> ->].
      cbn [bumpGuard safeGuard visited]. now rewrite <- app_assoc.
Qed.

Lemma walk_visited_fresh (E : Env) (snap : Snapshot) (today : Z) (fuel : nat)
    (currentDate : Z) (w : WalkState) :
  visited w = [] ->
  safeGuard w = 0 ->
  visited (walk E snap today fuel currentDate w)
  = walkDays E today fuel currentDate 0.
Proof. intros Hv Hg. rewrite walk_visited, Hv, Hg. apply app_nil_l. Qed.

Lemma daysFrom_S (d : Z) (n : nat) : daysFrom d (S n) = d :: daysFrom (d + 1) n.
Proof.
  unfold daysFrom. cbn [seq map]. f_equal; [lia|].
  rewrite <- seq_shift, map_map. apply map_ext. intros i. lia.
Qed.

Lemma reaches_today (E : Env) (now d : Z) :
  (parseDay E d <? endOfDay E now) || isSameDay E (parseDay E d) (endOfDay E now)
  = (d <=? formatDay E now).
Proof.
  unfold isSameDay. rewrite formatDay_parseDay.
  assert (He : endOfDay E now = parseDay E (formatDay E now) + msPerDay - 1).
  { unfold endOfDay. now rewrite startOfDay_formatDay. }
  assert (Hf : formatDay E (endOfDay E now) = formatDay E now).
  { rewrite He. unfold formatDay at 1, parseDay, msPerDay.
    symmetry. apply Z.div_unique with (r := 86400000 - 1); lia. }
  rewrite Hf, He. unfold parseDay, msPerDay.
  destruct (Z.ltb_spec (d * 86400000 - tzOffset E)
              (formatDay E now * 86400000 - tzOffset E + 86400000 - 1));
    destruct (Z.eqb_spec d (formatDay E now));
    destruct (Z.leb_spec d (formatDay E now)); cbn; lia || reflexivity.
Qed.

Lemma walkDays_range (E : Env) (now : Z) :
  forall (fuel : nat) (d guard : Z),
    walkDays E (endOfDay E now) fuel (parseDay E d) guard
    = daysFrom d (Z.to_nat (Z.min (Z.of_nat fuel)
                              (Z.min (3651 - guard) (formatDay E now - d + 1)))).
Proof.
  induction fuel as [|fuel IH]; intros d guard; cbn [walkDays].
  - now replace (Z.to_nat _) with 0%nat by lia.
  - rewrite reaches_today.
    destruct (Z.leb_spec d (formatDay E now)) as [Hd|Hd];
      [|now replace (Z.to_nat _) with 0%nat by lia].
    destruct (Z.gtb_spec guard 3650) as [Hg|Hg];
      [now replace (Z.to_nat _) with 0%nat by lia|].
    rewrite formatDay_parseDay, parseDay_next, IH.
    replace (Z.to_nat (Z.min (Z.of_nat (S fuel))
                         (Z.min (3651 - guard) (formatDay E now - d + 1))))
      with (S (Z.to_nat (Z.min (Z.of_nat fuel)
                           (Z.min (3651 - (guard + 1))
                                  (formatDay E now - (d + 1) + 1))))) by lia.
    now rewrite daysFrom_S.
Qed.

(** X10.  The days the walk of [recalcImpactedHistory] visits: the
    consecutive days from the virtual day of the changed timestamp up to
    the calendar day of the clock, both included, and no more than the
    first 3651 of them; none when the change lies after today. *)
Theorem recalc_walks_from_change_to_today (E : Env) (now t : Z)
    (rows : list LogEntry.t) (allChecks : list CheckEntry.t) :
  let snap := buildSnapshot E now rows allChecks in
  visited (walk E snap (endOfDay E now) walkFuel
             (startOfDay E (parseDay E (getVirtualDate E t)))
             (mkWalk rows (logMap snap) 0 0 [] []))
  = daysFrom (getVirtualDate E t)
      (Z.to_nat (Z.min 3651 (formatDay E now - getVirtualDate E t + 1))).
Proof.
  cbv zeta. rewrite startOfDay_parseDay.
  rewrite walk_visited_fresh by reflexivity.
  rewrite walkDays_range. f_equal. f_equal.
  change (Z.of_nat walkFuel) with 3652. lia.
Qed.

(** ** Archives after a recalculation *)

(** X12.  After a recalculation for a change at [t], every archive that
    ends at or after [t] mirrors the live logs: its snapshot is the list
    of the logs now in the table whose timestamp lies in the archive's own
    range, in timestamp order, its total is their sum, and it is stamped
    with the time of the run.  A log that is no longer in the table is in
    none of these archives. *)
Theorem recalc_archives_mirror_live_logs (E : Env) (now t : Z) (st : State) :
  uniqueArchiveIds st ->
  let st' := fst (recalcImpactedHistory E now t st) in
  forall a,
    In a (period_archives st') ->
    t <= PeriodArchive.endDate a ->
    PeriodArchive.logs a
    = logsBetween (logs st') (PeriodArchive.startDate a) (PeriodArchive.endDate a)
    /\ PeriodArchive.totalBalance a = sumKcal (PeriodArchive.logs a)
    /\ PeriodArchive.updatedAt a = Some now
    /\ (forall l, In l (PeriodArchive.logs a)
                  <-> In l (logs st')
                      /\ PeriodArchive.startDate a <= LogEntry.timestamp l
                         <= PeriodArchive.endDate a).
Proof.
  intros Hu st' a Ha Hend.
  pose proof (recalc_fresh_archives E now t st Hu a Ha Hend) as Hfresh.
  fold st' in Hfresh. clearbody st'.
  destruct (freshFor_content _ _ _ Hfresh) as [Hlogs Htot].
  split; [exact Hlogs|]. split; [now rewrite Htot, Hlogs|].
  split.
  - unfold freshFor in Hfresh. rewrite <- Hfresh. reflexivity.
  - intros l. rewrite Hlogs. unfold logsBetween.
    rewrite In_sortOn, filter_In, andb_true_iff, !Z.leb_le. tauto.
Qed.

Lemma recalc_archives_mirror_live_logs_witness :
  let st' := fst (recalcImpactedHistory sampleEnv (5 * msPerDay) (2 * msPerDay)
                    sealedLedger) in
  let a := nth 0 (period_archives st') (PeriodArchive.mk 0 0 0 weekly 0 [] 0 None) in
  In a (period_archives st')
  /\ 2 * msPerDay <= PeriodArchive.endDate a
  /\ PeriodArchive.logs a
     = logsBetween (logs st') (PeriodArchive.startDate a) (PeriodArchive.endDate a)
  /\ PeriodArchive.totalBalance a = sumKcal (PeriodArchive.logs a)
  /\ PeriodArchive.updatedAt a = Some (5 * msPerDay)
  /\ (forall l, In l (PeriodArchive.logs a)
                <-> In l (logs st')
                    /\ PeriodArchive.startDate a <= LogEntry.timestamp l
                       <= PeriodArchive.endDate a).
Proof.
  intros st' a.
  assert (Hin : In a (period_archives st')) by (vm_compute; tauto).
  assert (Hend : 2 * msPerDay <= PeriodArchive.endDate a) by (vm_compute; discriminate).
  assert (Hu : uniqueArchiveIds sealedLedger).
  { unfold uniqueArchiveIds. apply (bool_decide_unpack _). vm_compute. exact I. }
  split; [exact Hin|]. split; [exact Hend|].
  exact (recalc_archives_mirror_live_logs sampleEnv (5 * msPerDay) (2 * msPerDay)
           sealedLedger Hu a Hin Hend).
Defined.

(** ** Removing logs *)

Lemma getLog_Some (rows : list LogEntry.t) (id : Z) (l : LogEntry.t) :
  getLog rows id = Some l -> In l rows /\ LogEntry.id l = id.
Proof.
  unfold getLog. intros H. apply find_some in H as [Hin Hid].
  split; [exact Hin|now apply Z.eqb_eq].
Qed.

Lemma getLog_None (rows : list LogEntry.t) (id : Z) :
  getLog rows id = None -> forall l, In l rows -> LogEntry.id l <> id.
Proof.
  unfold getLog. intros H l Hl Hid.
  eapply find_none in H; [|exact Hl]. cbn in H. apply Z.eqb_neq in H. contradiction.
Qed.

Lemma getLog_unique (rows : list LogEntry.t) (l : LogEntry.t) :
  NoDup (map LogEntry.id rows) -> In l rows -> getLog rows (LogEntry.id l) = Some l.
Proof.
  intros Hnd Hl.
  destruct (getLog rows (LogEntry.id l)) as [l'|] eqn:Hg.
  - apply getLog_Some in Hg as [Hin Hid]. f_equal.
    now apply (NoDup_map_eq LogEntry.id rows).
  - exfalso. now apply (getLog_None _ _ Hg l Hl).
Qed.

Lemma map_id_bulkDeleteRows (rows : list LogEntry.t) (ids : list Z) :
  map LogEntry.id (bulkDeleteRows rows ids)
  = List.filter (fun i => negb (existsb (Z.eqb i) ids)) (map LogEntry.id rows).
Proof.
  unfold bulkDeleteRows.
  induction rows as [|r rows IH]; [reflexivity|].
  cbn [List.filter map].
  destruct (negb (existsb (Z.eqb (LogEntry.id r)) ids)); cbn [map]; now rewrite IH.
Qed.

Lemma Forall2_rewrittenFrom_ids (E : Env) (D : Z) (rows rows' : list LogEntry.t) :
  Forall2 (rewrittenFrom E D) rows rows' ->
  map LogEntry.id rows' = map LogEntry.id rows.
Proof.
  induction 1 as [|l l' rows rows' Hl _ IH]; [reflexivity|].
  cbn [map]. f_equal; [eapply rewrittenFrom_id, Hl|exact IH].
Qed.

(** The ids left by a deletion followed by the recalculation. *)
Lemma recalc_after_delete_ids (E : Env) (now t : Z) (ids : list Z) (st : State) :
  uniqueLogIds st ->
  map LogEntry.id
      (logs (fst (recalcImpactedHistory E now t
                    (withLogs st (bulkDeleteRows (logs st) ids)))))
  = List.filter (fun i => negb (existsb (Z.eqb i) ids)) (map LogEntry.id (logs st)).
Proof.
  intros Hu.
  rewrite (Forall2_rewrittenFrom_ids E (getVirtualDate E t)
             (logs (withLogs st (bulkDeleteRows (logs st) ids)))).
  - apply map_id_bulkDeleteRows.
  - apply recalc_rewrittenFrom. unfold uniqueLogIds, withLogs. cbn [logs].
    unfold bulkDeleteRows. now apply NoDup_map_filter.
Qed.

(** X13.  [deleteLog] fails exactly when no log has the id, and then
    nothing is written.  Otherwise it reports the timestamp of the log, the
    table keeps the ids of all other logs in order and loses this one, the
    checks are untouched, and no archive that ends at or after that
    timestamp still lists a log with the id. *)
Theorem deleteLog_removes_everywhere (E : Env) (now logId : Z) (st : State) :
  uniqueLogIds st ->
  uniqueArchiveIds st ->
  match deleteLog E now logId st with
  | None => forall l, In l (logs st) -> LogEntry.id l <> logId
  | Some (st', ts) =>
      (exists l, In l (logs st) /\ LogEntry.id l = logId /\ LogEntry.timestamp l = ts)
      /\ map LogEntry.id (logs st')
         = List.filter (fun i => negb (i =? logId)) (map LogEntry.id (logs st))
      /\ (forall l, In l (logs st') -> LogEntry.id l <> logId)
      /\ checks st' = checks st
      /\ (forall a l, In a (period_archives st') -> ts <= PeriodArchive.endDate a ->
                      In l (PeriodArchive.logs a) -> LogEntry.id l <> logId)
  end.
Proof.
  intros Hu Ha. unfold deleteLog.
  destruct (getLog (logs st) logId) as [log|] eqn:Hg; [|now apply getLog_None].
  apply getLog_Some in Hg as [Hin Hid].
  set (st1 := withLogs st (bulkDeleteRows (logs st) [logId])).
  assert (Hids : map LogEntry.id
                   (logs (fst (recalcImpactedHistory E now (LogEntry.timestamp log) st1)))
                 = List.filter (fun i => negb (i =? logId)) (map LogEntry.id (logs st))).
  { unfold st1. rewrite recalc_after_delete_ids by exact Hu.
    apply List.filter_ext. intros i. cbn [existsb]. now rewrite orb_false_r. }
  assert (Hgone : forall l,
             In l (logs (fst (recalcImpactedHistory E now (LogEntry.timestamp log) st1))) ->
             LogEntry.id l <> logId).
  { intros l Hl Heq. apply (in_map LogEntry.id) in Hl. rewrite Hids in Hl.
    apply filter_In in Hl as [_ Hne]. rewrite Heq, Z.eqb_refl in Hne. discriminate. }
  split; [now exists log|]. split; [exact Hids|]. split; [exact Hgone|].
  split.
  - destruct (recalc_logs E now (LogEntry.timestamp log) st1) as (_ & Hc & _).
    now rewrite Hc.
  - intros a l Hain Hend Hl.
    assert (Hfresh : freshFor now
                       (logs (fst (recalcImpactedHistory E now
                                     (LogEntry.timestamp log) st1))) a).
    { apply recalc_fresh_archives with (t := LogEntry.timestamp log);
        [exact Ha|exact Hain|exact Hend]. }
    apply freshFor_content in Hfresh as [Hlogs _].
    rewrite Hlogs in Hl. unfold logsBetween in Hl.
    apply In_sortOn, filter_In in Hl as [Hl _]. now apply Hgone.
Qed.

Lemma deleteLog_removes_everywhere_witness :
  match deleteLog sampleEnv (5 * msPerDay) 2 sealedLedger with
  | None => forall l, In l (logs sealedLedger) -> LogEntry.id l <> 2
  | Some (st', ts) =>
      (exists l, In l (logs sealedLedger) /\ LogEntry.id l = 2
                 /\ LogEntry.timestamp l = ts)
      /\ map LogEntry.id (logs st')
         = List.filter (fun i => negb (i =? 2)) (map LogEntry.id (logs sealedLedger))
      /\ (forall l, In l (logs st') -> LogEntry.id l <> 2)
      /\ checks st' = checks sealedLedger
      /\ (forall a l, In a (period_archives st') -> ts <= PeriodArchive.endDate a ->
                      In l (PeriodArchive.logs a) -> LogEntry.id l <> 2)
  end.
Proof.
  refine (deleteLog_removes_everywhere sampleEnv (5 * msPerDay) 2 sealedLedger _ _).
  - unfold uniqueLogIds. apply (bool_decide_unpack _). vm_compute. exact I.
  - unfold uniqueArchiveIds. apply (bool_decide_unpack _). vm_compute. exact I.
Defined.

Lemma oldestStep_fold (rows : list LogEntry.t) (ids : list Z) :
  forall acc,
    let oldest := fold_left (oldestStep rows) ids acc in
    oldest <= acc
    /\ (oldest = acc
        \/ exists l, In l rows /\ In (LogEntry.id l) ids /\ LogEntry.timestamp l = oldest)
    /\ (forall id l, In id ids -> getLog rows id = Some l ->
                     oldest <= LogEntry.timestamp l).
Proof.
  induction ids as [|i ids IH]; intros acc; cbn [fold_left].
  - split; [lia|]. split; [now left|]. intros id l [].
  - destruct (IH (oldestStep rows acc i)) as (Hle & Hatt & Hlow).
    assert (Hstep : oldestStep rows acc i <= acc
                    /\ (oldestStep rows acc i = acc
                        \/ exists l, getLog rows i = Some l
                                     /\ LogEntry.timestamp l = oldestStep rows acc i)
                    /\ (forall l, getLog rows i = Some l ->
                                  oldestStep rows acc i <= LogEntry.timestamp l)).
    { unfold oldestStep. destruct (getLog rows i) as [l|] eqn:Hg.
      - destruct (Z.ltb_spec (LogEntry.timestamp l) acc).
        + split; [lia|]. split; [right; now exists l|]. intros l' [= <-]. lia.
        + split; [lia|]. split; [now left|]. intros l' [= <-]. lia.
      - split; [lia|]. split; [now left|]. discriminate. }
    destruct Hstep as (Hs1 & Hs2 & Hs3).
    split; [lia|]. split.
    + destruct Hatt as [Heq|[l (Hl & Hi & Ht)]].
      * destruct Hs2 as [Hs2|[l [Hg Ht]]].
        -- left. lia.
        -- right. exists l. apply getLog_Some in Hg as [Hl Hid].
           split; [exact Hl|]. split; [left; now rewrite Hid|lia].
      * right. exists l. split; [exact Hl|]. split; [now right|exact Ht].
    + intros id l [<-|Hid] Hg.
      * specialize (Hs3 l Hg). lia.
      * now apply (Hlow id l).
Qed.

(** X14.  [bulkDeleteLogs].  With no ids it reports failure and writes
    nothing.  Otherwise it reports success and the number of ids asked for,
    whether or not they exist; the table keeps the ids of the other logs in
    order; and the recalculation starts at the earliest timestamp among the
    clock and the logs deleted. *)
Theorem bulkDeleteLogs_removes_ids (E : Env) (now : Z) (ids : list Z) (st : State) :
  uniqueLogIds st ->
  let r := bulkDeleteLogs E now ids st in
  (ids = [] -> r = (st, mkBulkReport false 0 None))
  /\ (ids <> [] ->
      brSuccess (snd r) = true
      /\ brCount (snd r) = Z.of_nat (length ids)
      /\ map LogEntry.id (logs (fst r))
         = List.filter (fun i => negb (existsb (Z.eqb i) ids))
                       (map LogEntry.id (logs st))
      /\ exists oldestTs,
           brOldestTs (snd r) = Some oldestTs
           /\ fst r = fst (recalcImpactedHistory E now oldestTs
                             (withLogs st (bulkDeleteRows (logs st) ids)))
           /\ oldestTs <= now
           /\ (forall l, In l (logs st) -> In (LogEntry.id l) ids ->
                         oldestTs <= LogEntry.timestamp l)
           /\ (oldestTs = now
               \/ exists l, In l (logs st) /\ In (LogEntry.id l) ids
                            /\ LogEntry.timestamp l = oldestTs)).
Proof.
  intros Hu r. split.
  - intros ->. reflexivity.
  - intros Hne. destruct ids as [|i ids]; [congruence|].
    unfold r, bulkDeleteLogs. cbn [fst snd brSuccess brCount brOldestTs].
    split; [reflexivity|]. split; [reflexivity|].
    split; [now apply recalc_after_delete_ids|].
    destruct (oldestStep_fold (logs st) (i :: ids) now) as (Hle & Hatt & Hlow).
    eexists. split; [reflexivity|]. split; [reflexivity|].
    split; [exact Hle|]. split; [|exact Hatt].
    intros l Hl Hid. apply (Hlow (LogEntry.id l) l Hid).
    now apply getLog_unique.
Qed.

Lemma bulkDeleteLogs_removes_ids_witness :
  let r := bulkDeleteLogs sampleEnv (5 * msPerDay) [3; 7] sealedLedger in
  ([3; 7] = [] -> r = (sealedLedger, mkBulkReport false 0 None))
  /\ ([3; 7] <> [] ->
      brSuccess (snd r) = true
      /\ brCount (snd r) = Z.of_nat (length [3; 7])
      /\ map LogEntry.id (logs (fst r))
         = List.filter (fun i => negb (existsb (Z.eqb i) [3; 7]))
                       (map LogEntry.id (logs sealedLedger))
      /\ exists oldestTs,
           brOldestTs (snd r) = Some oldestTs
           /\ fst r = fst (recalcImpactedHistory sampleEnv (5 * msPerDay) oldestTs
                             (withLogs sealedLedger
                                (bulkDeleteRows (logs sealedLedger) [3; 7])))
           /\ oldestTs <= 5 * msPerDay
           /\ (forall l, In l (logs sealedLedger) -> In (LogEntry.id l) [3; 7] ->
                         oldestTs <= LogEntry.timestamp l)
           /\ (oldestTs = 5 * msPerDay
               \/ exists l, In l (logs sealedLedger) /\ In (LogEntry.id l) [3; 7]
                            /\ LogEntry.timestamp l = oldestTs)).
Proof.
  refine (bulkDeleteLogs_removes_ids sampleEnv (5 * msPerDay) [3; 7] sealedLedger _).
  unfold uniqueLogIds. apply (bool_decide_unpack _). vm_compute. exact I.
Defined.

(** ** Daily checks *)

Lemma in_day_range (E : Env) (d ts : Z) :
  (startOfDay E d <=? ts) && (ts <=? endOfDay E d) = (formatDay E ts =? formatDay E d).
Proof.
  unfold endOfDay. rewrite startOfDay_formatDay.
  pose proof (parseDay_le E (formatDay E d) ts) as H1.
  pose proof (parseDay_gt E (formatDay E d + 1) ts) as H2.
  unfold parseDay in H1, H2.
  destruct (Z.leb_spec (formatDay E d * msPerDay - tzOffset E) ts);
    destruct (Z.leb_spec ts (formatDay E d * msPerDay - tzOffset E + msPerDay - 1));
    destruct (Z.eqb_spec (formatDay E ts) (formatDay E d)); cbn; lia || reflexivity.
Qed.

Lemma in_day_range_open (E : Env) (d ts : Z) :
  (startOfDay E d <=? ts) && (ts <? endOfDay E d)
  = (formatDay E ts =? formatDay E d) && negb (ts =? endOfDay E d).
Proof.
  rewrite <- in_day_range.
  destruct (Z.leb_spec (startOfDay E d) ts); destruct (Z.ltb_spec ts (endOfDay E d));
    destruct (Z.leb_spec ts (endOfDay E d)); destruct (Z.eqb_spec ts (endOfDay E d));
    cbn; lia || reflexivity.
Qed.

Lemma checksBetween_day (E : Env) (rows : list CheckEntry.t) (d : Z) :
  checksBetween rows (startOfDay E d) (endOfDay E d) true
  = sortOn CheckEntry.timestamp (checksOn E (formatDay E d) rows).
Proof.
  unfold checksBetween, checksOn. f_equal. apply List.filter_ext.
  intros c. apply in_day_range.
Qed.

Lemma sortOn_nil {A : Type} (key : A -> Z) (l : list A) :
  sortOn key l = [] <-> l = [].
Proof.
  split; [|now intros ->]. intros H.
  apply Permutation_nil. rewrite <- H. apply sortOn_Permutation.
Qed.

Lemma timeOfDay_noon (E : Env) (d : Z) :
  formatDay E (startOfDay E d + 12 * msPerHour) = formatDay E d
  /\ timeOfDay E (startOfDay E d + 12 * msPerHour) = 12 * msPerHour.
Proof.
  rewrite startOfDay_formatDay. unfold formatDay at 1, timeOfDay, msPerDay, msPerHour.
  split.
  - symmetry. apply Z.div_unique with (r := 12 * 3600000); lia.
  - symmetry. apply Z.mod_unique with (q := formatDay E d); lia.
Qed.

(** X15.  From 4 AM local time on (the last millisecond of the day apart,
    which the half-open range of the lookup leaves out)
    [ensureTodayCheckRecord] is idempotent for the whole accounting day:
    after one call, a call at any instant of the same virtual day adds
    nothing.  A call never touches the logs, the archives or an existing
    check record: it leaves [db.checks] as it is or appends one unsaved,
    non-dry record stamped with the clock. *)
Theorem ensureToday_once_after_boundary (E : Env) (now now' : Z) (db : Db) :
  dayBoundaryHour * msPerHour <= timeOfDay E now < msPerDay - 1 ->
  getVirtualDate E now' = getVirtualDate E now ->
  let db' := ensureTodayCheckRecord E now db in
  ensureTodayCheckRecord E now' db' = db'
  /\ logs (ledger db') = logs (ledger db)
  /\ period_archives (ledger db') = period_archives (ledger db)
  /\ (checks (ledger db') = checks (ledger db)
      \/ checks (ledger db')
         = checks (ledger db)
           ++ [CheckEntry.mk (checksKeyGen db) now false false None]).
Proof.
  intros [Hb Hlast] Hv db'.
  assert (Hday : getVirtualDate E now = formatDay E now)
    by now apply virtual_day_is_calendar_day.
  assert (Hin : (startOfDay E (parseDay E (getVirtualDate E now)) <=? now)
                && (now <? endOfDay E (parseDay E (getVirtualDate E now))) = true).
  { unfold endOfDay. rewrite startOfDay_parseDay, Hday.
    apply andb_true_intro. split; [apply Z.leb_le|apply Z.ltb_lt].
    - apply parseDay_le. lia.
    - unfold parseDay, timeOfDay, formatDay, msPerDay in *.
      pose proof (Z.mod_pos_bound (now + tzOffset E) 86400000 ltac:(lia)) as Hm.
      pose proof (Z.div_mod (now + tzOffset E) 86400000 ltac:(lia)) as Hd.
      lia. }
  unfold db', ensureTodayCheckRecord. rewrite Hv.
  destruct (checksBetween (checks (ledger db))
              (startOfDay E (parseDay E (getVirtualDate E now)))
              (endOfDay E (parseDay E (getVirtualDate E now))) false)
    as [|c cs] eqn:Hex.
  - cbn [addCheck ledger withChecks checks logs period_archives].
    split; [|split; [reflexivity|split; [reflexivity|now right]]].
    destruct (checksBetween (checks (ledger db) ++ _) _ _ false) as [|c cs] eqn:Hex';
      [|reflexivity].
    exfalso. unfold checksBetween in Hex'. apply sortOn_nil in Hex'.
    rewrite List.filter_app in Hex'. apply app_eq_nil in Hex' as [_ Hex'].
    cbn [List.filter CheckEntry.timestamp] in Hex'.
    rewrite Hin in Hex'. discriminate.
  - rewrite Hex. split; [reflexivity|]. split; [reflexivity|].
    split; [reflexivity|now left].
Qed.

Lemma ensureToday_once_after_boundary_witness :
  let db' := ensureTodayCheckRecord sampleEnv (3 * msPerDay + 9 * msPerHour) sampleDb in
  ensureTodayCheckRecord sampleEnv (4 * msPerDay + 2 * msPerHour) db' = db'
  /\ logs (ledger db') = logs (ledger sampleDb)
  /\ period_archives (ledger db') = period_archives (ledger sampleDb)
  /\ (checks (ledger db') = checks (ledger sampleDb)
      \/ checks (ledger db')
         = checks (ledger sampleDb)
           ++ [CheckEntry.mk (checksKeyGen sampleDb) (3 * msPerDay + 9 * msPerHour)
                 false false None]).
Proof.
  apply (ensureToday_once_after_boundary sampleEnv (3 * msPerDay + 9 * msPerHour)
           (4 * msPerDay + 2 * msPerHour) sampleDb).
  - vm_compute. split; [discriminate|reflexivity].
  - vm_compute. reflexivity.
Defined.

(** X16.  Before 4 AM the placeholder does not stop the next call.  The
    range searched is the previous calendar day while the placeholder is
    stamped with the clock, so when no record is stamped on that previous
    day, two calls before 4 AM of the same night append two placeholders. *)
Theorem ensureToday_repeats_before_boundary (E : Env) (now now' : Z) (db : Db) :
  timeOfDay E now < dayBoundaryHour * msPerHour ->
  timeOfDay E now' < dayBoundaryHour * msPerHour ->
  formatDay E now' = formatDay E now ->
  checksOn E (formatDay E now - 1) (checks (ledger db)) = [] ->
  checks (ledger (ensureTodayCheckRecord E now' (ensureTodayCheckRecord E now db)))
  = checks (ledger db)
    ++ [CheckEntry.mk (checksKeyGen db) now false false None;
        CheckEntry.mk (checksKeyGen db + 1) now' false false None].
Proof.
  intros Hb Hb' Hsame Hnone.
  assert (Hv : getVirtualDate E now = formatDay E now - 1)
    by now apply virtual_day_before_boundary.
  assert (Hv' : getVirtualDate E now' = formatDay E now - 1)
    by (rewrite <- Hsame; now apply virtual_day_before_boundary).
  assert (Hempty : forall rows,
             checksOn E (formatDay E now - 1) rows = [] ->
             checksBetween rows
               (startOfDay E (parseDay E (formatDay E now - 1)))
               (endOfDay E (parseDay E (formatDay E now - 1))) false = []).
  { intros rows Hrows. unfold checksBetween. apply sortOn_nil.
    unfold checksOn in Hrows.
    induction rows as [|c rows IH]; [reflexivity|].
    cbn [List.filter] in *. rewrite in_day_range_open, formatDay_parseDay.
    destruct (formatDay E (CheckEntry.timestamp c) =? formatDay E now - 1);
      [discriminate|]. cbn [andb]. now apply IH. }
  unfold ensureTodayCheckRecord at 2. rewrite Hv, (Hempty _ Hnone).
  unfold ensureTodayCheckRecord. rewrite Hv'.
  cbn [addCheck ledger withChecks checks checksKeyGen].
  rewrite Hempty.
  - cbn [addCheck ledger withChecks checks checksKeyGen]. now rewrite <- app_assoc.
  - unfold checksOn. rewrite List.filter_app. unfold checksOn in Hnone. rewrite Hnone.
    cbn [List.filter CheckEntry.timestamp app].
    destruct (Z.eqb_spec (formatDay E now) (formatDay E now - 1)); [lia|reflexivity].
Qed.

Lemma ensureToday_repeats_before_boundary_witness :
  checks (ledger (ensureTodayCheckRecord sampleEnv (3 * msPerDay + 2 * msPerHour)
                    (ensureTodayCheckRecord sampleEnv (3 * msPerDay + msPerHour)
                       sampleDb)))
  = checks (ledger sampleDb)
    ++ [CheckEntry.mk (checksKeyGen sampleDb) (3 * msPerDay + msPerHour) false false None;
        CheckEntry.mk (checksKeyGen sampleDb + 1) (3 * msPerDay + 2 * msPerHour)
          false false None].
Proof.
  apply (ensureToday_repeats_before_boundary sampleEnv (3 * msPerDay + msPerHour)
           (3 * msPerDay + 2 * msPerHour) sampleDb).
  - vm_compute. reflexivity.
  - vm_compute. reflexivity.
  - vm_compute. reflexivity.
  - vm_compute. reflexivity.
Defined.

(** ** One check record per day *)

Lemma filter_map_comp {A B : Type} (P : B -> bool) (g : A -> B) (l : list A) :
  List.filter P (map g l) = map g (List.filter (fun x => P (g x)) l).
Proof.
  induction l as [|x l IH]; [reflexivity|].
  cbn [map List.filter]. destruct (P (g x)); cbn [map]; now rewrite IH.
Qed.

Lemma filter_twice {A : Type} (P Q : A -> bool) (l : list A) :
  List.filter P (List.filter Q l) = List.filter (fun x => Q x && P x) l.
Proof.
  induction l as [|x l IH]; [reflexivity|].
  cbn [List.filter]. destruct (Q x); cbn [List.filter andb]; [|exact IH].
  destruct (P x); now rewrite IH.
Qed.

Lemma filter_none {A : Type} (P : A -> bool) (l : list A) :
  (forall x, In x l -> P x = false) -> List.filter P l = [].
Proof.
  induction l as [|x l IH]; intros H; [reflexivity|].
  cbn [List.filter]. rewrite (H x) by now left.
  apply IH. intros y Hy. apply H. now right.
Qed.

Lemma filter_same_id (rows : list CheckEntry.t) (p : CheckEntry.t) :
  NoDup (map CheckEntry.id rows) ->
  In p rows ->
  List.filter (fun r => CheckEntry.id r =? CheckEntry.id p) rows = [p].
Proof.
  induction rows as [|r rows IH]; intros Hnd Hin; [destruct Hin|].
  cbn [map] in Hnd. apply NoDup_cons in Hnd as [Hr Hnd].
  rewrite list_elem_of_In in Hr.
  cbn [List.filter]. destruct Hin as [->|Hin].
  - rewrite Z.eqb_refl. f_equal. apply filter_none.
    intros x Hx. apply Z.eqb_neq. intros Heq. apply Hr. rewrite <- Heq.
    now apply in_map.
  - destruct (Z.eqb_spec (CheckEntry.id r) (CheckEntry.id p)) as [Heq|]; [|now apply IH].
    exfalso. apply Hr. rewrite Heq. now apply in_map.
Qed.

Lemma filter_all {A : Type} (P : A -> bool) (l : list A) :
  (forall x, P x = true) -> List.filter P l = l.
Proof.
  intros H. induction l as [|x l IH]; [reflexivity|].
  cbn [List.filter]. now rewrite H, IH.
Qed.

Lemma bulkDeleteChecks_nil (rows : list CheckEntry.t) : bulkDeleteChecks rows [] = rows.
Proof. unfold bulkDeleteChecks. now apply filter_all. Qed.

Lemma NoDup_map_id_eq (rows : list CheckEntry.t) (x y : CheckEntry.t) :
  NoDup (map CheckEntry.id rows) ->
  In x rows -> In y rows -> CheckEntry.id x = CheckEntry.id y -> x = y.
Proof. intros Hnd Hx Hy Hid. now apply (NoDup_map_eq CheckEntry.id rows). Qed.

(** The records of a day after its first record (in index order) has been
    rewritten by [g] and the others deleted by key. *)
Lemma resolve_day (E : Env) (day : Z) (rows : list CheckEntry.t)
    (p : CheckEntry.t) (red : list CheckEntry.t) (g : CheckEntry.t -> CheckEntry.t) :
  NoDup (map CheckEntry.id rows) ->
  sortOn CheckEntry.timestamp (checksOn E day rows) = p :: red ->
  (forall r, CheckEntry.id (g r) = CheckEntry.id r) ->
  formatDay E (CheckEntry.timestamp (g p)) = day ->
  let rows1 := map (fun r => if CheckEntry.id r =? CheckEntry.id p then g r else r) rows in
  let rows2 := match red with
               | _ :: _ => bulkDeleteChecks rows1 (map CheckEntry.id red)
               | [] => rows1
               end in
  checksOn E day rows2 = [g p]
  /\ (forall c, formatDay E (CheckEntry.timestamp c) <> day ->
                (In c rows2 <-> In c rows))
  /\ NoDup (map CheckEntry.id rows2)
  /\ (forall c, In c rows2 -> In (CheckEntry.id c) (map CheckEntry.id rows)).
Proof.
  intros Hnd Hex Hg Hday rows1 rows2.
  assert (Hperm : Permutation (p :: red) (checksOn E day rows)).
  { rewrite <- Hex. apply sortOn_Permutation. }
  assert (Hp : In p rows /\ formatDay E (CheckEntry.timestamp p) = day).
  { apply In_checksOn. eapply Permutation_in; [exact Hperm|now left]. }
  assert (Hred : forall r, In r red ->
                           In r rows /\ formatDay E (CheckEntry.timestamp r) = day).
  { intros r Hr. apply In_checksOn. eapply Permutation_in; [exact Hperm|now right]. }
  assert (Hall : forall r, In r rows -> formatDay E (CheckEntry.timestamp r) = day ->
                           r = p \/ In r red).
  { intros r Hr Hd.
    assert (Hin : In r (p :: red)).
    { eapply Permutation_in; [symmetry; exact Hperm|]. now apply In_checksOn. }
    destruct Hin as [<-|Hin]; [now left|now right]. }
  assert (Hndx : NoDup (map CheckEntry.id (p :: red))).
  { rewrite Hperm. unfold checksOn. now apply NoDup_map_filter. }
  assert (Hpred : ~ In (CheckEntry.id p) (map CheckEntry.id red)).
  { cbn [map] in Hndx. apply NoDup_cons in Hndx as [Hx _].
    now rewrite list_elem_of_In in Hx. }
  assert (Hrows2 : rows2 = bulkDeleteChecks rows1 (map CheckEntry.id red)).
  { unfold rows2. destruct red; [now rewrite bulkDeleteChecks_nil|reflexivity]. }
  assert (Hkeep : forall r, In r rows ->
             negb (existsb (Z.eqb (CheckEntry.id r)) (map CheckEntry.id red)) = false ->
             In r red).
  { intros r Hr Hk. apply negb_false_iff, existsb_exists in Hk as [i [Hi Heq]].
    apply Z.eqb_eq in Heq. subst i. apply in_map_iff in Hi as [r' [Hid Hr']].
    assert (r' = r) as <-; [|exact Hr'].
    apply (NoDup_map_id_eq rows); [exact Hnd|now apply Hred|exact Hr|exact Hid]. }
  assert (Hgone : forall r, In r red ->
             negb (existsb (Z.eqb (CheckEntry.id r)) (map CheckEntry.id red)) = false).
  { intros r Hr. apply negb_false_iff, existsb_exists. exists (CheckEntry.id r).
    split; [now apply in_map|apply Z.eqb_refl]. }
  clearbody rows2. subst rows2. unfold rows1, bulkDeleteChecks.
  split; [|split; [|split]].
  - unfold checksOn. rewrite filter_twice, filter_map_comp.
    rewrite (List.filter_ext_in _ (fun r => CheckEntry.id r =? CheckEntry.id p)).
    + rewrite filter_same_id by tauto. cbn [map]. now rewrite Z.eqb_refl.
    + intros r Hr.
      destruct (Z.eqb_spec (CheckEntry.id r) (CheckEntry.id p)) as [Heq|Hne].
      * assert (r = p) as -> by (apply (NoDup_map_id_eq rows); tauto).
        rewrite Hg, Hday, Z.eqb_refl, andb_true_r.
        apply negb_true_iff, not_true_is_false. intros Hexb.
        apply existsb_exists in Hexb as [i [Hi Hieq]]. apply Z.eqb_eq in Hieq.
        subst i. contradiction.
      * destruct (negb (existsb (Z.eqb (CheckEntry.id r)) (map CheckEntry.id red)))
          eqn:Hk; cbn [andb]; [|reflexivity].
        apply Z.eqb_neq. intros Hd.
        destruct (Hall r Hr Hd) as [->|Hin]; [congruence|].
        rewrite (Hgone r Hin) in Hk. discriminate.
  - intros c Hc. rewrite filter_In, in_map_iff. split.
    + intros [[r [Heq Hr]] _].
      destruct (Z.eqb_spec (CheckEntry.id r) (CheckEntry.id p)) as [Hid|]; [|now subst c].
      assert (r = p) as -> by (apply (NoDup_map_id_eq rows); tauto).
      subst c. contradiction.
    + intros Hin.
      assert (Hcp : CheckEntry.id c <> CheckEntry.id p).
      { intros Hid. assert (c = p) as -> by (apply (NoDup_map_id_eq rows); tauto).
        tauto. }
      split.
      * exists c. split; [|exact Hin]. apply Z.eqb_neq in Hcp. now rewrite Hcp.
      * destruct (negb (existsb (Z.eqb (CheckEntry.id c)) (map CheckEntry.id red)))
          eqn:Hk; [reflexivity|].
        apply Hkeep in Hk; [|exact Hin]. apply Hred in Hk. tauto.
  - apply NoDup_map_filter. rewrite map_map.
    erewrite map_ext; [exact Hnd|].
    intros r. cbn. destruct (CheckEntry.id r =? CheckEntry.id p); [apply Hg|reflexivity].
  - intros c Hc. apply filter_In in Hc as [Hc _].
    apply in_map_iff in Hc as [r [Heq Hr]]. subst c.
    destruct (CheckEntry.id r =? CheckEntry.id p); [rewrite Hg|]; now apply in_map.
Qed.

Lemma dedup_keeps_winner (E : Env) (cs : list CheckEntry.t) (d : Z) (r : CheckEntry.t) :
  dayWinner (checksOn E d cs) = Some r -> In r (_deduplicateChecks E cs).
Proof.
  intros Hw.
  destruct (dedup_fold_winners E cs [] []) as [_ Hlk];
    [apply NoDup_nil_2 | reflexivity |].
  cbn [app] in Hlk. rewrite <- Hlk in Hw.
  unfold _deduplicateChecks.
  generalize dependent (fold_left (dedupStep E) cs []). intros acc Hacc _.
  induction acc as [|[k v] acc IH]; [cbn in Hacc; discriminate Hacc|].
  cbn [accLookup] in Hacc. cbn [map snd]. revert Hacc. destruct (k =? d).
  - intros [= ->]. now left.
  - intros Hacc. right. now apply IH.
Qed.

(** Steps 1 to 3 of [saveDailyCheck] on a table with unique keys. *)
Lemma storeDailyCheck_rows (E : Env) (formData : CheckForm) (db : Db) :
  checkKeysFresh db ->
  let r := storeDailyCheck E formData db in
  let day := formatDay E (cfDate formData) in
  (exists i, checksOn E day (checks (ledger (fst r))) = [savedCheck E formData i])
  /\ (forall c, formatDay E (CheckEntry.timestamp c) <> day ->
                (In c (checks (ledger (fst r))) <-> In c (checks (ledger db))))
  /\ checkKeysFresh (fst r)
  /\ (snd r = true <-> checksOn E day (checks (ledger db)) <> [])
  /\ WEIGHT (fst r) = WEIGHT db.
Proof.
  intros [Hnd Hlt] r day.
  destruct (timeOfDay_noon E (cfDate formData)) as [Hnoon _].
  unfold r, storeDailyCheck. rewrite checksBetween_day. fold day.
  destruct (sortOn CheckEntry.timestamp (checksOn E day (checks (ledger db))))
    as [|p red] eqn:Hex.
  - apply sortOn_nil in Hex.
    cbn [fst snd addCheck ledger withChecks checks checksKeyGen WEIGHT].
    split; [|split; [|split; [|split]]].
    + exists (checksKeyGen db). unfold checksOn. rewrite List.filter_app.
      unfold checksOn in Hex. rewrite Hex. cbn [List.filter CheckEntry.timestamp app].
      rewrite Hnoon. unfold day. now rewrite Z.eqb_refl.
    + intros c Hc. rewrite in_app_iff. cbn [In]. split; [|tauto].
      intros [Hin|[<-|[]]]; [exact Hin|]. cbn [CheckEntry.timestamp] in Hc. contradiction.
    + unfold checkKeysFresh. cbn [addCheck ledger withChecks checks checksKeyGen].
      split.
      * rewrite map_app. cbn [map CheckEntry.id]. apply NoDup_app.
        split; [exact Hnd|]. split; [|apply NoDup_singleton].
        intros x Hx Hx'. apply list_elem_of_In in Hx, Hx'. destruct Hx' as [<-|[]].
        apply in_map_iff in Hx as [c [Hid Hc]].
        rewrite List.Forall_forall in Hlt. specialize (Hlt c Hc). lia.
      * apply Forall_app. split.
        -- eapply List.Forall_impl; [|exact Hlt]. cbn. intros; lia.
        -- constructor; [cbn; lia|constructor].
    + rewrite Hex. split; [discriminate|congruence].
    + reflexivity.
  - destruct (resolve_day E day (checks (ledger db)) p red
                (fun r => CheckEntry.mk (CheckEntry.id r)
                            (startOfDay E (cfDate formData) + 12 * msPerHour)
                            (cfIsDryDay formData) true (cfWeight formData)) Hnd Hex)
      as (Hone & Hother & Hnd2 & Hids); [reflexivity|exact Hnoon|].
    cbn [fst snd withLedger ledger withChecks checks checksKeyGen WEIGHT].
    unfold updateCheck.
    split; [|split; [|split; [|split]]].
    + exists (CheckEntry.id p). exact Hone.
    + exact Hother.
    + unfold checkKeysFresh. cbn [withLedger ledger withChecks checks checksKeyGen].
      split; [exact Hnd2|].
      apply List.Forall_forall. intros c Hc. apply Hids in Hc.
      apply in_map_iff in Hc as [c0 [<- Hc0]].
      rewrite List.Forall_forall in Hlt. now apply Hlt.
    + split; [intros _|reflexivity]. intros Hnil.
      rewrite Hnil in Hex. discriminate.
    + reflexivity.
Qed.

(** What the rest of [saveDailyCheck] does to the fields of the state. *)
Lemma saveDailyCheck_fields (E : Env) (checkShareText : string) (now : Z)
    (formData : CheckForm) (db : Db) :
  let r := saveDailyCheck E checkShareText now formData db in
  let s := storeDailyCheck E formData db in
  checks (ledger (fst r)) = checks (ledger (fst s))
  /\ checksKeyGen (fst r) = checksKeyGen (fst s)
  /\ crIsUpdate (snd r) = snd s
  /\ WEIGHT (fst r) = match cfWeight formData with
                      | Some 0 | None => WEIGHT (fst s)
                      | Some w => Some w
                      end.
Proof.
  cbv zeta. unfold saveDailyCheck.
  destruct (storeDailyCheck E formData db) as [db1 isUpdate]. cbn [fst snd crIsUpdate].
  destruct (cfWeight formData) as [[| |]|];
    cbn [withLedger ledger checksKeyGen WEIGHT];
    (split; [apply recalc_logs|repeat split]).
Qed.

Lemma saveDailyCheck_rows (E : Env) (checkShareText : string) (now : Z)
    (formData : CheckForm) (db : Db) :
  checkKeysFresh db ->
  let r := saveDailyCheck E checkShareText now formData db in
  let day := formatDay E (cfDate formData) in
  (exists i, checksOn E day (checks (ledger (fst r))) = [savedCheck E formData i])
  /\ (forall c, formatDay E (CheckEntry.timestamp c) <> day ->
                (In c (checks (ledger (fst r))) <-> In c (checks (ledger db))))
  /\ checkKeysFresh (fst r)
  /\ (crIsUpdate (snd r) = true <-> checksOn E day (checks (ledger db)) <> []).
Proof.
  intros Hfresh r day.
  destruct (storeDailyCheck_rows E formData db Hfresh)
    as (Hone & Hother & [Hnd Hlt] & Hupd & _).
  destruct (saveDailyCheck_fields E checkShareText now formData db)
    as (Hc & Hk & Hu & _).
  fold r in Hc, Hk, Hu. fold day in Hone, Hother, Hupd.
  unfold checkKeysFresh. rewrite Hc, Hk, Hu. tauto.
Qed.

(** X17.  [saveDailyCheck] leaves exactly one record on the calendar day
    of the form: it is stamped at noon of that day, saved, and carries the
    form's dry-day flag and weight; it is the record [getAppDataSnapshot]
    then shows.  Records of other days are neither added, changed nor
    removed; the call reports an update exactly when the day had a record;
    keys stay unique. *)
Theorem saveDailyCheck_one_record_per_day (E : Env) (checkShareText : string)
    (now : Z) (formData : CheckForm) (db : Db) :
  checkKeysFresh db ->
  let r := saveDailyCheck E checkShareText now formData db in
  let day := formatDay E (cfDate formData) in
  (exists c,
      checksOn E day (checks (ledger (fst r))) = [c]
      /\ CheckEntry.timestamp c = startOfDay E (cfDate formData) + 12 * msPerHour
      /\ CheckEntry.isSaved c = true
      /\ CheckEntry.isDryDay c = cfIsDryDay formData
      /\ CheckEntry.weight c = cfWeight formData
      /\ In c (adChecks (getAppDataSnapshot E (ledger (fst r)))))
  /\ (forall c, formatDay E (CheckEntry.timestamp c) <> day ->
                (In c (checks (ledger (fst r))) <-> In c (checks (ledger db))))
  /\ (crIsUpdate (snd r) = true <-> checksOn E day (checks (ledger db)) <> [])
  /\ checkKeysFresh (fst r).
Proof.
  intros Hfresh r day.
  destruct (saveDailyCheck_rows E checkShareText now formData db Hfresh)
    as ([i Hone] & Hother & Hkeys & Hupd).
  fold r in Hone, Hother, Hkeys, Hupd. fold day in Hone, Hother, Hupd.
  clearbody r.
  split; [|tauto].
  exists (savedCheck E formData i). repeat (split; [reflexivity || exact Hone|]).
  unfold getAppDataSnapshot. cbn [adChecks].
  apply dedup_keeps_winner with (d := day). now rewrite Hone.
Qed.

Lemma saveDailyCheck_one_record_per_day_witness :
  let r := saveDailyCheck sampleEnv "dry"%string (5 * msPerDay) dryDayForm
             doubleCheckDb in
  let day := formatDay sampleEnv (cfDate dryDayForm) in
  (exists c,
      checksOn sampleEnv day (checks (ledger (fst r))) = [c]
      /\ CheckEntry.timestamp c
         = startOfDay sampleEnv (cfDate dryDayForm) + 12 * msPerHour
      /\ CheckEntry.isSaved c = true
      /\ CheckEntry.isDryDay c = cfIsDryDay dryDayForm
      /\ CheckEntry.weight c = cfWeight dryDayForm
      /\ In c (adChecks (getAppDataSnapshot sampleEnv (ledger (fst r)))))
  /\ (forall c, formatDay sampleEnv (CheckEntry.timestamp c) <> day ->
                (In c (checks (ledger (fst r))) <-> In c (checks (ledger doubleCheckDb))))
  /\ (crIsUpdate (snd r) = true
      <-> checksOn sampleEnv day (checks (ledger doubleCheckDb)) <> [])
  /\ checkKeysFresh (fst r).
Proof.
  refine (saveDailyCheck_one_record_per_day sampleEnv "dry"%string (5 * msPerDay)
            dryDayForm doubleCheckDb _).
  split.
  - apply (bool_decide_unpack _). vm_compute. exact I.
  - vm_compute. repeat constructor.
Defined.

Lemma updateCheck_same (E : Env) (formData : CheckForm) (rows : list CheckEntry.t)
    (i : Z) :
  NoDup (map CheckEntry.id rows) ->
  In (savedCheck E formData i) rows ->
  updateCheck rows i (startOfDay E (cfDate formData) + 12 * msPerHour)
              (cfIsDryDay formData) true (cfWeight formData)
  = rows.
Proof.
  intros Hnd Hin. unfold updateCheck.
  rewrite <- (map_id rows) at 2. apply map_ext_in. intros r Hr.
  destruct (Z.eqb_spec (CheckEntry.id r) i) as [Hid|]; [|reflexivity].
  assert (r = savedCheck E formData i) as ->.
  { apply (NoDup_map_id_eq rows); [exact Hnd|exact Hr|exact Hin|exact Hid]. }
  reflexivity.
Qed.

(** X18.  Saving the same form again changes no check record: the second
    call finds the record of the first, reports an update, and leaves
    [db.checks], its key generator and the stored weight as they are. *)
Theorem saveDailyCheck_again (E : Env) (checkShareText : string) (now now' : Z)
    (formData : CheckForm) (db : Db) :
  checkKeysFresh db ->
  let r1 := saveDailyCheck E checkShareText now formData db in
  let r2 := saveDailyCheck E checkShareText now' formData (fst r1) in
  checks (ledger (fst r2)) = checks (ledger (fst r1))
  /\ checksKeyGen (fst r2) = checksKeyGen (fst r1)
  /\ WEIGHT (fst r2) = WEIGHT (fst r1)
  /\ crIsUpdate (snd r2) = true.
Proof.
  intros Hfresh r1 r2.
  destruct (saveDailyCheck_rows E checkShareText now formData db Hfresh)
    as ([i Hone] & _ & [Hnd _] & _).
  destruct (saveDailyCheck_fields E checkShareText now formData db)
    as (_ & _ & _ & Hw1).
  fold r1 in Hone, Hnd, Hw1.
  destruct (saveDailyCheck_fields E checkShareText now' formData (fst r1))
    as (Hc & Hk & Hu & Hw).
  fold r2 in Hc, Hk, Hu, Hw. clearbody r2 r1.
  assert (Hin : In (savedCheck E formData i) (checks (ledger (fst r1)))).
  { assert (H : In (savedCheck E formData i)
                   (checksOn E (formatDay E (cfDate formData))
                             (checks (ledger (fst r1)))))
      by (rewrite Hone; now left).
    now apply In_checksOn in H. }
  assert (Hs : storeDailyCheck E formData (fst r1) = (fst r1, true)).
  { unfold storeDailyCheck. rewrite checksBetween_day, Hone.
    cbn [sortOn foldr insertOn savedCheck CheckEntry.id].
    rewrite (updateCheck_same E formData _ i Hnd Hin).
    destruct (fst r1) as [[] ? ?]. reflexivity. }
  rewrite Hs in Hc, Hk, Hu, Hw. cbn [fst snd] in Hc, Hk, Hu, Hw.
  split; [exact Hc|]. split; [exact Hk|]. split; [|exact Hu].
  rewrite Hw, Hw1. now destruct (cfWeight formData) as [[| |]|].
Qed.

Lemma saveDailyCheck_again_witness :
  let r1 := saveDailyCheck sampleEnv "dry"%string (5 * msPerDay) dryDayForm
              doubleCheckDb in
  let r2 := saveDailyCheck sampleEnv "dry"%string (6 * msPerDay) dryDayForm (fst r1) in
  checks (ledger (fst r2)) = checks (ledger (fst r1))
  /\ checksKeyGen (fst r2) = checksKeyGen (fst r1)
  /\ WEIGHT (fst r2) = WEIGHT (fst r1)
  /\ crIsUpdate (snd r2) = true.
Proof.
  refine (saveDailyCheck_again sampleEnv "dry"%string (5 * msPerDay) (6 * msPerDay)
            dryDayForm doubleCheckDb _).
  split.
  - apply (bool_decide_unpack _). vm_compute. exact I.
  - vm_compute. repeat constructor.
Defined.

(** ** Recording a beer *)



Lemma saveBeerLog_fields (E : Env) (T : Texts) (now : Z) (data : BeerData)
    (id : option Z) (db : Db) :
  let r := saveBeerLog E T now data id db in
  let c := cancelDryDay E (bdTimestamp data) (checks (ledger db)) in
  checks (ledger (fst r)) = fst c
  /\ checksKeyGen (fst r) = checksKeyGen db
  /\ dryDayCanceled (snd r) = snd c
  /\ brKcal (snd r) = beerKcal E data
  /\ brIsUpdate (snd r) = match id with Some _ => true | None => false end.
Proof.
  cbv zeta. unfold saveBeerLog.
  assert (Hc : checks (match id with
                       | Some i => withLogs (ledger db)
                                     (updateBeerRow (logs (ledger db)) i
                                        (beerLogData E data))
                       | None => addLog (ledger db) (beerLogData E data)
                       end) = checks (ledger db)) by now destruct id.
  rewrite Hc.
  destruct (cancelDryDay E (bdTimestamp data) (checks (ledger db))) as [rows2 canceled].
  cbn [fst snd withLedger ledger checksKeyGen dryDayCanceled brKcal brIsUpdate].
  split; [|repeat split].
  match goal with
  | |- checks (fst (recalcImpactedHistory E now ?t ?st)) = _ =>
      destruct (recalc_logs E now t st) as (_ & -> & _)
  end.
  reflexivity.
Qed.



Lemma saveBeerLog_logs (E : Env) (T : Texts) (now : Z) (data : BeerData)
    (id : option Z) (db : Db) :
  let st1 := match id with
             | Some i => withLogs (ledger db)
                           (updateBeerRow (logs (ledger db)) i (beerLogData E data))
             | None => addLog (ledger db) (beerLogData E data)
             end in
  NoDup (map LogEntry.id (logs st1)) ->
  Forall2 (rewrittenFrom E (getVirtualDate E (bdTimestamp data)))
          (logs st1) (logs (ledger (fst (saveBeerLog E T now data id db))))
  /\ logsKeyGen (ledger (fst (saveBeerLog E T now data id db))) = logsKeyGen st1.
Proof.
  intros st1 Hnd. unfold saveBeerLog. fold st1.
  destruct (cancelDryDay E (bdTimestamp data) (checks st1)) as [rows2 canceled].
  cbn [fst withLedger ledger].
  split.
  - apply (recalc_rewrittenFrom E now (bdTimestamp data) (withChecks st1 rows2)).
    exact Hnd.
  - now rewrite recalc_unfold.
Qed.

(** X20.  [saveBeerLog] without an id appends exactly one log: the beer,
    under the next key, with the debit it reports as its stored kcal.  The
    recalculation that follows does not alter it, and it rewrites no log of
    a virtual day before the beer's. *)
Theorem saveBeerLog_appends_the_beer (E : Env) (T : Texts) (now : Z)
    (data : BeerData) (db : Db) :
  logKeysFresh (ledger db) ->
  let r := saveBeerLog E T now data None db in
  exists rows',
    logs (ledger (fst r))
    = rows' ++ [LogEntry.withId (beerLogData E data) (logsKeyGen (ledger db))]
    /\ Forall2 (rewrittenFrom E (getVirtualDate E (bdTimestamp data)))
               (logs (ledger db)) rows'
    /\ logsKeyGen (ledger (fst r)) = logsKeyGen (ledger db) + 1
    /\ LogEntry.kcal (beerLogData E data) = Some (brKcal (snd r))
    /\ brIsUpdate (snd r) = false.
Proof.
  intros [Hnd Hlt] r.
  destruct (saveBeerLog_fields E T now data None db) as (_ & _ & _ & Hk & Hu).
  fold r in Hk, Hu.
  destruct (saveBeerLog_logs E T now data None db) as [Hrel Hgen].
  { cbn [addLog logs]. rewrite map_app. cbn [map LogEntry.withId LogEntry.id].
    apply NoDup_app. split; [exact Hnd|]. split; [|apply NoDup_singleton].
    intros x Hx Hx'. apply list_elem_of_In in Hx, Hx'. destruct Hx' as [<-|[]].
    apply in_map_iff in Hx as [l [Hid Hl]].
    rewrite List.Forall_forall in Hlt. specialize (Hlt l Hl). lia. }
  fold r in Hrel, Hgen. clearbody r. cbn [addLog logs logsKeyGen] in Hrel, Hgen.
  apply Forall2_app_inv_l in Hrel as (rows' & last & Hrows & Hlast & Heq).
  inversion Hlast as [|? new' ? ? Hnew Hnil]; subst.
  inversion Hnil; subst.
  exists rows'. split.
  - rewrite Heq. f_equal. f_equal.
    destruct Hnew as [->|(Hty & _)]; [reflexivity|discriminate Hty].
  - split; [exact Hrows|]. split; [exact Hgen|]. split; [|exact Hu].
    rewrite Hk. reflexivity.
Qed.

Lemma saveBeerLog_appends_the_beer_witness :
  let r := saveBeerLog sampleEnv sampleTexts (5 * msPerDay) latePint None
             doubleCheckDb in
  exists rows',
    logs (ledger (fst r))
    = rows' ++ [LogEntry.withId (beerLogData sampleEnv latePint)
                  (logsKeyGen (ledger doubleCheckDb))]
    /\ Forall2 (rewrittenFrom sampleEnv (getVirtualDate sampleEnv (bdTimestamp latePint)))
               (logs (ledger doubleCheckDb)) rows'
    /\ logsKeyGen (ledger (fst r)) = logsKeyGen (ledger doubleCheckDb) + 1
    /\ LogEntry.kcal (beerLogData sampleEnv latePint) = Some (brKcal (snd r))
    /\ brIsUpdate (snd r) = false.
Proof.
  refine (saveBeerLog_appends_the_beer sampleEnv sampleTexts (5 * msPerDay) latePint
            doubleCheckDb _).
  split.
  - apply (bool_decide_unpack _). vm_compute. exact I.
  - vm_compute. repeat constructor.
Defined.

Lemma updateBeerRow_missing (rows : list LogEntry.t) (i : Z) (logData : LogEntry.t) :
  (forall l, In l rows -> LogEntry.id l <> i) -> updateBeerRow rows i logData = rows.
Proof.
  intros H. unfold updateBeerRow. rewrite <- (map_id rows) at 2.
  apply map_ext_in. intros r Hr.
  destruct (Z.eqb_spec (LogEntry.id r) i) as [Hid|]; [|reflexivity].
  now apply H in Hr.
Qed.

(** X21.  [saveBeerLog] with an id that no log has stores no beer: the
    table keeps its rows (the recalculation may refresh exercise credits
    from the beer's virtual day on, as after any change) and its key
    generator.  The report still says [isUpdate] with the computed kcal. *)
Theorem saveBeerLog_unknown_id (E : Env) (T : Texts) (now i : Z)
    (data : BeerData) (db : Db) :
  uniqueLogIds (ledger db) ->
  (forall l, In l (logs (ledger db)) -> LogEntry.id l <> i) ->
  let r := saveBeerLog E T now data (Some i) db in
  Forall2 (rewrittenFrom E (getVirtualDate E (bdTimestamp data)))
          (logs (ledger db)) (logs (ledger (fst r)))
  /\ logsKeyGen (ledger (fst r)) = logsKeyGen (ledger db)
  /\ brIsUpdate (snd r) = true
  /\ brKcal (snd r) = beerKcal E data.
Proof.
  intros Hu Hmiss r.
  destruct (saveBeerLog_fields E T now data (Some i) db) as (_ & _ & _ & Hk & Hup).
  fold r in Hk, Hup.
  destruct (saveBeerLog_logs E T now data (Some i) db) as [Hrel Hgen].
  { cbn [withLogs logs]. now rewrite updateBeerRow_missing. }
  fold r in Hrel, Hgen. clearbody r.
  cbn [withLogs logs logsKeyGen] in Hrel, Hgen.
  rewrite updateBeerRow_missing in Hrel by exact Hmiss.
  repeat split; assumption.
Qed.

Lemma saveBeerLog_unknown_id_witness :
  let r := saveBeerLog sampleEnv sampleTexts (5 * msPerDay) latePint (Some 42)
             doubleCheckDb in
  Forall2 (rewrittenFrom sampleEnv (getVirtualDate sampleEnv (bdTimestamp latePint)))
          (logs (ledger doubleCheckDb)) (logs (ledger (fst r)))
  /\ logsKeyGen (ledger (fst r)) = logsKeyGen (ledger doubleCheckDb)
  /\ brIsUpdate (snd r) = true
  /\ brKcal (snd r) = beerKcal sampleEnv latePint.
Proof.
  refine (saveBeerLog_unknown_id sampleEnv sampleTexts (5 * msPerDay) 42 latePint
            doubleCheckDb _ _).
  - unfold uniqueLogIds. apply (bool_decide_unpack _). vm_compute. exact I.
  - intros l Hl. vm_compute in Hl.
    destruct Hl as [<-|[<-|[<-|[]]]]; discriminate.
Defined.

(** ** Recent exercises *)







(** ** Custom and permanent periods *)

Lemma endOfDay_endOfDay (E : Env) (ts : Z) : endOfDay E (endOfDay E ts) = endOfDay E ts.
Proof.
  unfold endOfDay at 1. rewrite startOfDay_formatDay.
  assert (Hf : formatDay E (endOfDay E ts) = formatDay E ts).
  { unfold endOfDay. rewrite startOfDay_formatDay.
    unfold formatDay at 1, msPerDay.
    symmetry. apply Z.div_unique with (r := 86400000 - 1); lia. }
  rewrite Hf. unfold endOfDay. now rewrite startOfDay_formatDay.
Qed.

Lemma orDefault_nonzero (v : Z) : v <> 0 -> orDefault (Some v) 0 = v.
Proof. intros H. unfold orDefault. now destruct v. Qed.

(** X23.  A custom period never rolls over by itself.  After
    [updatePeriodSettings] stores a custom period with a start and an end
    date (neither falling on the zero instant, which reads as unset),
    [checkPeriodRollover] changes nothing at any time, and reports the end
    of the period exactly when the clock is past the last millisecond of
    the end date's day.  The switch itself touches no table. *)
Theorem custom_period_waits_for_the_user (E : Env) (now now' sd ed : Z)
    (customData : CustomData) (st : State) :
  cdStartDate customData = Some sd ->
  cdEndDate customData = Some ed ->
  startOfDay E sd <> 0 ->
  endOfDay E ed <> 0 ->
  let r := updatePeriodSettings E now custom customData st in
  checkPeriodRollover E now' (fst r) = (endOfDay E ed <? now', fst r)
  /\ snd r = 0
  /\ logs (fst r) = logs st
  /\ checks (fst r) = checks st
  /\ period_archives (fst r) = period_archives st
  /\ PERIOD_START (localStorage (fst r)) = Some (startOfDay E sd)
  /\ PERIOD_END_DATE (localStorage (fst r)) = Some (endOfDay E ed).
Proof.
  intros Hsd Hed Hs0 He0 r.
  assert (Hr : PERIOD_MODE (localStorage (fst r)) = Some custom
               /\ PERIOD_START (localStorage (fst r)) = Some (startOfDay E sd)
               /\ PERIOD_END_DATE (localStorage (fst r)) = Some (endOfDay E ed)
               /\ snd r = 0 /\ logs (fst r) = logs st /\ checks (fst r) = checks st
               /\ period_archives (fst r) = period_archives st).
  { unfold r, updatePeriodSettings. rewrite Hsd, Hed.
    destruct (cdLabel customData) as [[|]|]; cbn; repeat split; reflexivity. }
  clearbody r. destruct Hr as (Hm & Hps & Hpe & Hn & Hl & Hc & Ha).
  split; [|tauto].
  unfold checkPeriodRollover. rewrite Hm, Hps, Hpe.
  cbn [default from_option Mode_eqb]. unfold id.
  rewrite !orDefault_nonzero by assumption.
  apply Z.eqb_neq in Hs0, He0. rewrite Hs0, He0. cbn [negb andb].
  rewrite endOfDay_endOfDay. now destruct (endOfDay E ed <? now').
Qed.

Lemma custom_period_waits_for_the_user_witness :
  let r := updatePeriodSettings sampleEnv (3 * msPerDay) custom sampleCustomData
             sampleLedger in
  checkPeriodRollover sampleEnv (12 * msPerDay) (fst r)
  = (endOfDay sampleEnv (9 * msPerDay + msPerHour) <? 12 * msPerDay, fst r)
  /\ snd r = 0
  /\ logs (fst r) = logs sampleLedger
  /\ checks (fst r) = checks sampleLedger
  /\ period_archives (fst r) = period_archives sampleLedger
  /\ PERIOD_START (localStorage (fst r))
     = Some (startOfDay sampleEnv (2 * msPerDay + 7 * msPerHour))
  /\ PERIOD_END_DATE (localStorage (fst r))
     = Some (endOfDay sampleEnv (9 * msPerDay + msPerHour)).
Proof.
  apply (custom_period_waits_for_the_user sampleEnv (3 * msPerDay) (12 * msPerDay)
           (2 * msPerDay + 7 * msPerHour) (9 * msPerDay + msPerHour) sampleCustomData
           sampleLedger).
  - reflexivity.
  - reflexivity.
  - vm_compute. discriminate.
  - vm_compute. discriminate.
Defined.

Lemma updatePeriodSettings_permanent_fields (E : Env) (now : Z)
    (customData : CustomData) (st : State) :
  let r := updatePeriodSettings E now permanent customData st in
  PERIOD_MODE (localStorage (fst r)) = Some permanent
  /\ period_archives (fst r) = [].
Proof.
  cbv zeta. destruct (period_archives st) as [|a rest] eqn:Ha.
  - unfold updatePeriodSettings. cbn [withLocalStorage period_archives]. rewrite Ha.
    cbn. now split.
  - destruct (restore_appends_snapshots E now customData st) as (_ & _ & H1 & _ & H2).
    + rewrite Ha. discriminate.
    + now split.
Qed.

(** X24.  Permanent mode hides nothing and never rolls over.  After
    [updatePeriodSettings] switches to it no archive is left,
    [checkPeriodRollover] reports nothing and changes nothing, the period
    view of [getAppDataSnapshot] is the whole log table with its total as
    balance, and [getLogsWithPagination] counts every log. *)
Theorem permanent_mode_shows_everything (E : Env) (now now' : Z)
    (customData : CustomData) (offset limit : nat) (st : State) :
  let st' := fst (updatePeriodSettings E now permanent customData st) in
  period_archives st' = []
  /\ checkPeriodRollover E now' st' = (false, st')
  /\ adLogs (getAppDataSnapshot E st') = logs st'
  /\ adBalance (getAppDataSnapshot E st') = sumKcal (logs st')
  /\ adMode (getAppDataSnapshot E st') = permanent
  /\ snd (getLogsWithPagination offset limit st') = Z.of_nat (length (logs st')).
Proof.
  intros st'.
  destruct (updatePeriodSettings_permanent_fields E now customData st) as [Hm Ha].
  fold st' in Hm, Ha. clearbody st'.
  split; [exact Ha|].
  unfold checkPeriodRollover, getAppDataSnapshot, getLogsWithPagination.
  rewrite Hm. cbn. repeat split; reflexivity.
Qed.

(** ** Frequent exercises *)















(** ** Recording an exercise *)

Lemma saveExerciseLog_new (E : Env) (T : Texts) (X : ExerciseInfo) (now : Z)
    (exerciseKey : string) (minutes : Z) (dateVal : DateVal) (applyBonus : bool)
    (db : Db) :
  exists kcal memo name,
    fst (saveExerciseLog E T X now exerciseKey minutes dateVal applyBonus None db)
    = withLedger db
        (fst (recalcImpactedHistory E now (exerciseTimestamp E dateVal)
                (addLog (ledger db)
                   (LogEntry.mk 0 (exerciseTimestamp E dateVal) exercise (Some kcal)
                      name exerciseKey minutes (Some memo) None None ""%string None))))
    /\ erKcal (snd (saveExerciseLog E T X now exerciseKey minutes dateVal applyBonus
                      None db)) = kcal
    /\ (applyBonus = false ->
        kcal = calculateExerciseBurn E (default 3000 (EXERCISE E exerciseKey)) minutes
                 (getProfile E)
        /\ memo = ""%string).
Proof.
  unfold saveExerciseLog.
  destruct applyBonus.
  - eexists _, _, _. split; [reflexivity|]. split; [reflexivity|discriminate].
  - eexists _, _, _. split; [reflexivity|]. split; [reflexivity|].
    intros _. split; [|reflexivity]. now destruct (EXERCISE E exerciseKey).
Qed.

(** X26.  [saveExerciseLog] without an id appends exactly one log under
    the next key: an exercise log with the given key and minutes, filed at
    the instant given or at noon of the date given.  Its kcal and memo are
    provisional: the recalculation that follows may rewrite them, as it may
    for the other exercise logs from that virtual day on; nothing else
    changes in the table, and beer logs and earlier days are untouched. *)
Theorem saveExerciseLog_appends_one_log (E : Env) (T : Texts) (X : ExerciseInfo)
    (now : Z) (exerciseKey : string) (minutes : Z) (dateVal : DateVal)
    (applyBonus : bool) (db : Db) :
  logKeysFresh (ledger db) ->
  let r := saveExerciseLog E T X now exerciseKey minutes dateVal applyBonus None db in
  let ts := exerciseTimestamp E dateVal in
  exists rows' new,
    logs (ledger (fst r)) = rows' ++ [new]
    /\ Forall2 (rewrittenFrom E (getVirtualDate E ts)) (logs (ledger db)) rows'
    /\ LogEntry.id new = logsKeyGen (ledger db)
    /\ LogEntry.timestamp new = ts
    /\ LogEntry.type new = exercise
    /\ LogEntry.exerciseKey new = exerciseKey
    /\ LogEntry.minutes new = minutes
    /\ logsKeyGen (ledger (fst r)) = logsKeyGen (ledger db) + 1
    /\ checks (ledger (fst r)) = checks (ledger db)
    /\ erIsUpdate (snd r) = false.
Proof.
  intros [Hnd Hlt] r ts.
  destruct (saveExerciseLog_new E T X now exerciseKey minutes dateVal applyBonus db)
    as (kcal & memo & name & Hfst & _).
  fold r in Hfst. fold ts in Hfst.
  assert (Hup : erIsUpdate (snd r) = false).
  { unfold r, saveExerciseLog. now destruct applyBonus. }
  clearbody r. rewrite Hfst, Hup. clear Hfst Hup r. cbn [withLedger ledger].
  set (row := LogEntry.mk 0 ts exercise (Some kcal) name exerciseKey minutes
                (Some memo) None None ""%string None) in *.
  assert (Hu : uniqueLogIds (addLog (ledger db) row)).
  { unfold uniqueLogIds. cbn [addLog logs]. rewrite map_app.
    cbn [map LogEntry.withId LogEntry.id].
    apply NoDup_app. split; [exact Hnd|]. split; [|apply NoDup_singleton].
    intros x Hx Hx'. apply list_elem_of_In in Hx, Hx'. destruct Hx' as [<-|[]].
    apply in_map_iff in Hx as [l [Hid Hl]].
    rewrite List.Forall_forall in Hlt. specialize (Hlt l Hl). lia. }
  pose proof (recalc_rewrittenFrom E now ts (addLog (ledger db) row) Hu) as Hrel.
  destruct (recalc_logs E now ts (addLog (ledger db) row)) as (_ & Hchk & _).
  assert (Hgen : logsKeyGen (fst (recalcImpactedHistory E now ts
                                    (addLog (ledger db) row)))
                 = logsKeyGen (ledger db) + 1) by now rewrite recalc_unfold.
  generalize dependent (fst (recalcImpactedHistory E now ts (addLog (ledger db) row))).
  intros st' Hrel Hchk Hgen.
  cbn [addLog logs checks] in Hrel, Hchk.
  apply Forall2_app_inv_l in Hrel as (rows' & last & Hrows & Hlast & Heq).
  inversion Hlast as [|? new ? ? Hnew Hnil]; subst. inversion Hnil; subst.
  exists rows', new. split; [exact Heq|]. split; [exact Hrows|].
  assert (Hf : LogEntry.id new = logsKeyGen (ledger db)
               /\ LogEntry.timestamp new = ts
               /\ LogEntry.type new = exercise
               /\ LogEntry.exerciseKey new = exerciseKey
               /\ LogEntry.minutes new = minutes).
  { destruct Hnew as [->|(_ & _ & k & m & ->)]; cbn; repeat split; reflexivity. }
  tauto.
Qed.

Lemma saveExerciseLog_appends_one_log_witness :
  let r := saveExerciseLog sampleEnv sampleTexts sampleExerciseInfo (5 * msPerDay)
             "running"%string 30 (DateOf (2 * msPerDay + 3 * msPerHour)) true None
             doubleCheckDb in
  let ts := exerciseTimestamp sampleEnv (DateOf (2 * msPerDay + 3 * msPerHour)) in
  exists rows' new,
    logs (ledger (fst r)) = rows' ++ [new]
    /\ Forall2 (rewrittenFrom sampleEnv (getVirtualDate sampleEnv ts))
               (logs (ledger doubleCheckDb)) rows'
    /\ LogEntry.id new = logsKeyGen (ledger doubleCheckDb)
    /\ LogEntry.timestamp new = ts
    /\ LogEntry.type new = exercise
    /\ LogEntry.exerciseKey new = "running"%string
    /\ LogEntry.minutes new = 30
    /\ logsKeyGen (ledger (fst r)) = logsKeyGen (ledger doubleCheckDb) + 1
    /\ checks (ledger (fst r)) = checks (ledger doubleCheckDb)
    /\ erIsUpdate (snd r) = false.
Proof.
  refine (saveExerciseLog_appends_one_log sampleEnv sampleTexts sampleExerciseInfo
            (5 * msPerDay) "running"%string 30 (DateOf (2 * msPerDay + 3 * msPerHour))
            true doubleCheckDb _).
  split.
  - apply (bool_decide_unpack _). vm_compute. exact I.
  - vm_compute. repeat constructor.
Defined.

(** ** Keys *)




Lemma withLocalStorage_keysFresh (st : State) (ls : LocalStorage) :
  keysFresh st -> keysFresh (withLocalStorage st ls).
Proof. intros H. exact H. Qed.








